(** * mqtt_push: the acquisition-and-publish pipeline

    A shallow embedding of the sensor normaliser (sensorProcessor.js), the
    unit catalogue (unit.js), the store retry policy (redisService.js), the
    bus publisher (mqttService.js, dual-reconnect variant) and the poll cycle
    of the orchestrator (index.js), followed by the properties the design
    document states about them; then the shutdown path and the
    configuration loader (config.js), with further properties of the
    code. *)

From Stdlib Require Import ZArith QArith List String Ascii Bool Lia.
Import ListNotations.

Local Open Scope Z_scope.
Local Set Warnings "-register-all".

(** ** JavaScript values *)

Module Js.

(** A JavaScript string is a sequence of UTF-16 code units. *)
Definition jsstring := list Z.

(** *** Buffer.from(s, 'latin1') and buf.toString('utf8') *)

(** The latin1 encoder keeps the low byte of every code unit. *)
Definition latin1_bytes (s : jsstring) : list Z :=
  map (fun cu => Z.land cu 255) s.

(** A code point as UTF-16: one unit in the BMP, a surrogate pair above. *)
Definition utf16 (cp : Z) : jsstring :=
  if cp <? 65536 then [cp]
  else [55296 + Z.shiftr (cp - 65536) 10; 56320 + Z.land (cp - 65536) 1023].

(** A multi-byte sequence under way: the bits read, the continuation bytes
    still expected, and the range allowed for the next byte. *)
Inductive pending := Pending (acc : Z) (need : nat) (lo hi : Z).

Definition between (lo x hi : Z) : bool := (lo <=? x) && (x <=? hi).

(** A byte met outside a sequence: ASCII is output, a lead byte opens a
    sequence, anything else is replaced by U+FFFD. *)
Definition lead (b : Z) : jsstring * option pending :=
  if b <=? 127 then ([b], None)
  else if between 194 b 223 then ([], Some (Pending (Z.land b 31) 1 128 191))
  else if between 224 b 239 then
    ([], Some (Pending (Z.land b 15) 2
                 (if b =? 224 then 160 else 128) (if b =? 237 then 159 else 191)))
  else if between 240 b 244 then
    ([], Some (Pending (Z.land b 7) 3
                 (if b =? 240 then 144 else 128) (if b =? 244 then 143 else 191)))
  else ([65533], None).

(** The decoder replaces every maximal ill-formed part by one U+FFFD and
    reads the offending byte again as the start of a sequence. *)
Fixpoint utf8_decode (st : option pending) (bs : list Z) : jsstring :=
  match bs with
  | [] => match st with None => [] | Some _ => [65533] end
  | b :: rest =>
      match st with
      | None => fst (lead b) ++ utf8_decode (snd (lead b)) rest
      | Some (Pending acc need lo hi) =>
          if between lo b hi then
            let acc' := Z.lor (Z.shiftl acc 6) (Z.land b 63) in
            match need with
            | S (S n) => utf8_decode (Some (Pending acc' (S n) 128 191)) rest
            | _ => utf16 acc' ++ utf8_decode None rest
            end
          else 65533 :: fst (lead b) ++ utf8_decode (snd (lead b)) rest
      end
  end.

Definition utf8_to_string (bs : list Z) : jsstring := utf8_decode None bs.

(** Source literals are written as Rocq strings (their UTF-8 bytes) and read
    back into code units. *)
Definition bytes_of (s : string) : list Z :=
  map (fun a => Z.of_N (N_of_ascii a)) (list_ascii_of_string s).

Definition js (s : string) : jsstring := utf8_to_string (bytes_of s).

Fixpoint jsstring_eqb (a b : jsstring) : bool :=
  match a, b with
  | [], [] => true
  | x :: a', y :: b' => (x =? y) && jsstring_eqb a' b'
  | _, _ => false
  end.

(** *** Numbers *)

(** Finite values are kept exact; NaN and the infinities are apart. *)
Inductive number := NaN | NegInf | Fin (q : Q) | PosInf.

(** The relational operator [<] on two numbers. *)
Definition num_ltb (a b : number) : bool :=
  match a, b with
  | NaN, _ | _, NaN => false
  | NegInf, NegInf => false
  | NegInf, _ => true
  | _, NegInf => false
  | PosInf, _ => false
  | Fin _, PosInf => true
  | Fin x, Fin y => negb (Qle_bool y x)
  end.

Definition isNaN (n : number) : bool :=
  match n with NaN => true | _ => false end.

Definition num_is_zero (n : number) : bool :=
  match n with Fin q => Qeq_bool q 0 | _ => false end.

Definition of_Z (z : Z) : number := Fin (inject_Z z).

(** *** Values *)

(** The values JSON.parse can build, and [undefined]. An object is its
    property table; a property name is written as its source text. *)
Inductive JsVal :=
| JUndefined
| JNull
| JBool (b : bool)
| JNum (n : number)
| JStr (s : jsstring)
| JArr (items : list JsVal)
| JObj (fields : list (string * JsVal)).

(** ToBoolean. *)
Definition truthy (v : JsVal) : bool :=
  match v with
  | JUndefined | JNull => false
  | JBool b => b
  | JNum n => negb (isNaN n || num_is_zero n)
  | JStr s => match s with [] => false | _ => true end
  | JArr _ | JObj _ => true
  end.

(** [a || b] *)
Definition or_else (a b : JsVal) : JsVal := if truthy a then a else b.

Fixpoint assoc (k : string) (fs : list (string * JsVal)) : option JsVal :=
  match fs with
  | [] => None
  | (k', v) :: fs' => if String.eqb k k' then Some v else assoc k fs'
  end.

(** Errors carry the optional [code] of system errors and a message. *)
Record JsError := mkError { err_code : option string; err_message : jsstring }.

Definition TypeError (what : string) : JsError := mkError None (js what).
Definition Error (msg : string) : JsError := mkError None (js msg).

(** A computation that may throw. *)
Inductive result (A : Type) := Ok (a : A) | Throw (e : JsError).
Arguments Ok {A} a.
Arguments Throw {A} e.

Definition rbind {A B} (r : result A) (k : A -> result B) : result B :=
  match r with Ok a => k a | Throw e => Throw e end.

(** try { r } catch (e) { h e } *)
Definition rcatch {A} (r : result A) (h : JsError -> A) : A :=
  match r with Ok a => a | Throw e => h e end.

(** [v.k] for the property names the service reads (SN, ADDRESS, DES, name,
    profile, value, _id, min, max, code, calc, range_valid): reading from
    null or undefined throws; an object answers from its table; no other
    value, nor any prototype, has a property of these names. *)
Definition get (k : string) (v : JsVal) : result JsVal :=
  match v with
  | JUndefined | JNull => Throw (TypeError "Cannot read properties of null or undefined")
  | JObj fs => Ok (match assoc k fs with Some x => x | None => JUndefined end)
  | _ => Ok JUndefined
  end.

(** Array.isArray *)
Definition isArray (v : JsVal) : bool :=
  match v with JArr _ => true | _ => false end.

(** typeof v === 'object' *)
Definition typeof_object (v : JsVal) : bool :=
  match v with JNull | JArr _ | JObj _ => true | _ => false end.

(** typeof v === 'string' *)
Definition typeof_string (v : JsVal) : bool :=
  match v with JStr _ => true | _ => false end.

(** *** parseFloat *)

(** White space and line terminators skipped before a numeric literal. *)
Definition isWhiteSpace (c : Z) : bool :=
  existsb (Z.eqb c)
    [9; 10; 11; 12; 13; 32; 160; 5760; 8232; 8233; 8239; 8287; 12288; 65279]
  || between 8192 c 8202.

Fixpoint trimStart (s : jsstring) : jsstring :=
  match s with
  | c :: tl => if isWhiteSpace c then trimStart tl else s
  | [] => []
  end.

Definition isDigit (c : Z) : bool := between 48 c 57.

(** The longest run of decimal digits: the value accumulated onto [acc],
    the number of digits read, and what follows. *)
Fixpoint digits (acc cnt : Z) (s : jsstring) : Z * Z * jsstring :=
  match s with
  | c :: tl =>
      if isDigit c then digits (10 * acc + (c - 48)) (cnt + 1) tl
      else (acc, cnt, s)
  | [] => (acc, cnt, [])
  end.

Definition exp_digits (sign : Z) (s : jsstring) : Z :=
  let '(v, n, _) := digits 0 0 s in if n =? 0 then 0 else sign * v.

(** An exponent part counts only when it is complete. *)
Definition exponent (s : jsstring) : Z :=
  match s with
  | e :: tl =>
      if (e =? 101) || (e =? 69) then
        match tl with
        | sg :: tl' =>
            if sg =? 43 then exp_digits 1 tl'
            else if sg =? 45 then exp_digits (-1) tl'
            else exp_digits 1 tl
        | [] => 0
        end
      else 0
  | [] => 0
  end.

Fixpoint starts_with (p s : jsstring) : bool :=
  match p, s with
  | [], _ => true
  | x :: p', y :: s' => (x =? y) && starts_with p' s'
  | _ :: _, [] => false
  end.

Definition scale (m e : Z) : Q := Qred (inject_Z m * Qpower (inject_Z 10) e).

(** The longest prefix that is an unsigned decimal literal. *)
Definition unsignedLiteral (s : jsstring) : number :=
  if starts_with (js "Infinity") s then PosInf
  else
    let '(i, ni, r1) := digits 0 0 s in
    match r1 with
    | 46 :: r2 =>
        let '(m, nf, r3) := digits i 0 r2 in
        if (ni =? 0) && (nf =? 0) then NaN
        else Fin (scale m (exponent r3 - nf))
    | _ => if ni =? 0 then NaN else Fin (scale i (exponent r1))
    end.

Definition num_neg (n : number) : number :=
  match n with
  | NaN => NaN
  | NegInf => PosInf
  | PosInf => NegInf
  | Fin q => Fin (Qred (- q))
  end.

Definition parseFloat_string (s : jsstring) : number :=
  match trimStart s with
  | 43 :: tl => unsignedLiteral tl
  | 45 :: tl => num_neg (unsignedLiteral tl)
  | t => unsignedLiteral t
  end.

(** parseFloat converts its argument to a string first. A number prints to
    a literal that reads back as itself; an array prints its items joined
    by commas, so only its first item counts, null and undefined printing
    as the empty string; booleans, null, undefined and objects print to
    words that are no literal. *)
Fixpoint parseFloat (v : JsVal) : number :=
  match v with
  | JNum n => n
  | JStr s => parseFloat_string s
  | JArr (x :: _) =>
      match x with
      | JUndefined | JNull => NaN
      | _ => parseFloat x
      end
  | _ => NaN
  end.

(** [v === ''] *)
Definition is_empty_string (v : JsVal) : bool :=
  match v with JStr [] => true | _ => false end.

End Js.

Declare Scope js_scope.
Delimit Scope js_scope with js.
Notation "x <- c ;; k" := (Js.rbind c (fun x => k))
  (at level 61, c at next level, right associativity) : js_scope.

(** ** utils/sensorProcessor.js *)

Module SensorProcessor.
Import Js.
Local Open Scope string_scope.
Local Open Scope list_scope.
Local Open Scope Z_scope.
Local Open Scope js_scope.

(** this.sensorTypes: the processor's own table from type code to name. *)
Definition sensorTypes : list (jsstring * jsstring) :=
  [ (js "A", js "溫度");
    (js "B", js "濕度");
    (js "C", js "二氧化碳");
    (js "S", js "負壓");
    (js "R", js "風速");
    (js "L", js "飲用水量") ].

Definition unknownType : jsstring := js "未知類型".

Fixpoint lookup (k : jsstring) (t : list (jsstring * jsstring)) : option jsstring :=
  match t with
  | [] => None
  | (k', v) :: t' => if jsstring_eqb k k' then Some v else lookup k t'
  end.

(** The key a value indexes the table with, where that key can be a type
    code: a string is its own key and a one-item array prints as its item;
    null, undefined, booleans, numbers, objects and the other arrays print
    to strings that are no entry of the table. *)
Fixpoint tableKey (v : JsVal) : option jsstring :=
  match v with
  | JStr s => Some s
  | JArr [x] => tableKey x
  | _ => None
  end.

(** this.sensorTypes[code] || '未知類型'. The table is read by its own
    entries: the names an object inherits (constructor, toString and the
    like) are longer than any type code and are left out. *)
Definition typeOf (code : JsVal) : jsstring :=
  match tableKey code with
  | Some k =>
      match lookup k sensorTypes with
      | Some (c :: t) => c :: t
      | _ => unknownType
      end
  | None => unknownType
  end.

(** *** decodeUTF8 *)

Definition isHexDigit (c : Z) : bool :=
  between 48 c 57 || between 97 c 102 || between 65 c 70.

(** parseInt(h, 16) on one hex digit *)
Definition hexValue (c : Z) : Z :=
  if c <=? 57 then c - 48 else if c <=? 70 then c - 55 else c - 87.

(** The four units [c x h1 h2] spell an escape: backslash, x, two hex digits. *)
Definition isEscape (c x h1 h2 : Z) : bool :=
  (c =? 92) && (x =? 120) && isHexDigit h1 && isHexDigit h2.

(** /\\x[0-9a-fA-F]{2}/.test(s) *)
Fixpoint hasEscape (s : jsstring) : bool :=
  match s with
  | [] => false
  | c :: tl =>
      match tl with
      | x :: h1 :: h2 :: _ => isEscape c x h1 h2 || hasEscape tl
      | _ => false
      end
  end.

(** s.replace(/\\x([0-9a-fA-F]{2})/g, (m, hex) => String.fromCharCode(parseInt(hex, 16))):
    matches are taken left to right and do not overlap. *)
Fixpoint replaceEscapes (s : jsstring) : jsstring :=
  match s with
  | [] => []
  | c :: tl =>
      match tl with
      | x :: h1 :: h2 :: rest =>
          if isEscape c x h1 h2
          then (16 * hexValue h1 + hexValue h2) :: replaceEscapes rest
          else c :: replaceEscapes tl
      | _ => c :: replaceEscapes tl
      end
  end.

Definition decodeString (s : jsstring) : jsstring :=
  match s with
  | [] => []
  | _ =>
      if negb (hasEscape s) then s
      else utf8_to_string (latin1_bytes (replaceEscapes s))
  end.

(** Nothing in the body can throw, so the catch branch is never taken. *)
Definition decodeUTF8 (encodedString : JsVal) : jsstring :=
  match encodedString with
  | JStr s => decodeString s
  | _ => []
  end.

(** *** Numeric ranges *)

(** null stands for an absent or unreadable bound. *)
Definition parseNumber (value : JsVal) : option number :=
  match value with
  | JNull | JUndefined => None
  | _ =>
      if is_empty_string value then None
      else
        let parsed := parseFloat value in
        if isNaN parsed then None else Some parsed
  end.

Definition validateRange (min max : option number) : bool :=
  match min, max with
  | Some a, Some b => num_ltb a b
  | _, _ => false
  end.

(** *** Values of a sensor *)

Record ProcessedValue := mkValue {
  pv_id : JsVal;
  pv_name : jsstring;
  pv_max : option number;
  pv_min : option number;
  pv_code : JsVal;
  pv_calc : JsVal;
  pv_type : jsstring;
  range_valid : bool
}.

(** The body of the try block of processValueArray's callback. *)
Definition processValue (value : JsVal) : result ProcessedValue :=
  id <- get "_id" value ;;
  name <- get "name" value ;;
  max <- get "max" value ;;
  min <- get "min" value ;;
  code <- get "code" value ;;
  calc <- get "calc" value ;;
  let pmax := parseNumber max in
  let pmin := parseNumber min in
  Ok {| pv_id := id;
        pv_name := decodeUTF8 (or_else name (JStr []));
        pv_max := pmax;
        pv_min := pmin;
        pv_code := code;
        pv_calc := or_else calc JNull;
        pv_type := typeOf code;
        range_valid := validateRange pmin pmax |}.

(** An entry of a processed value array: the processed value, or the raw
    item handed back by the catch branch. *)
Inductive ValueEntry :=
| Processed (pv : ProcessedValue)
| Unprocessed (raw : JsVal).

Definition processEntry (value : JsVal) : ValueEntry :=
  match processValue value with
  | Ok pv => Processed pv
  | Throw _ => Unprocessed value
  end.

Definition processValueArray (valueArray : JsVal) : list ValueEntry :=
  match valueArray with
  | JArr items => map processEntry items
  | _ => []
  end.

Definition num_val (o : option number) : JsVal :=
  match o with Some n => JNum n | None => JNull end.

(** [entry.k] on an entry of a processed value array. *)
Definition entry_get (k : string) (e : ValueEntry) : result JsVal :=
  match e with
  | Unprocessed raw => get k raw
  | Processed pv =>
      Ok (if String.eqb k "_id" then pv_id pv
          else if String.eqb k "name" then JStr (pv_name pv)
          else if String.eqb k "max" then num_val (pv_max pv)
          else if String.eqb k "min" then num_val (pv_min pv)
          else if String.eqb k "code" then pv_code pv
          else if String.eqb k "calc" then pv_calc pv
          else if String.eqb k "type" then JStr (pv_type pv)
          else if String.eqb k "range_valid" then JBool (range_valid pv)
          else JUndefined)
  end.

(** *** Sensors *)

(** An instant, in milliseconds since the epoch; toISOString prints it. *)
Definition Time := Z.

Inductive SensorStatus := no_values | invalid_range | incomplete_info | active | error.

Record Sensor := mkSensor {
  SN : JsVal;
  DES : jsstring;
  ADDRESS : JsVal;
  name : jsstring;
  profile : JsVal;
  value : list ValueEntry;
  processed_at : Time;
  status : option SensorStatus
}.

Definition set_status (s : Sensor) (st : SensorStatus) : Sensor :=
  {| SN := SN s; DES := DES s; ADDRESS := ADDRESS s; name := name s;
     profile := profile s; value := value s; processed_at := processed_at s;
     status := Some st |}.

(** values.filter(v => v.range_valid), stopping at the first throw. *)
Fixpoint filterValid (vs : list ValueEntry) : result (list ValueEntry) :=
  match vs with
  | [] => Ok []
  | v :: vs' =>
      r <- entry_get "range_valid" v ;;
      rest <- filterValid vs' ;;
      Ok (if truthy r then v :: rest else rest)
  end.

Definition nonEmpty (s : jsstring) : bool :=
  match s with [] => false | _ => true end.

Definition determineSensorStatus (sensor : Sensor) : SensorStatus :=
  rcatch
    (match value sensor with
     | [] => Ok no_values
     | _ =>
         validValues <- filterValid (value sensor) ;;
         match validValues with
         | [] => Ok invalid_range
         | _ =>
             if negb (nonEmpty (name sensor)) || negb (nonEmpty (DES sensor))
             then Ok incomplete_info
             else Ok active
         end
     end)
    (fun _ => error).

(** [now] is the clock reading of new Date(). *)
Definition processSingleSensor (now : Time) (sensor : JsVal) : option Sensor :=
  rcatch
    (if negb (truthy sensor) || negb (typeof_object sensor) then Ok None
     else
       sn <- get "SN" sensor ;;
       address <- get "ADDRESS" sensor ;;
       if negb (truthy sn) || negb (truthy address) then Ok None
       else
         des <- get "DES" sensor ;;
         nm <- get "name" sensor ;;
         prof <- get "profile" sensor ;;
         val <- get "value" sensor ;;
         let decodedSensor :=
           {| SN := sn;
              DES := decodeUTF8 (or_else des (JStr []));
              ADDRESS := address;
              name := decodeUTF8 (or_else nm (JStr []));
              profile := or_else prof (JStr []);
              value := processValueArray (or_else val (JArr []));
              processed_at := now;
              status := None |} in
         Ok (Some (set_status decodedSensor (determineSensorStatus decodedSensor))))
    (fun _ => None).

Fixpoint dropNulls {A} (l : list (option A)) : list A :=
  match l with
  | [] => []
  | Some a :: l' => a :: dropNulls l'
  | None :: l' => dropNulls l'
  end.

Definition processSensorData (now : Time) (sensorDataArray : JsVal) : list Sensor :=
  match sensorDataArray with
  | JArr items => dropNulls (map (processSingleSensor now) items)
  | _ => []
  end.

(** *** The publish shape *)

Record DeviceInfo := mkDeviceInfo {
  serial_number : JsVal;
  description : jsstring;
  address : JsVal;
  di_name : jsstring;
  di_status : option SensorStatus
}.

Record Range := mkRange { r_min : JsVal; r_max : JsVal; r_valid : JsVal }.

Record SensorValue := mkSensorValue {
  sv_id : JsVal;
  sv_name : JsVal;
  sv_type : JsVal;
  sv_code : JsVal;
  sv_range : Range;
  calculation : JsVal
}.

Record Metadata := mkMetadata { md_processed_at : Time; total_sensors : Z }.

Record Formatted := mkFormatted {
  device_info : DeviceInfo;
  sensor_values : list SensorValue;
  f_profile : JsVal;
  metadata : Metadata
}.

Definition formatValue (v : ValueEntry) : result SensorValue :=
  id <- entry_get "_id" v ;;
  nm <- entry_get "name" v ;;
  ty <- entry_get "type" v ;;
  code <- entry_get "code" v ;;
  mn <- entry_get "min" v ;;
  mx <- entry_get "max" v ;;
  valid <- entry_get "range_valid" v ;;
  calc <- entry_get "calc" v ;;
  Ok {| sv_id := id; sv_name := nm; sv_type := ty; sv_code := code;
        sv_range := {| r_min := mn; r_max := mx; r_valid := valid |};
        calculation := calc |}.

Fixpoint mapM {A B} (f : A -> result B) (l : list A) : result (list B) :=
  match l with
  | [] => Ok []
  | a :: l' => b <- f a ;; bs <- mapM f l' ;; Ok (b :: bs)
  end.

(** What is handed to the publisher: the formatted sensor, or the sensor
    itself when formatting threw. *)
Inductive MqttData :=
| FormattedData (f : Formatted)
| SensorData (s : Sensor).

Definition formatForMqtt (sensor : Sensor) : MqttData :=
  match mapM formatValue (value sensor) with
  | Ok vals =>
      FormattedData
        {| device_info :=
             {| serial_number := SN sensor;
                description := DES sensor;
                address := ADDRESS sensor;
                di_name := name sensor;
                di_status := status sensor |};
           sensor_values := vals;
           f_profile := profile sensor;
           metadata :=
             {| md_processed_at := processed_at sensor;
                total_sensors := Z.of_nat (List.length (value sensor)) |} |}
  | Throw _ => SensorData sensor
  end.

Definition processAndFormat (now : Time) (sensorDataArray : JsVal) : list MqttData :=
  map formatForMqtt (processSensorData now sensorDataArray).

End SensorProcessor.

(** ** utils/unit.js *)

Module Unit.
Import Js.
Local Open Scope string_scope.
Local Open Scope list_scope.

Record UnitInfo := mkUnit {
  name : jsstring;
  unit_ : jsstring;
  code : jsstring;
  img : jsstring
}.

(** The catalogue of sensor types, in source order. *)
Definition unit : list UnitInfo :=
  [
    mkUnit (js "濕度") (js "%") (js "B") (js "humidity.png");
    mkUnit (js "二氧化碳") (js "ppm") (js "C") (js "co2.png");
    mkUnit (js "氨氣濃度") (js "ppm") (js "D") (js "gas.png");
    mkUnit (js "PM 1.0") (js "µg/m³") (js "E") (js "gas.png");
    mkUnit (js "PM 2.5") (js "µg/m³") (js "F") (js "gas.png");
    mkUnit (js "PM10") (js "µg/m³") (js "G") (js "gas.png");
    mkUnit (js "溫度") (js "℃") (js "A") (js "temperature.png");
    mkUnit (js "硫化氫濃度") (js "ppm") (js "H") (js "gas.png");
    mkUnit (js "照度") (js "lux") (js "I") (js "gas.png");
    mkUnit (js "氧氣濃度") (js "%") (js "J") (js "gas.png");
    mkUnit (js "飼料供給量") (js "kg") (js "K") (js "gas.png");
    mkUnit (js "飲用水量") (js "L") (js "L") (js "gas.png");
    mkUnit (js "液位") (js "cm") (js "M") (js "gas.png");
    mkUnit (js "水位狀態") (js "state") (js "N") (js "gas.png");
    mkUnit (js "即時重量") (js "g") (js "O") (js "gas.png");
    mkUnit (js "瞬間功率") (js "KW") (js "P") (js "gas.png");
    mkUnit (js "重量") (js "g") (js "Q") (js "gas.png");
    mkUnit (js "風速") (js "m/s") (js "R") (js "gas.png");
    mkUnit (js "負壓") (js "pa") (js "S") (js "gas.png");
    mkUnit (js "虛擬") (js "虛擬") (js "9") (js "gas.png");
    mkUnit (js "開關量") (js "開關量") (js "T") (js "gas.png");
    mkUnit (js "電流") (js "A") (js "X") (js "gas.png");
    mkUnit (js "電壓") (js "V") (js "W") (js "gas.png");
    mkUnit (js "度") (js "KWh") (js "Z") (js "gas.png");
    mkUnit (js "即時功率") (js "W") (js "Y") (js "gas.png");
    mkUnit (js "功率因數") (js "PF") (js "U") (js "gas.png");
    mkUnit (js "風向") (js "°") (js "V") (js "gas.png");
    mkUnit (js "紫外線強度") (js "mW/cm²") (js "a") (js "gas.png");
    mkUnit (js "光量子") (js "umol/m²s") (js "b") (js "gas.png");
    mkUnit (js "雨滴感知") (js " ") (js "c") (js "gas.png");
    mkUnit (js "電導度") (js "us/cm") (js "d") (js "gas.png");
    mkUnit (js "PH") (js "PH") (js "e") (js "gas.png");
    mkUnit (js "水活性") (js "aw") (js "f") (js "gas.png");
    mkUnit (js "異常值") (js "") (js "g") (js "gas.png")
  ].

(** [u.code === c]: strict equality holds for a string with the same units. *)
Definition code_is (c : JsVal) (u : UnitInfo) : bool :=
  match c with
  | JStr s => jsstring_eqb (code u) s
  | _ => false
  end.

(** unit.find(u => u.code === code) || null *)
Definition getUnitByCode (c : JsVal) : option UnitInfo := find (code_is c) unit.

Definition getAllUnits : list UnitInfo := unit.

End Unit.

(** ** Effects: a state and exception monad *)

Module Eff.
Import Js.

Definition M (S A : Type) : Type := S -> result A * S.

Definition ret {S A} (a : A) : M S A := fun s => (Ok a, s).

Definition bind {S A B} (m : M S A) (k : A -> M S B) : M S B :=
  fun s => match m s with
           | (Ok a, s') => k a s'
           | (Throw e, s') => (Throw e, s')
           end.

Definition throw {S A} (e : JsError) : M S A := fun s => (Throw e, s).

(** try { m } catch (e) { h e } *)
Definition try_catch {S A} (m : M S A) (h : JsError -> M S A) : M S A :=
  fun s => match m s with
           | (Ok a, s') => (Ok a, s')
           | (Throw e, s') => h e s'
           end.

Definition gets {S A} (f : S -> A) : M S A := fun s => (Ok (f s), s).

Definition modify {S} (f : S -> S) : M S unit := fun s => (Ok tt, f s).

Definition of_result {S A} (r : result A) : M S A := fun s => (r, s).

(** Run a computation on a part of the state. *)
Definition lift {S T A} (proj : T -> S) (upd : S -> T -> T) (m : M S A) : M T A :=
  fun t => let (r, s) := m (proj t) in (r, upd s t).

Fixpoint mapM {S A B} (f : A -> M S B) (l : list A) : M S (list B) :=
  match l with
  | [] => ret []
  | a :: l' => bind (f a) (fun b => bind (mapM f l') (fun bs => ret (b :: bs)))
  end.

End Eff.

Declare Scope eff_scope.
Delimit Scope eff_scope with eff.
Notation "x <- c ;; k" := (Eff.bind c (fun x => k))
  (at level 61, c at next level, right associativity) : eff_scope.
Notation "c ;; k" := (Eff.bind c (fun _ => k))
  (at level 61, right associativity) : eff_scope.

(** ** What the service does to the outside: log lines and bus traffic *)

Module Bus.
Import Js.

Inductive Level := debug | info | warn | error.

(** The name a reading is published under. *)
Inductive DeviceName :=
| Named (v : JsVal)            (* a serial number, or the caller's device name *)
| DeviceAt (address : JsVal)   (* `device_${ADDRESS}` *)
| unknown_device.

(** Topics are template literals over the configured prefix. *)
Inductive Topic :=
| seninf (prefix : jsstring) (deviceName : DeviceName)  (* `${prefix}/${deviceName}/seninf` *)
| service_status (prefix : jsstring).                    (* `${prefix}/service/status` *)

(** One sensor inside a device list. *)
Record SensorGroup := mkGroup {
  g_device_info : option SensorProcessor.DeviceInfo;
  g_sensor_values : option (list SensorProcessor.SensorValue);
  g_profile : JsVal;
  g_metadata : option SensorProcessor.Metadata
}.

Record DeviceHeader := mkHeader {
  device_name : jsstring;
  total_sensors : Z;
  h_status : SensorProcessor.SensorStatus
}.

(** The object given to JSON.stringify. *)
Inductive Payload :=
| SensorPayload (data : SensorProcessor.MqttData)
                (timestamp : SensorProcessor.Time) (published_by : jsstring)
| DeviceListPayload (device_info : DeviceHeader) (sensors : list SensorGroup)
                    (timestamp : SensorProcessor.Time) (published_by : jsstring)
| StatusPayload (clientId : jsstring) (status : jsstring)
                (timestamp : SensorProcessor.Time).

(** A call of client.publish(topic, payload, { qos, retain }, callback). *)
Record PublishCall := mkCall {
  topic : Topic;
  payload : Payload;
  qos : Z;
  retain : bool
}.

Inductive Event :=
| Logged (level : Level) (text : string)
| Published (call : PublishCall).

(** The effects of a run, oldest first. *)
Definition Trace := list Event.

Definition publishCalls (t : Trace) : list PublishCall :=
  flat_map (fun ev => match ev with Published c => [c] | Logged _ _ => [] end) t.

Definition emit (ev : Event) : Eff.M Trace unit := Eff.modify (fun t => t ++ [ev]).

(** logger.debug / info / warn / error: the text is the source's message,
    its interpolated parts left as written. *)
Definition log (l : Level) (text : string) : Eff.M Trace unit := emit (Logged l text).

End Bus.

(** ** services/redisService.js *)

Module RedisService.
Import Js.
Local Open Scope string_scope.
Local Open Scope list_scope.
Local Open Scope Z_scope.
Local Open Scope eff_scope.

(** *** The retry policy handed to the client *)

Record RetryOptions := mkOptions {
  error : option JsError;
  total_retry_time : Z;
  attempt : Z
}.

(** What retry_strategy returns: an Error, undefined, or a delay in ms. *)
Inductive RetryDecision :=
| ReturnError (e : JsError)
| ReturnUndefined
| ReturnDelay (ms : Z).

Definition refused (options : RetryOptions) : bool :=
  match error options with
  | Some e =>
      match err_code e with
      | Some c => String.eqb c "ECONNREFUSED"
      | None => false
      end
  | None => false
  end.

Definition retry_strategy (options : RetryOptions) : RetryDecision :=
  if refused options then ReturnError (Error "Redis服務器拒絕連接")
  else if total_retry_time options >? 1000 * 60 * 60
  then ReturnError (Error "Redis重試時間超過1小時")
  else if attempt options >? 10 then ReturnUndefined
  else ReturnDelay (Z.min (attempt options * 100) 3000).

(** *** The connection *)

(** The client's own readiness flag. *)
Record Client := mkClient { client_isReady : bool }.

Record t := mkRedis { isConnected : bool; client : option Client }.

(** this.isConnected && this.client && this.client.isReady, as a condition *)
Definition isReady (r : t) : bool :=
  isConnected r && match client r with Some c => client_isReady c | None => false end.

(** The answer of the store to one read: client.get settles with the text
    under the key or null, or rejects; JSON.parse yields a value or throws. *)
Record Store := mkStore {
  get_reply : result (option jsstring);
  JSON_parse : jsstring -> result JsVal
}.

(** [v.length], as read inside the debug message. *)
Definition read_length (v : JsVal) : result unit :=
  match v with
  | JUndefined | JNull => Throw (TypeError "Cannot read properties of null (reading 'length')")
  | _ => Ok tt
  end.

Definition getSensorData (r : t) (store : Store) : Eff.M Bus.Trace JsVal :=
  Eff.try_catch
    (if negb (isConnected r) || match client r with None => true | Some _ => false end
     then Eff.throw (Error "Redis未連接")
     else
       data <- Eff.of_result (get_reply store) ;;
       match data with
       | None | Some [] =>
           Bus.log Bus.warn "Redis中未找到鍵: ${key}" ;;
           Eff.ret (JArr [])
       | Some text =>
           sensorData <- Eff.of_result (JSON_parse store text) ;;
           Eff.of_result (read_length sensorData) ;;
           Bus.log Bus.debug "成功讀取感測器資料，共${sensorData.length}個設備" ;;
           Eff.ret sensorData
       end)
    (fun e => Bus.log Bus.error "讀取感測器資料失敗:" ;; Eff.throw e).

End RedisService.

(** ** services/mqttService.js (the publisher with the reconnect watchdog) *)

Module MqttService.
Import Js Bus.
Local Open Scope string_scope.
Local Open Scope list_scope.
Local Open Scope Z_scope.
Local Open Scope eff_scope.

Record Config := mkConfig {
  DEVICE_TOPIC_PREFIX : jsstring;
  MQTT_CLIENT_ID : jsstring
}.

(** The client's own connected flag. *)
Record Client := mkClient { connected : bool }.

(** A handle returned by setInterval. *)
Inductive Timer := Interval (period : Z).

Record t := mkMqtt {
  config : Config;
  client : option Client;
  isConnected : bool;
  reconnectAttempts : Z;
  reconnectTimer : option Timer;
  reconnectInterval : Z;
  manualReconnectEnabled : bool
}.

(** The bus as the publisher meets it: the clock, and the error (or none)
    the client hands to the callback of the n-th publish call of the run. *)
Record Broker := mkBroker {
  now : SensorProcessor.Time;
  answer : nat -> PublishCall -> option JsError
}.

(** client.publish(...): the call goes out and the callback's argument
    comes back. *)
Definition publish (b : Broker) (call : PublishCall) : Eff.M Trace (option JsError) :=
  n <- Eff.gets (fun t => List.length (publishCalls t)) ;;
  emit (Published call) ;;
  Eff.ret (answer b n call).

Definition has_client (m : t) : bool :=
  match client m with Some _ => true | None => false end.

(** this.isConnected && this.client && this.client.connected, as a condition *)
Definition isReady (m : t) : bool :=
  isConnected m && match client m with Some c => connected c | None => false end.

Definition publishStatus (m : t) (b : Broker) (status : jsstring) : Eff.M Trace unit :=
  if negb (has_client m) then Eff.ret tt
  else
    let call :=
      {| topic := service_status (DEVICE_TOPIC_PREFIX (config m));
         payload := StatusPayload (MQTT_CLIENT_ID (config m)) status (now b);
         qos := 1;
         retain := true |} in
    err <- publish b call ;;
    match err with
    | Some _ => log error "發布狀態失敗:"
    | None => log debug "狀態已更新: ${status}"
    end.

(** *** The watchdog *)

Definition startManualReconnect (m : t) : Eff.M Trace t :=
  if manualReconnectEnabled m || match reconnectTimer m with Some _ => true | None => false end
  then Eff.ret m
  else
    log info "啟動手動重新連接機制，每20秒嘗試一次" ;;
    Eff.ret {| config := config m; client := client m; isConnected := isConnected m;
               reconnectAttempts := reconnectAttempts m;
               reconnectTimer := Some (Interval (reconnectInterval m));
               reconnectInterval := reconnectInterval m;
               manualReconnectEnabled := true |}.

Definition stopManualReconnect (m : t) : Eff.M Trace t :=
  log info "手動重新連接機制已停止" ;;
  Eff.ret {| config := config m; client := client m; isConnected := isConnected m;
             reconnectAttempts := reconnectAttempts m;
             reconnectTimer := None;
             reconnectInterval := reconnectInterval m;
             manualReconnectEnabled := false |}.

Definition set_isConnected (v : bool) (m : t) : t :=
  {| config := config m; client := client m; isConnected := v;
     reconnectAttempts := reconnectAttempts m; reconnectTimer := reconnectTimer m;
     reconnectInterval := reconnectInterval m;
     manualReconnectEnabled := manualReconnectEnabled m |}.

Definition set_reconnectAttempts (n : Z) (m : t) : t :=
  {| config := config m; client := client m; isConnected := isConnected m;
     reconnectAttempts := n; reconnectTimer := reconnectTimer m;
     reconnectInterval := reconnectInterval m;
     manualReconnectEnabled := manualReconnectEnabled m |}.

Definition set_client (c : option Client) (m : t) : t :=
  {| config := config m; client := c; isConnected := isConnected m;
     reconnectAttempts := reconnectAttempts m; reconnectTimer := reconnectTimer m;
     reconnectInterval := reconnectInterval m;
     manualReconnectEnabled := manualReconnectEnabled m |}.

(** *** The client's events *)

Inductive EventKind := on_connect | on_error | on_offline | on_reconnect | on_close.

(** An event, with the client's connected flag as it stands when the
    handler runs. *)
Record ClientEvent := mkEvent { kind : EventKind; connected_now : bool }.

(** The handlers installed by connect(). *)
Definition handle (b : Broker) (ev : ClientEvent) (m0 : t) : Eff.M Trace t :=
  let m := match client m0 with
           | Some _ => set_client (Some (mkClient (connected_now ev))) m0
           | None => m0
           end in
  match kind ev with
  | on_connect =>
      log info "MQTT已連接到 ${this.config.MQTT_BROKER_URL}" ;;
      m' <- stopManualReconnect (set_reconnectAttempts 0 (set_isConnected true m)) ;;
      publishStatus m' b (js "online") ;;
      Eff.ret m'
  | on_error =>
      log error "MQTT連接錯誤:" ;;
      startManualReconnect (set_isConnected false m)
  | on_offline =>
      log warn "MQTT離線" ;;
      startManualReconnect (set_isConnected false m)
  | on_reconnect =>
      log info "MQTT重新連接中... (嘗試 ${this.reconnectAttempts})" ;;
      Eff.ret (set_reconnectAttempts (reconnectAttempts m + 1) m)
  | on_close =>
      log info "MQTT連接已關閉" ;;
      startManualReconnect (set_isConnected false m)
  end.

Fixpoint handleAll (b : Broker) (evs : list ClientEvent) (m : t) : Eff.M Trace t :=
  match evs with
  | [] => Eff.ret m
  | ev :: evs' => m' <- handle b ev m ;; handleAll b evs' m'
  end.

(** *** Publishing *)

Definition not_connected (m : t) : bool := negb (isConnected m) || negb (has_client m).

(** The try block ends when the promise is made: it catches the connection
    check, while the callback's error rejects the promise past it. *)
Definition publishSensorData (m : t) (b : Broker)
    (deviceName : DeviceName) (sensorData : SensorProcessor.MqttData) : Eff.M Trace unit :=
  err <- Eff.try_catch
           (if not_connected m then Eff.throw (Error "MQTT未連接")
            else
              publish b
                {| topic := seninf (DEVICE_TOPIC_PREFIX (config m)) deviceName;
                   payload := SensorPayload sensorData (now b) (MQTT_CLIENT_ID (config m));
                   qos := 1;
                   retain := false |})
           (fun e => log error "發布感測器資料時發生錯誤:" ;; Eff.throw e) ;;
  match err with
  | Some e => log error "發布感測器資料失敗 [${topic}]:" ;; Eff.throw e
  | None => log debug "成功發布感測器資料到 ${topic}"
  end.

(** The value a settled publish promise carries in the batch. *)
Record Failure := mkFailure { f_deviceName : DeviceName; f_error : jsstring }.

(** An entry of Promise.allSettled. *)
Inductive Settled :=
| fulfilled (value : option Failure)
| rejected (reason : JsError).

(** result.status === 'rejected' || result.value?.error *)
Definition is_failed (r : Settled) : bool :=
  match r with
  | rejected _ => true
  | fulfilled (Some f) => SensorProcessor.nonEmpty (f_error f)
  | fulfilled None => false
  end.

(** The name a reading goes out under: the formatted serial number, else
    the raw SN, else the address, else a fixed name. *)
Definition deviceNameOf (sensorData : SensorProcessor.MqttData) : Eff.M Trace DeviceName :=
  match sensorData with
  | SensorProcessor.FormattedData f =>
      let d := SensorProcessor.device_info f in
      if truthy (SensorProcessor.serial_number d)
      then Eff.ret (Named (SensorProcessor.serial_number d))
      else
        log warn "無法確定設備名稱，使用預設值:" ;;
        Eff.ret unknown_device
  | SensorProcessor.SensorData s =>
      if truthy (SensorProcessor.SN s) then Eff.ret (Named (SensorProcessor.SN s))
      else if truthy (SensorProcessor.ADDRESS s)
      then Eff.ret (DeviceAt (SensorProcessor.ADDRESS s))
      else
        log warn "無法確定設備名稱，使用預設值:" ;;
        Eff.ret unknown_device
  end.

(** One turn of the loop together with the settling of its promise. *)
Definition publishOne (m : t) (b : Broker)
    (sensorData : SensorProcessor.MqttData) : Eff.M Trace Settled :=
  deviceName <- deviceNameOf sensorData ;;
  Eff.try_catch
    (publishSensorData m b deviceName sensorData ;; Eff.ret (fulfilled None))
    (fun e =>
       log error "發布設備 ${deviceName} 資料失敗:" ;;
       Eff.ret (fulfilled (Some (mkFailure deviceName (err_message e))))).

(** publishBatchSensorData: one publish per item of the array. The calls
    go out in array order; callbacks are taken as they are issued. *)
Definition publishBatchSensorData (m : t) (b : Broker)
    (sensorDataArray : list SensorProcessor.MqttData) : Eff.M Trace (list Settled) :=
  results <- Eff.mapM (publishOne m b) sensorDataArray ;;
  (if 0 <? Z.of_nat (List.length (filter is_failed results))
   then log warn "批量發布完成，${failed.length}個設備發布失敗"
   else log info "成功批量發布 ${sensorDataArray.length} 個設備的感測器資料") ;;
  Eff.ret results.

Definition groupOf (sensorData : SensorProcessor.MqttData) : SensorGroup :=
  match sensorData with
  | SensorProcessor.FormattedData f =>
      {| g_device_info := Some (SensorProcessor.device_info f);
         g_sensor_values := Some (SensorProcessor.sensor_values f);
         g_profile := SensorProcessor.f_profile f;
         g_metadata := Some (SensorProcessor.metadata f) |}
  | SensorProcessor.SensorData s =>
      {| g_device_info := None;
         g_sensor_values := None;
         g_profile := SensorProcessor.profile s;
         g_metadata := None |}
  end.

(** What the merged publish resolves with. *)
Record DeviceAck := mkAck { ack_deviceName : jsstring }.

(** publishBatchSensorDataWithDeviceName: all items merged into one device
    list and published once. The console print of the payload is left out. *)
Definition publishBatchSensorDataWithDeviceName (m : t) (b : Broker)
    (sensorDataArray : list SensorProcessor.MqttData) (deviceName : jsstring)
    : Eff.M Trace (list DeviceAck) :=
  err <- Eff.try_catch
           (if not_connected m then Eff.throw (Error "MQTT未連接")
            else
              publish b
                {| topic := seninf (DEVICE_TOPIC_PREFIX (config m)) (Named (JStr deviceName));
                   payload :=
                     DeviceListPayload
                       {| device_name := deviceName;
                          total_sensors := Z.of_nat (List.length sensorDataArray);
                          h_status := SensorProcessor.active |}
                       (map groupOf sensorDataArray)
                       (now b) (MQTT_CLIENT_ID (config m));
                   qos := 1;
                   retain := false |})
           (fun e => log error "批量發布感測器資料失敗:" ;; Eff.throw e) ;;
  match err with
  | Some e => log error "發布設備感測器列表失敗 [${topic}]:" ;; Eff.throw e
  | None =>
      log info "成功發布設備 ${deviceName} 的完整感測器列表，共 ${sensorDataArray.length} 個感測器" ;;
      Eff.ret [mkAck deviceName]
  end.

End MqttService.

(** ** index.js: the orchestrator's poll cycle *)

Module MqttPushService.
Import Js Bus.
Local Open Scope string_scope.
Local Open Scope list_scope.
Local Open Scope Z_scope.
Local Open Scope eff_scope.

Record Config := mkConfig {
  SENSOR_DATA_KEY : jsstring;
  POLL_INTERVAL : Z
}.

Record Stats := mkStats {
  startTime : SensorProcessor.Time;
  totalPublished : Z;
  lastPublishTime : option SensorProcessor.Time;
  errors : Z
}.

Record t := mkService {
  config : Config;
  redisService : option RedisService.t;
  mqttService : option MqttService.t;
  isRunning : bool;
  pollTimer : option MqttService.Timer;
  stats : Stats
}.

(** The service object together with what it has done to the outside. *)
Record World := mkWorld { this : t; trace : Trace }.

Definition M := Eff.M World.

Definition outside {A} (m : Eff.M Trace A) : M A :=
  Eff.lift trace (fun tr w => {| this := this w; trace := tr |}) m.

Definition set_this (f : t -> t) : M unit :=
  Eff.modify (fun w => {| this := f (this w); trace := trace w |}).

Definition with_stats (f : Stats -> Stats) (s : t) : t :=
  {| config := config s; redisService := redisService s;
     mqttService := mqttService s; isRunning := isRunning s;
     pollTimer := pollTimer s; stats := f (stats s) |}.

Definition with_mqtt (m : MqttService.t) (s : t) : t :=
  {| config := config s; redisService := redisService s;
     mqttService := Some m; isRunning := isRunning s;
     pollTimer := pollTimer s; stats := stats s |}.

Definition with_pollTimer (p : option MqttService.Timer) (s : t) : t :=
  {| config := config s; redisService := redisService s;
     mqttService := mqttService s; isRunning := isRunning s;
     pollTimer := p; stats := stats s |}.

(** this.stats.errors += n *)
Definition add_errors (n : Z) (st : Stats) : Stats :=
  {| startTime := startTime st; totalPublished := totalPublished st;
     lastPublishTime := lastPublishTime st; errors := errors st + n |}.

(** What one cycle meets outside the process: the store's answer to the
    read, the bus client's events while the read is awaited, and the bus. *)
Record Cycle := mkCycle {
  store : RedisService.Store;
  busEvents : list MqttService.ClientEvent;
  broker : MqttService.Broker
}.

(** this.redisService: calling a method on null throws. *)
Definition the_redis : M RedisService.t :=
  r <- Eff.gets (fun w => redisService (this w)) ;;
  match r with
  | Some r => Eff.ret r
  | None => Eff.throw (TypeError "Cannot read properties of null (reading 'isReady')")
  end.

Definition the_mqtt : M MqttService.t :=
  m <- Eff.gets (fun w => mqttService (this w)) ;;
  match m with
  | Some m => Eff.ret m
  | None => Eff.throw (TypeError "Cannot read properties of null (reading 'isReady')")
  end.

(** [!rawSensorData || rawSensorData.length === 0] *)
Definition nothing_read (raw : JsVal) : bool :=
  negb (truthy raw) ||
  match raw with
  | JArr [] => true
  | JObj fs =>
      match assoc "length" fs with
      | Some (JNum n) => num_is_zero n
      | _ => false
      end
  | _ => false
  end.

Definition updateStats (now : SensorProcessor.Time) (publishedCount : Z)
    (results : list MqttService.Settled) : M unit :=
  set_this (with_stats (fun st =>
    {| startTime := startTime st;
       totalPublished := totalPublished st + publishedCount;
       lastPublishTime := Some now;
       errors := errors st |})) ;;
  let failedCount := Z.of_nat (List.length (filter MqttService.is_failed results)) in
  if 0 <? failedCount then set_this (with_stats (add_errors failedCount))
  else Eff.ret tt.

(** The bus client's handlers run while the cycle waits for the store. The
    read suspends at client.get, before any effect of its own, so in the
    cycle the handlers come first. *)
Definition whileWaiting (c : Cycle) : M unit :=
  m <- Eff.gets (fun w => mqttService (this w)) ;;
  match m with
  | Some m =>
      m' <- outside (MqttService.handleAll (broker c) (busEvents c) m) ;;
      set_this (with_mqtt m')
  | None => Eff.ret tt
  end.

Definition processSensorData (c : Cycle) : M unit :=
  Eff.try_catch
    (running <- Eff.gets (fun w => isRunning (this w)) ;;
     if negb running then Eff.ret tt
     else
       redis <- the_redis ;;
       if negb (RedisService.isReady redis)
       then outside (log warn "Redis未就緒，跳過此次處理")
       else
         mqtt <- the_mqtt ;;
         if negb (MqttService.isReady mqtt)
         then outside (log warn "MQTT未就緒，跳過此次處理")
         else
           whileWaiting c ;;
           rawSensorData <- outside (RedisService.getSensorData redis (store c)) ;;
           if nothing_read rawSensorData
           then outside (log debug "未找到感測器資料")
           else
             let processedData :=
               SensorProcessor.processAndFormat (MqttService.now (broker c)) rawSensorData in
             match processedData with
             | [] => outside (log warn "處理後無有效感測器資料")
             | _ =>
                 mqtt' <- the_mqtt ;;
                 results <- outside (MqttService.publishBatchSensorData
                                       mqtt' (broker c) processedData) ;;
                 updateStats (MqttService.now (broker c))
                             (Z.of_nat (List.length processedData)) results ;;
                 outside (log info "成功處理並發布 ${processedData.length} 個感測器資料")
             end)
    (fun e =>
       outside (log error "處理感測器資料時發生錯誤:") ;;
       set_this (with_stats (add_errors 1)) ;;
       Eff.throw e).

(** The callback startPolling hands to setInterval. *)
Definition pollTick (c : Cycle) : M unit :=
  Eff.try_catch
    (processSensorData c)
    (fun e =>
       outside (log error "定期輪詢時發生錯誤:") ;;
       set_this (with_stats (add_errors 1))).

Definition startPolling : M unit :=
  interval <- Eff.gets (fun w => POLL_INTERVAL (config (this w))) ;;
  outside (log info "開始定期輪詢，間隔: ${interval}ms") ;;
  set_this (with_pollTimer (Some (MqttService.Interval interval))).

(** The timer firing once per cycle of the list. An error escaping a tick
    would be an unhandled rejection, which ends the process: the ticks
    after it do not run. *)
Fixpoint runTimer (cycles : list Cycle) : M unit :=
  match cycles with
  | [] => Eff.ret tt
  | c :: cs => pollTick c ;; runTimer cs
  end.

End MqttPushService.

(** ** Vocabulary of the properties *)

Module Spec.
Import Js SensorProcessor.
Local Open Scope string_scope.
Local Open Scope list_scope.
Local Open Scope Z_scope.

(** [a < b] on numbers, as a proposition. *)
Definition num_lt (a b : number) : Prop :=
  match a, b with
  | Fin x, Fin y => (x < y)%Q
  | NegInf, Fin _ | NegInf, PosInf | Fin _, PosInf => True
  | _, _ => False
  end.

(** A raw item that was handed back by the value normaliser and that
    cannot be read from: null or undefined. *)
Definition unreadable (e : ValueEntry) : bool :=
  match e with
  | Unprocessed JNull | Unprocessed JUndefined => true
  | _ => false
  end.

(** The entry has a true range_valid flag. *)
Definition entry_valid (e : ValueEntry) : bool :=
  match entry_get "range_valid" e with
  | Ok r => truthy r
  | Throw _ => false
  end.

(** The status by its ordered conditions. *)
Definition statusByPriority (s : Sensor) : SensorStatus :=
  match value s with
  | [] => no_values
  | _ =>
      if existsb unreadable (value s) then error
      else if negb (existsb entry_valid (value s)) then invalid_range
      else if negb (nonEmpty (name s)) || negb (nonEmpty (DES s)) then incomplete_info
      else active
  end.

(** [obj.k] on a property table. *)
Definition field (k : string) (fs : list (string * JsVal)) : JsVal :=
  match assoc k fs with Some x => x | None => JUndefined end.

(** The sensor before its status is set. *)
Definition decoded (now : Time) (fs : list (string * JsVal)) : Sensor :=
  {| SN := field "SN" fs;
     DES := decodeUTF8 (or_else (field "DES" fs) (JStr []));
     ADDRESS := field "ADDRESS" fs;
     name := decodeUTF8 (or_else (field "name" fs) (JStr []));
     profile := or_else (field "profile" fs) (JStr []);
     value := processValueArray (or_else (field "value" fs) (JArr []));
     processed_at := now;
     status := None |}.

(** A well-formed raw value spec with the given type code and bounds. *)
Definition rawValue (code : string) (mn mx : JsVal) : JsVal :=
  JObj [("_id", JStr (js "603db20ab7d71486ab441e20"));
        ("name", JStr (js "t"));
        ("max", mx); ("min", mn);
        ("code", JStr (js code))].

(** A well-formed raw reading. *)
Definition rawReading (sn : string) (addr : Z) (values : list JsVal) : JsVal :=
  JObj [("SN", JStr (js sn));
        ("DES", JStr (js "\xe5\xbe\x8c\xe6\xba\xab\xe5\xba\xa6"));
        ("ADDRESS", JNum (of_Z addr));
        ("name", JStr (js "sensor"));
        ("profile", JStr (js ""));
        ("value", JArr values)].

End Spec.

(** ** Relations between the world before and after a computation *)

Module Frame.
Import Js Bus MqttPushService.
Local Open Scope Z_scope.

Definition rel := World -> World -> Prop.

(** Whatever the outcome, the worlds before and after are related. *)
Definition keeps {A} (R : rel) (m : M A) : Prop :=
  forall w, R w (snd (m w)).

(** When the computation throws, the worlds before and after are related. *)
Definition on_throw {A} (R : rel) (m : M A) : Prop :=
  forall w e w', m w = (Throw e, w') -> R w w'.

Definition no_throw {A} (m : M A) : Prop :=
  forall w, exists a w', m w = (Ok a, w').

(** A relation on the service object alone. *)
Definition on_this (Q : t -> t -> Prop) : rel :=
  fun w w' => Q (this w) (this w').

Definition stats_kept (s s' : t) : Prop := stats s' = stats s.

(** The poll timer stays as it was, and so does the running flag. *)
Definition schedule_kept (s s' : t) : Prop :=
  pollTimer s' = pollTimer s /\ isRunning s' = isRunning s.

Definition errors_not_less (s s' : t) : Prop :=
  errors (stats s) <= errors (stats s').

Definition same_stats : rel := on_this stats_kept.
Definition same_schedule : rel := on_this schedule_kept.
Definition errors_grow : rel := on_this errors_not_less.

(** The name publishBatchSensorData resolves for a reading. *)
Definition nameOf (d : SensorProcessor.MqttData) : DeviceName :=
  match d with
  | SensorProcessor.FormattedData f =>
      let sn := SensorProcessor.serial_number (SensorProcessor.device_info f) in
      if truthy sn then Named sn else unknown_device
  | SensorProcessor.SensorData s =>
      if truthy (SensorProcessor.SN s) then Named (SensorProcessor.SN s)
      else if truthy (SensorProcessor.ADDRESS s) then DeviceAt (SensorProcessor.ADDRESS s)
      else unknown_device
  end.

(** The publish call that carries one reading. *)
Definition sensorCall (m : MqttService.t) (b : MqttService.Broker)
    (d : SensorProcessor.MqttData) : PublishCall :=
  {| topic := seninf (MqttService.DEVICE_TOPIC_PREFIX (MqttService.config m)) (nameOf d);
     payload := SensorPayload d (MqttService.now b)
                  (MqttService.MQTT_CLIENT_ID (MqttService.config m));
     qos := 1;
     retain := false |}.

(** How one publish of a batch can settle: with the connection check's
    error, with the error the bus gave to some call, or with nothing. *)
Definition settles (m : MqttService.t) (b : MqttService.Broker)
    (r : MqttService.Settled) : Prop :=
  (MqttService.not_connected m = true /\
   exists n, r = MqttService.fulfilled
                   (Some (MqttService.mkFailure n (err_message (Error "MQTT未連接")))))
  \/ (MqttService.not_connected m = false /\
      exists k call,
        match MqttService.answer b k call with
        | Some e => exists n, r = MqttService.fulfilled
                                    (Some (MqttService.mkFailure n (err_message e)))
        | None => r = MqttService.fulfilled None
        end).

(** The payload of a sensor message carries one reading. *)
Definition carried (call : PublishCall) : option SensorProcessor.MqttData :=
  match payload call with
  | SensorPayload d _ _ => Some d
  | _ => None
  end.

(** The sensor groups of a device list message. *)
Definition groups (call : PublishCall) : option (list SensorGroup) :=
  match payload call with
  | DeviceListPayload _ gs _ _ => Some gs
  | _ => None
  end.

End Frame.

(** ** Sample worlds *)

Module Sample.
Import Js Bus MqttPushService Spec.
Local Open Scope string_scope.
Local Open Scope list_scope.
Local Open Scope Z_scope.

Definition connectedBus : MqttService.t :=
  {| MqttService.config := MqttService.mkConfig (js "device") (js "mqtt-push-service");
     MqttService.client := Some (MqttService.mkClient true);
     MqttService.isConnected := true;
     MqttService.reconnectAttempts := 0;
     MqttService.reconnectTimer := None;
     MqttService.reconnectInterval := 20000;
     MqttService.manualReconnectEnabled := false |}.

Definition readyStore : RedisService.t :=
  RedisService.mkRedis true (Some (RedisService.mkClient true)).

Definition downStore : RedisService.t :=
  RedisService.mkRedis false (Some (RedisService.mkClient false)).

(** A running service with both connections up and the poll timer armed. *)
Definition service (redis : RedisService.t) : MqttPushService.t :=
  {| config := mkConfig (js "SENINF") 5000;
     redisService := Some redis;
     mqttService := Some connectedBus;
     isRunning := true;
     pollTimer := Some (MqttService.Interval 5000);
     stats := mkStats 0 7 (Some 500) 3 |}.

Definition world (redis : RedisService.t) : World :=
  {| this := service redis; trace := [] |}.

Definition reading (sn : string) (addr : Z) : JsVal :=
  rawReading sn addr [rawValue "A" (JNum (of_Z (-1))) (JNum (of_Z 60))].

(** A store holding the given readings under the key. *)
Definition storeWith (readings : list JsVal) : RedisService.Store :=
  RedisService.mkStore (Ok (Some (js "[...]"))) (fun _ => Ok (JArr readings)).

(** A store whose read is rejected. *)
Definition brokenStore : RedisService.Store :=
  RedisService.mkStore (Throw (Error "Connection is closed")) (fun _ => Ok (JArr [])).

(** A bus that acknowledges every publish. *)
Definition goodBus : MqttService.Broker :=
  MqttService.mkBroker 1000 (fun _ _ => None).

(** A bus that fails every publish with the given message. *)
Definition badBus (msg : string) : MqttService.Broker :=
  MqttService.mkBroker 1000 (fun _ _ => Some (Error msg)).

Definition cycleWith (readings : list JsVal) (b : MqttService.Broker) : Cycle :=
  mkCycle (storeWith readings) [] b.

Definition formattedReadings (readings : list JsVal) : list SensorProcessor.MqttData :=
  SensorProcessor.processAndFormat 1000 (JArr readings).

End Sample.

(** ** Further vocabulary *)

Module Notions.
Import Js SensorProcessor Spec Bus.
Local Open Scope string_scope.
Local Open Scope list_scope.
Local Open Scope Z_scope.

(** A raw item that processSingleSensor keeps: an object whose SN and
    ADDRESS are both truthy. *)
Definition kept (v : JsVal) : bool :=
  match v with
  | JObj fs => truthy (field "SN" fs) && truthy (field "ADDRESS" fs)
  | _ => false
  end.

Definition fieldsOf (v : JsVal) : list (string * JsVal) :=
  match v with JObj fs => fs | _ => [] end.

(** The sensor made of a kept item. *)
Definition normalised (now : Time) (v : JsVal) : Sensor :=
  set_status (decoded now (fieldsOf v)) (determineSensorStatus (decoded now (fieldsOf v))).

(** The lower-case hex digit of a value below 16, as a code unit. *)
Definition hexDigit (n : Z) : Z := if n <? 10 then 48 + n else 87 + n.

(** A byte written as the legacy escape: backslash, x, two hex digits. *)
Definition escapeByte (b : Z) : jsstring :=
  [92; 120; hexDigit (b / 16); hexDigit (b mod 16)].

Definition escapeBytes (bs : list Z) : jsstring := flat_map escapeByte bs.

Definition isByte (b : Z) : Prop := 0 <= b < 256.

(** The readings a trace has sent out as sensor messages, oldest first. *)
Definition readingsSent (t : Trace) : list MqttData :=
  flat_map (fun call => match Frame.carried call with Some d => [d] | None => [] end)
           (publishCalls t).

(** How the publish of the reading [d], issued as the [k]-th call of the
    run on a connected bus, settles. *)
Definition settledAs (m : MqttService.t) (b : MqttService.Broker)
    (k : nat) (d : MqttData) : MqttService.Settled :=
  match MqttService.answer b k (Frame.sensorCall m b d) with
  | Some e =>
      MqttService.fulfilled
        (Some (MqttService.mkFailure (Frame.nameOf d) (err_message e)))
  | None => MqttService.fulfilled None
  end.

(** The settled results of a batch whose first call is the [k]-th. *)
Fixpoint settledFrom (m : MqttService.t) (b : MqttService.Broker)
    (k : nat) (data : list MqttData) : list MqttService.Settled :=
  match data with
  | [] => []
  | d :: data' => settledAs m b k d :: settledFrom m b (S k) data'
  end.

(** How a publish settles on a bus that is not connected. *)
Definition refusedAs (d : MqttData) : MqttService.Settled :=
  MqttService.fulfilled
    (Some (MqttService.mkFailure (Frame.nameOf d) (js "MQTT未連接"))).

(** What a run of the service may do to its own object: the statistics
    only move forward, a publish time once set stays set, and the
    configuration, the store connection and the start time stay. *)
Definition moves_forward (s s' : MqttPushService.t) : Prop :=
  MqttPushService.config s' = MqttPushService.config s
  /\ MqttPushService.redisService s' = MqttPushService.redisService s
  /\ MqttPushService.startTime (MqttPushService.stats s')
     = MqttPushService.startTime (MqttPushService.stats s)
  /\ MqttPushService.totalPublished (MqttPushService.stats s)
     <= MqttPushService.totalPublished (MqttPushService.stats s')
  /\ MqttPushService.errors (MqttPushService.stats s)
     <= MqttPushService.errors (MqttPushService.stats s')
  /\ (MqttPushService.lastPublishTime (MqttPushService.stats s) <> None ->
      MqttPushService.lastPublishTime (MqttPushService.stats s') <> None).

(** The watchdog is armed exactly while manual reconnection is enabled,
    its period is the configured one, and it is not armed while the
    service holds itself connected. *)
Definition watchdog_ok (m : MqttService.t) : Prop :=
  (MqttService.manualReconnectEnabled m = true <->
   MqttService.reconnectTimer m <> None)
  /\ (forall p, MqttService.reconnectTimer m = Some (MqttService.Interval p) ->
                p = MqttService.reconnectInterval m)
  /\ (MqttService.isConnected m = true -> MqttService.reconnectTimer m = None).

(** The retained presence message the service sends with the given status. *)
Definition statusCall (m : MqttService.t) (b : MqttService.Broker)
    (status : jsstring) : PublishCall :=
  {| topic := service_status (MqttService.DEVICE_TOPIC_PREFIX (MqttService.config m));
     payload := StatusPayload (MqttService.MQTT_CLIENT_ID (MqttService.config m))
                  status (MqttService.now b);
     qos := 1;
     retain := true |}.

(** The events after which the service holds itself disconnected. *)
Definition drops (k : MqttService.EventKind) : bool :=
  match k with
  | MqttService.on_error | MqttService.on_offline | MqttService.on_close => true
  | _ => false
  end.

(** The publisher as its constructor leaves it. *)
Definition newMqttService (cfg : MqttService.Config) : MqttService.t :=
  {| MqttService.config := cfg;
     MqttService.client := None;
     MqttService.isConnected := false;
     MqttService.reconnectAttempts := 0;
     MqttService.reconnectTimer := None;
     MqttService.reconnectInterval := 20000;
     MqttService.manualReconnectEnabled := false |}.

(** The parts of the poll cycle, named: what follows the publish decision,
    what follows the read, and the catch branch. *)
Definition publishAll (c : MqttPushService.Cycle) (processedData : list MqttData)
    : MqttPushService.M unit :=
  Eff.bind MqttPushService.the_mqtt (fun mqtt' =>
  Eff.bind (MqttPushService.outside
              (MqttService.publishBatchSensorData mqtt' (MqttPushService.broker c)
                 processedData)) (fun results =>
  Eff.bind (MqttPushService.updateStats (MqttService.now (MqttPushService.broker c))
              (Z.of_nat (List.length processedData)) results) (fun _ =>
  MqttPushService.outside
    (log info "成功處理並發布 ${processedData.length} 個感測器資料")))).

Definition afterRead (c : MqttPushService.Cycle) (rawSensorData : JsVal)
    : MqttPushService.M unit :=
  if MqttPushService.nothing_read rawSensorData
  then MqttPushService.outside (log debug "未找到感測器資料")
  else
    match processAndFormat (MqttService.now (MqttPushService.broker c)) rawSensorData with
    | [] => MqttPushService.outside (log warn "處理後無有效感測器資料")
    | d :: ds => publishAll c (d :: ds)
    end.

Definition cycleFailed (e : JsError) : MqttPushService.M unit :=
  Eff.bind (MqttPushService.outside (log error "處理感測器資料時發生錯誤:")) (fun _ =>
  Eff.bind (MqttPushService.set_this
              (MqttPushService.with_stats (MqttPushService.add_errors 1))) (fun _ =>
  Eff.throw e)).

End Notions.

(** ** utils/unit.js, continued *)

Module UnitNames.
Import Js Unit.

(** [u.name === n] *)
Definition name_is (n : JsVal) (u : UnitInfo) : bool :=
  match n with
  | JStr s => jsstring_eqb (name u) s
  | _ => false
  end.

(** unit.find(u => u.name === name) || null *)
Definition getUnitByName (n : JsVal) : option UnitInfo := find (name_is n) unit.

End UnitNames.

(** ** Shutting down *)

(** services/mqttService.js, disconnect. Nothing in its try block throws:
    stopManualReconnect only clears the watchdog, and publishStatus catches
    its own errors. The forced end of the client is put on a timer and runs
    after disconnect has returned; what it does to the service comes back
    as the client's close event. *)
Module MqttShutdown.
Import Js Bus MqttService.
Local Open Scope string_scope.
Local Open Scope list_scope.
Local Open Scope Z_scope.
Local Open Scope eff_scope.

Definition disconnect (m : t) (b : Broker) : Eff.M Trace t :=
  m' <- stopManualReconnect m ;;
  (if has_client m' then publishStatus m' b (js "offline") else Eff.ret tt) ;;
  Eff.ret m'.

End MqttShutdown.

(** services/redisService.js: the store client's handlers, and disconnect. *)
Module RedisShutdown.
Import Js Bus RedisService.
Local Open Scope string_scope.
Local Open Scope list_scope.
Local Open Scope Z_scope.
Local Open Scope eff_scope.

Inductive EventKind := on_error | on_connect | on_reconnecting | on_end.

(** An event of the store client, with the client's own readiness flag as
    it stands when the handler runs. *)
Record ClientEvent := mkEvent { kind : EventKind; ready_now : bool }.

Definition set_isConnected (v : bool) (r : t) : t :=
  {| isConnected := v; client := client r |}.

(** The handlers installed by connect(). *)
Definition handle (ev : ClientEvent) (r0 : t) : Eff.M Trace t :=
  let r := match client r0 with
           | Some _ => {| isConnected := isConnected r0;
                          client := Some (mkClient (ready_now ev)) |}
           | None => r0
           end in
  match kind ev with
  | on_error =>
      log Bus.error "Redis連接錯誤:" ;;
      Eff.ret (set_isConnected false r)
  | on_connect =>
      log info "Redis連接成功" ;;
      Eff.ret (set_isConnected true r)
  | on_reconnecting =>
      log info "Redis重新連接中..." ;;
      Eff.ret (set_isConnected false r)
  | on_end =>
      log info "Redis連接已關閉" ;;
      Eff.ret (set_isConnected false r)
  end.

(** client.quit(): it rejects, or it is fulfilled once the connection has
    been closed, and closing the connection raises the client's end event,
    whose handler runs before the caller resumes. *)
Definition quit (r : t) (quit_reply : result unit) : Eff.M Trace t :=
  match quit_reply with
  | Ok _ => handle (mkEvent on_end false) r
  | Throw e => Eff.throw e
  end.

(** disconnect, returning the service object as the handlers have left it. *)
Definition disconnect (r : t) (quit_reply : result unit) : Eff.M Trace t :=
  Eff.try_catch
    (match client r with
     | Some _ =>
         r' <- quit r quit_reply ;;
         log info "Redis連接已關閉" ;;
         Eff.ret r'
     | None => Eff.ret r
     end)
    (fun _ =>
       log Bus.error "關閉Redis連接時發生錯誤:" ;;
       Eff.ret r).

End RedisShutdown.

(** index.js, stop *)
Module ServiceShutdown.
Import Js Bus MqttPushService.
Local Open Scope string_scope.
Local Open Scope list_scope.
Local Open Scope Z_scope.
Local Open Scope eff_scope.

(** An event that arrives while stop waits for quit: of the bus client or
    of the store client. *)
Inductive Arrival :=
| FromBus (ev : MqttService.ClientEvent)
| FromStore (ev : RedisShutdown.ClientEvent).

(** What a stop meets outside the process: the bus, the store's answer to
    quit, and the events of the two clients while quit is awaited, in the
    order of their arrival. *)
Record Shutdown := mkShutdown {
  bus : MqttService.Broker;
  quit_reply : result unit;
  eventsDuringQuit : list Arrival
}.

Definition with_isRunning (v : bool) (s : t) : t :=
  {| config := config s; redisService := redisService s;
     mqttService := mqttService s; isRunning := v;
     pollTimer := pollTimer s; stats := stats s |}.

Definition with_redis (r : RedisService.t) (s : t) : t :=
  {| config := config s; redisService := Some r;
     mqttService := mqttService s; isRunning := isRunning s;
     pollTimer := pollTimer s; stats := stats s |}.

(** The handler of one arriving event, on the service it belongs to. *)
Definition arrive (sd : Shutdown) (a : Arrival) : M unit :=
  match a with
  | FromBus ev =>
      m <- Eff.gets (fun w => mqttService (this w)) ;;
      match m with
      | Some m =>
          m' <- outside (MqttService.handle (bus sd) ev m) ;;
          set_this (with_mqtt m')
      | None => Eff.ret tt
      end
  | FromStore ev =>
      r <- Eff.gets (fun w => redisService (this w)) ;;
      match r with
      | Some r =>
          r' <- outside (RedisShutdown.handle ev r) ;;
          set_this (with_redis r')
      | None => Eff.ret tt
      end
  end.

Fixpoint arriveAll (sd : Shutdown) (l : list Arrival) : M unit :=
  match l with
  | [] => Eff.ret tt
  | a :: l' => arrive sd a ;; arriveAll sd l'
  end.

(** The clients' handlers run while quit is awaited; quit has no effect of
    its own before it suspends, and without a client nothing is awaited. *)
Definition whileQuitting (sd : Shutdown) (r : RedisService.t) : M unit :=
  match RedisService.client r with
  | None => Eff.ret tt
  | Some _ => arriveAll sd (eventsDuringQuit sd)
  end.

Definition stop (sd : Shutdown) : M unit :=
  Eff.try_catch
    (outside (log info "正在停止MQTT推送服務...") ;;
     set_this (with_isRunning false) ;;
     timer <- Eff.gets (fun w => pollTimer (this w)) ;;
     match timer with
     | Some _ => set_this (with_pollTimer None)
     | None => Eff.ret tt
     end ;;
     mqtt <- Eff.gets (fun w => mqttService (this w)) ;;
     match mqtt with
     | Some m =>
         m' <- outside (MqttShutdown.disconnect m (bus sd)) ;;
         set_this (with_mqtt m')
     | None => Eff.ret tt
     end ;;
     redis <- Eff.gets (fun w => redisService (this w)) ;;
     match redis with
     | Some r0 =>
         whileQuitting sd r0 ;;
         r <- Eff.gets (fun w => redisService (this w)) ;;
         match r with
         | Some r =>
             r' <- outside (RedisShutdown.disconnect r (quit_reply sd)) ;;
             set_this (with_redis r')
         | None => Eff.ret tt
         end
     | None => Eff.ret tt
     end ;;
     outside (log info "MQTT推送服務已停止"))
    (fun _ => outside (log error "停止服務時發生錯誤:")).

(** What the closing of the two connections leaves alone. *)
Definition closing_keeps (w w' : World) : Prop :=
  isRunning (this w') = isRunning (this w)
  /\ pollTimer (this w') = pollTimer (this w)
  /\ stats (this w') = stats (this w)
  /\ config (this w') = config (this w)
  /\ Notions.readingsSent (trace w') = Notions.readingsSent (trace w).

(** The store service is the same object with the same client or lack of
    one; its flags are what the handlers have made of them. *)
Definition same_store (s s' : t) : Prop :=
  match redisService s, redisService s' with
  | None, None => True
  | Some r, Some r' => RedisService.client r = None <-> RedisService.client r' = None
  | _, _ => False
  end.

End ServiceShutdown.

(** ** utils/config.js *)

Module Config.
Import Js.
Local Open Scope string_scope.
Local Open Scope list_scope.
Local Open Scope Z_scope.

(** The config object: its own properties, in insertion order. *)
Definition Obj := list (jsstring * JsVal).

Fixpoint own (k : jsstring) (o : Obj) : option JsVal :=
  match o with
  | [] => None
  | (k', v) :: o' => if jsstring_eqb k k' then Some v else own k o'
  end.

(** The property names a plain object inherits from Object.prototype. *)
Definition inherited (k : jsstring) : bool :=
  existsb (fun n => jsstring_eqb k (js n))
    ["constructor"; "__defineGetter__"; "__defineSetter__"; "hasOwnProperty";
     "__lookupGetter__"; "__lookupSetter__"; "isPrototypeOf";
     "propertyIsEnumerable"; "toString"; "valueOf"; "__proto__"; "toLocaleString"].

(** [o[k] === undefined] *)
Definition is_undefined (k : jsstring) (o : Obj) : bool :=
  match own k o with
  | Some JUndefined => true
  | Some _ => false
  | None => negb (inherited k)
  end.

(** [o[k]], for a name that is not inherited *)
Definition getv (k : jsstring) (o : Obj) : JsVal :=
  match own k o with Some v => v | None => JUndefined end.

(** [o[k] = v], for a name other than __proto__ *)
Fixpoint put (k : jsstring) (v : JsVal) (o : Obj) : Obj :=
  match o with
  | [] => [(k, v)]
  | (k', v') :: o' =>
      if jsstring_eqb k k' then (k, v) :: o' else (k', v') :: put k v o'
  end.

(** *** Strings *)

(** White space and line terminators, as trim and parseInt skip them. *)
Definition is_space (c : Z) : bool :=
  between 9 c 13 || (c =? 32) || (c =? 160) || (c =? 5760) || between 8192 c 8202
  || (c =? 8232) || (c =? 8233) || (c =? 8239) || (c =? 8287) || (c =? 12288)
  || (c =? 65279).

Fixpoint trimStart (s : jsstring) : jsstring :=
  match s with
  | c :: s' => if is_space c then trimStart s' else s
  | [] => []
  end.

Definition trim (s : jsstring) : jsstring := rev (trimStart (rev (trimStart s))).

(** s.split(sep) on a one-unit separator; [cur] is the part under way,
    last unit first. *)
Fixpoint split_on (sep : Z) (s : jsstring) (cur : jsstring) : list jsstring :=
  match s with
  | [] => [rev cur]
  | c :: s' =>
      if c =? sep then rev cur :: split_on sep s' [] else split_on sep s' (c :: cur)
  end.

Definition split (sep : Z) (s : jsstring) : list jsstring := split_on sep s [].

(** parts.join(sep) *)
Fixpoint join (sep : Z) (parts : list jsstring) : jsstring :=
  match parts with
  | [] => []
  | [p] => p
  | p :: ps => p ++ sep :: join sep ps
  end.

(** /^\d+$/.test(s) *)
Definition all_digits (s : jsstring) : bool :=
  SensorProcessor.nonEmpty s && forallb (fun c => between 48 c 57) s.

(** The value of a code unit as a digit of the radix, if it is one. *)
Definition digit (radix c : Z) : option Z :=
  let d := if between 48 c 57 then c - 48
           else if between 97 c 122 then c - 87
           else if between 65 c 90 then c - 55
           else 36 in
  if d <? radix then Some d else None.

(** The longest prefix of digits, read in the radix; none when empty. *)
Fixpoint digits (radix : Z) (s : jsstring) (acc : option Z) : option Z :=
  match s with
  | [] => acc
  | c :: s' =>
      match digit radix c with
      | Some d =>
          digits radix s'
            (Some (radix * (match acc with Some a => a | None => 0 end) + d))
      | None => acc
      end
  end.

(** parseInt(s) without a radix: leading white space, a sign, a 0x prefix,
    then digits; finite results are kept exact, and -0 is 0. *)
Definition parseInt (s : jsstring) : number :=
  let s1 := trimStart s in
  let neg := match s1 with c :: _ => c =? 45 | [] => false end in
  let s2 := match s1 with
            | c :: r => if (c =? 45) || (c =? 43) then r else s1
            | [] => s1
            end in
  let hex := match s2 with
             | a :: b :: _ => (a =? 48) && ((b =? 120) || (b =? 88))
             | _ => false
             end in
  let s3 := if hex then skipn 2 s2 else s2 in
  match digits (if hex then 16 else 10) s3 None with
  | Some n => of_Z (if neg then - n else n)
  | None => NaN
  end.

(** *** The sources *)

(** What the constructor meets outside the process: process.env (after
    dotenv has filled it), the config.env file (absent, unreadable, or its
    text), the client id made from the clock, and the built-in conversions
    that validation relies on: new URL(v) succeeding, and the number a
    string converts to in a comparison. *)
Record Host := mkHost {
  env : string -> option jsstring;
  configFile : option (result jsstring);
  fallbackClientId : jsstring;
  validUrl : JsVal -> bool;
  StringToNumber : jsstring -> number
}.

Definition env_string (h : Host) (name : string) : JsVal :=
  match env h name with Some s => JStr s | None => JUndefined end.

(** [process.env.X ? parseInt(process.env.X) : undefined] *)
Definition env_int (h : Host) (name : string) : JsVal :=
  match env h name with
  | Some (c :: s) => JNum (parseInt (c :: s))
  | _ => JUndefined
  end.

(** [process.env.X === 'true'] *)
Definition env_is_true (h : Host) (name : string) : JsVal :=
  JBool (match env h name with
         | Some s => jsstring_eqb s (js "true")
         | None => false
         end).

Definition envConfig (h : Host) : Obj :=
  [ (js "REDIS_HOST", env_string h "REDIS_HOST");
    (js "REDIS_PORT", env_int h "REDIS_PORT");
    (js "REDIS_PASSWORD", env_string h "REDIS_PASSWORD");
    (js "REDIS_DB", env_int h "REDIS_DB");
    (js "MQTT_BROKER_URL", env_string h "MQTT_BROKER_URL");
    (js "MQTT_CLIENT_ID", env_string h "MQTT_CLIENT_ID");
    (js "MQTT_USERNAME", env_string h "MQTT_USERNAME");
    (js "MQTT_PASSWORD", env_string h "MQTT_PASSWORD");
    (js "POLL_INTERVAL", env_int h "POLL_INTERVAL");
    (js "LOG_LEVEL", env_string h "LOG_LEVEL");
    (js "SENSOR_DATA_KEY", env_string h "SENSOR_DATA_KEY");
    (js "DEVICE_TOPIC_PREFIX", env_string h "DEVICE_TOPIC_PREFIX");
    (js "DEVICE_REGISTRATION_TOPIC", env_string h "DEVICE_REGISTRATION_TOPIC");
    (js "DEVICE_SN_KEY", env_string h "DEVICE_SN_KEY");
    (js "DEVICE_IP_KEY", env_string h "DEVICE_IP_KEY");
    (js "AUTO_REGISTER_ON_START", env_is_true h "AUTO_REGISTER_ON_START") ].

(** [if (envConfig[key] !== undefined) this.config[key] = envConfig[key]] *)
Definition copy_defined (cfg : Obj) (entry : jsstring * JsVal) : Obj :=
  match snd entry with
  | JUndefined => cfg
  | v => put (fst entry) v cfg
  end.

Definition loadEnvironmentVariables (h : Host) (cfg : Obj) : Obj :=
  fold_left copy_defined (envConfig h) cfg.

(** The callback of configLines.forEach. *)
Definition config_line (cfg : Obj) (line0 : jsstring) : Obj :=
  let line := trim line0 in
  if SensorProcessor.nonEmpty line && negb (match line with c :: _ => c =? 35 | [] => false end) then
    match split 61 line with
    | key :: valueParts =>
        if SensorProcessor.nonEmpty key && (0 <? Z.of_nat (List.length valueParts)) then
          let value := trim (join 61 valueParts) in
          if is_undefined key cfg && SensorProcessor.nonEmpty value then
            if all_digits value then put key (JNum (parseInt value)) cfg
            else put key (JStr value) cfg
          else cfg
        else cfg
    | [] => cfg
    end
  else cfg.

(** A file that is absent or cannot be read changes nothing. *)
Definition loadConfigFile (h : Host) (cfg : Obj) : Obj :=
  match configFile h with
  | Some (Ok configContent) => fold_left config_line (split 10 configContent) cfg
  | _ => cfg
  end.

Definition defaults (h : Host) : Obj :=
  [ (js "REDIS_HOST", JStr (js "127.0.0.1"));
    (js "REDIS_PORT", JNum (of_Z 6379));
    (js "REDIS_DB", JNum (of_Z 0));
    (js "MQTT_BROKER_URL", JStr (js "mqtt://localhost:1883"));
    (js "MQTT_CLIENT_ID", JStr (fallbackClientId h));
    (js "POLL_INTERVAL", JNum (of_Z 5000));
    (js "LOG_LEVEL", JStr (js "info"));
    (js "SENSOR_DATA_KEY", JStr (js "SENINF"));
    (js "DEVICE_TOPIC_PREFIX", JStr (js "device"));
    (js "DEVICE_REGISTRATION_TOPIC", JStr (js "device/name"));
    (js "DEVICE_SN_KEY", JStr (js "DeviceSN"));
    (js "DEVICE_IP_KEY", JStr (js "ip"));
    (js "AUTO_REGISTER_ON_START", JBool true) ].

(** [if (this.config[key] === undefined) this.config[key] = defaults[key]] *)
Definition set_default (cfg : Obj) (entry : jsstring * JsVal) : Obj :=
  if is_undefined (fst entry) cfg then put (fst entry) (snd entry) cfg else cfg.

Definition setDefaults (h : Host) (cfg : Obj) : Obj :=
  fold_left set_default (defaults h) cfg.

(** *** Validation *)

Definition required : list jsstring :=
  [js "REDIS_HOST"; js "REDIS_PORT"; js "MQTT_BROKER_URL"; js "SENSOR_DATA_KEY"].

(** [this.config[key] === undefined || this.config[key] === ''] *)
Definition is_missing (cfg : Obj) (key : jsstring) : bool :=
  match getv key cfg with
  | JUndefined => true
  | JStr [] => true
  | _ => false
  end.

(** The number a config value compares as; the values are strings,
    numbers and booleans. A poll interval below one second only draws a
    warning on the console. *)
Definition ToNumber (h : Host) (v : JsVal) : number :=
  match v with
  | JNum n => n
  | JStr s => StringToNumber h s
  | JBool true => of_Z 1
  | JBool false | JNull => of_Z 0
  | _ => NaN
  end.

Definition isValidUrl (h : Host) (url : JsVal) : bool := validUrl h url.

Definition validateConfig (h : Host) (cfg : Obj) : result unit :=
  let missing := filter (is_missing cfg) required in
  if (0 <? Z.of_nat (List.length missing))%Z
  then Throw (Error "缺少必要配置: ${missing.join(', ')}")
  else
    let port := ToNumber h (getv (js "REDIS_PORT") cfg) in
    if num_ltb port (of_Z 1) || num_ltb (of_Z 65535) port
    then Throw (Error "Redis端口號必須在1-65535範圍內")
    else if negb (isValidUrl h (getv (js "MQTT_BROKER_URL") cfg))
    then Throw (Error "MQTT代理URL格式無效")
    else Ok tt.

(** The config object as the three sources leave it. *)
Definition sources (h : Host) : Obj :=
  setDefaults h (loadConfigFile h (loadEnvironmentVariables h [])).

(** The constructor: the object starts empty, and an error of the
    validation is thrown on. *)
Definition loadConfig (h : Host) : result Obj :=
  match validateConfig h (sources h) with
  | Ok _ => Ok (sources h)
  | Throw e => Throw e
  end.

(** *** Reading *)

Definition get (key : jsstring) (cfg : Obj) : JsVal := getv key cfg.

Definition sensitiveKeys : list jsstring := [js "REDIS_PASSWORD"; js "MQTT_PASSWORD"].

(** [if (safeConfig[key]) safeConfig[key] = '***'] *)
Definition mask (safeConfig : Obj) (key : jsstring) : Obj :=
  if truthy (getv key safeConfig) then put key (JStr (js "***")) safeConfig
  else safeConfig.

(** The copy is by value here: this.config itself is not touched. *)
Definition getSafeConfig (cfg : Obj) : Obj := fold_left mask sensitiveKeys cfg.

End Config.

(** * Properties of the sensor normaliser *)

Module NormalizerProps.
Import Js SensorProcessor Spec.
Local Open Scope string_scope.
Local Open Scope list_scope.
Local Open Scope Z_scope.

(** *** The model on sample inputs *)

Example utf8_replaces_ill_formed_parts :
  utf8_to_string [230; 186; 171; 255; 195; 65; 224; 128; 240; 159]
  = [28331; 65533; 65533; 65; 65533; 65533; 65533].
Proof. reflexivity. Qed.

Example parseFloat_prefixes :
  map (fun s => parseNumber (JStr (js s)))
      ["60"; "-1"; "  3.5e2x"; ".5"; "1e+"; "abc"; ""; "0x10"]
  = [Some (Fin 60); Some (Fin (-1)); Some (Fin 350); Some (Fin (1 # 2));
     Some (Fin 1); None; None; Some (Fin 0)].
Proof. reflexivity. Qed.

(** The scenario of the design document: an escaped description, one
    temperature value with bounds -1 and 60. *)
Example reading_S1 :
  exists s pv,
    processSingleSensor 0
      (rawReading "S1" 1 [rawValue "A" (JNum (of_Z (-1))) (JNum (of_Z 60))]) = Some s
    /\ DES s = js "後溫度"
    /\ value s = [Processed pv]
    /\ pv_type pv = js "溫度"
    /\ range_valid pv = true
    /\ status s = Some active
    /\ Frame.nameOf (formatForMqtt s) = Bus.Named (JStr (js "S1")).
Proof. do 2 eexists. repeat split; reflexivity. Qed.

Lemma num_ltb_lt (a b : number) : num_ltb a b = true <-> num_lt a b.
Proof.
  destruct a as [| |x|], b as [| |y|]; simpl; try tauto; try (split; [discriminate | tauto]).
  rewrite negb_true_iff. split.
  - intro H. apply Qnot_le_lt. intro Hle.
    apply Qle_bool_iff in Hle. congruence.
  - intro H. destruct (Qle_bool y x) eqn:E; [|reflexivity].
    apply Qle_bool_iff in E. exfalso. exact (Qlt_not_le _ _ H E).
Qed.

Lemma parseNumber_not_NaN (v : JsVal) : parseNumber v <> Some NaN.
Proof.
  unfold parseNumber.
  destruct v; try discriminate;
    (destruct (is_empty_string _); [discriminate|]);
    match goal with |- context [isNaN ?p] => destruct p eqn:E end;
    simpl; congruence.
Qed.

(** What a processed value is made of. *)
Lemma processValue_ok (v : JsVal) (pv : ProcessedValue) :
  processValue v = Ok pv ->
  exists id nm mx mn code calc,
    get "_id" v = Ok id /\ get "name" v = Ok nm /\ get "max" v = Ok mx /\
    get "min" v = Ok mn /\ get "code" v = Ok code /\ get "calc" v = Ok calc /\
    pv = {| pv_id := id;
            pv_name := decodeUTF8 (or_else nm (JStr []));
            pv_max := parseNumber mx;
            pv_min := parseNumber mn;
            pv_code := code;
            pv_calc := or_else calc JNull;
            pv_type := typeOf code;
            range_valid := validateRange (parseNumber mn) (parseNumber mx) |}.
Proof.
  unfold processValue. intro H.
  destruct (get "_id" v) as [id|] eqn:E1; simpl in H; [|discriminate].
  destruct (get "name" v) as [nm|] eqn:E2; simpl in H; [|discriminate].
  destruct (get "max" v) as [mx|] eqn:E3; simpl in H; [|discriminate].
  destruct (get "min" v) as [mn|] eqn:E4; simpl in H; [|discriminate].
  destruct (get "code" v) as [code|] eqn:E5; simpl in H; [|discriminate].
  destruct (get "calc" v) as [calc|] eqn:E6; simpl in H; [|discriminate].
  exists id, nm, mx, mn, code, calc. repeat split; congruence.
Qed.

Lemma in_processValueArray (valueArray : JsVal) (pv : ProcessedValue) :
  In (Processed pv) (processValueArray valueArray) ->
  exists v, processValue v = Ok pv.
Proof.
  destruct valueArray; simpl; try tauto.
  intro H. apply in_map_iff in H. destruct H as [v [Hv _]].
  exists v. unfold processEntry in Hv.
  destruct (processValue v); congruence.
Qed.

(** C3: a normalized value has range_valid set exactly when both bounds
    parsed to numbers and min is strictly below max; the parsed bounds are
    never NaN, and an absent bound or equal bounds give an invalid range. *)
Theorem range_valid_iff_bounds_ordered :
  forall (valueArray : JsVal) (pv : ProcessedValue),
    In (Processed pv) (processValueArray valueArray) ->
    (range_valid pv = true <->
       exists a b, pv_min pv = Some a /\ pv_max pv = Some b /\ num_lt a b)
    /\ pv_min pv <> Some NaN /\ pv_max pv <> Some NaN
    /\ (pv_min pv = None \/ pv_max pv = None -> range_valid pv = false)
    /\ (forall x y, pv_min pv = Some (Fin x) -> pv_max pv = Some (Fin y) ->
                    (x == y)%Q -> range_valid pv = false).
Proof.
  intros valueArray pv Hin.
  destruct (in_processValueArray _ _ Hin) as [v Hv].
  destruct (processValue_ok _ _ Hv) as (id & nm & mx & mn & code & calc & _ & _ & _ & _ & _ & _ & ->).
  simpl. repeat split.
  - unfold validateRange.
    destruct (parseNumber mn) as [a|]; [|discriminate].
    destruct (parseNumber mx) as [b|]; [|discriminate].
    intro H. exists a, b. repeat split. now apply num_ltb_lt.
  - intros (a & b & -> & -> & Hlt). simpl. now apply num_ltb_lt.
  - apply parseNumber_not_NaN.
  - apply parseNumber_not_NaN.
  - unfold validateRange. intros [-> | ->]; [reflexivity|].
    destruct (parseNumber mn); reflexivity.
  - intros x y -> -> Heq. simpl.
    rewrite negb_false_iff. apply Qle_bool_iff. rewrite Heq. apply Qle_refl.
Qed.

Lemma range_valid_iff_bounds_ordered_witness :
  exists pv,
    In (Processed pv)
       (processValueArray (JArr [rawValue "A" (JNum (of_Z (-1))) (JStr (js "60"))])) /\
    (range_valid pv = true <->
       exists a b, pv_min pv = Some a /\ pv_max pv = Some b /\ num_lt a b).
Proof.
  set (arr := JArr [rawValue "A" (JNum (of_Z (-1))) (JStr (js "60"))]).
  assert (Hin : exists pv, In (Processed pv) (processValueArray arr)).
  { eexists. left. reflexivity. }
  destruct Hin as [pv Hin].
  exists pv. split; [exact Hin|].
  exact (proj1 (range_valid_iff_bounds_ordered arr pv Hin)).
Defined.

(** *** Required fields *)

(** A reading is kept exactly when it is an object whose SN and ADDRESS
    are both truthy; the kept sensor is the decoded one with its status. *)
Lemma processSingleSensor_some (now : Time) (sensor : JsVal) (s : Sensor) :
  processSingleSensor now sensor = Some s <->
  exists fs, sensor = JObj fs /\
             truthy (field "SN" fs) = true /\ truthy (field "ADDRESS" fs) = true /\
             s = set_status (decoded now fs) (determineSensorStatus (decoded now fs)).
Proof.
  unfold processSingleSensor. split.
  - destruct sensor as [| |b|n|str|items|fs]; simpl; try discriminate;
      try (match goal with |- context [if ?c then _ else _] => destruct c end;
           simpl; discriminate).
    fold (field "SN" fs) (field "ADDRESS" fs).
    destruct (truthy (field "SN" fs)) eqn:E1; simpl; [|discriminate].
    destruct (truthy (field "ADDRESS" fs)) eqn:E2; simpl; [|discriminate].
    fold (field "DES" fs) (field "name" fs) (field "profile" fs) (field "value" fs).
    intro H. injection H as <-. exists fs. repeat split; assumption.
  - intros (fs & -> & H1 & H2 & ->). simpl.
    fold (field "SN" fs) (field "ADDRESS" fs).
    rewrite H1, H2. reflexivity.
Qed.

(** C2 (evaluation at the failing input): a reading that carries a serial
    number and the numeric address 0 is dropped as if a field were missing. *)
Theorem address_zero_is_dropped :
  forall (now : Time) (sn : string) (values : list JsVal),
    processSingleSensor now (rawReading sn 0 values) = None.
Proof.
  intros now sn values.
  destruct (processSingleSensor now (rawReading sn 0 values)) as [s|] eqn:E; [|reflexivity].
  apply processSingleSensor_some in E.
  destruct E as (fs & Hfs & _ & Haddr & _).
  injection Hfs as <-. discriminate Haddr.
Qed.

(** *** Status *)

Lemma entry_get_range_valid (pv : ProcessedValue) :
  entry_get "range_valid" (Processed pv) = Ok (JBool (range_valid pv)).
Proof. reflexivity. Qed.

Lemma filterValid_spec (vs : list ValueEntry) :
  if existsb unreadable vs
  then exists e, filterValid vs = Throw e
  else filterValid vs = Ok (filter entry_valid vs).
Proof.
  induction vs as [|v vs IH]; simpl; [reflexivity|].
  destruct v as [pv|raw].
  - simpl. unfold entry_valid at 1. rewrite entry_get_range_valid. simpl.
    destruct (existsb unreadable vs).
    + destruct IH as [e ->]. exists e. reflexivity.
    + rewrite IH. simpl. reflexivity.
  - destruct raw; simpl;
      try (eexists; reflexivity);
      unfold entry_valid at 1; simpl;
      (destruct (existsb unreadable vs);
       [destruct IH as [e ->]; exists e; reflexivity
       | rewrite IH; simpl; reflexivity]).
Qed.

Lemma filter_nil_existsb {A} (f : A -> bool) (l : list A) :
  filter f l = [] <-> existsb f l = false.
Proof.
  induction l as [|a l IH]; simpl; [tauto|].
  destruct (f a); simpl; [split; discriminate | exact IH].
Qed.

Lemma determineSensorStatus_by_priority (s : Sensor) :
  determineSensorStatus s = statusByPriority s.
Proof.
  unfold determineSensorStatus, statusByPriority.
  destruct (value s) as [|v vs] eqn:Ev; [reflexivity|].
  remember (v :: vs) as l eqn:El.
  pose proof (filterValid_spec l) as H.
  destruct (existsb unreadable l).
  - destruct H as [e ->]. reflexivity.
  - rewrite H. unfold rbind.
    destruct (filter entry_valid l) eqn:Ef.
    + apply filter_nil_existsb in Ef. rewrite Ef. reflexivity.
    + assert (Hex : existsb entry_valid l = true).
      { destruct (existsb entry_valid l) eqn:Ex; [reflexivity|].
        apply filter_nil_existsb in Ex. congruence. }
      rewrite Hex. simpl.
      destruct (negb (nonEmpty (name s)) || negb (nonEmpty (DES s))); reflexivity.
Qed.

(** The only raw items left in a processed value array are null and
    undefined. *)
Lemma processEntry_unprocessed (v raw : JsVal) :
  processEntry v = Unprocessed raw -> unreadable (Unprocessed raw) = true.
Proof.
  unfold processEntry.
  destruct v; simpl; intro H; try discriminate; injection H as <-; reflexivity.
Qed.

Lemma processValueArray_entries (valueArray : JsVal) (e : ValueEntry) :
  In e (processValueArray valueArray) ->
  unreadable e = true \/ exists pv, e = Processed pv.
Proof.
  destruct valueArray; simpl; try tauto.
  intro H. apply in_map_iff in H. destruct H as [v [Hv _]].
  destruct e as [pv|raw]; [right; eauto|].
  left. eapply processEntry_unprocessed; eauto.
Qed.

Lemma active_iff (d : Sensor) :
  (forall e, In e (value d) -> unreadable e = true \/ exists pv, e = Processed pv) ->
  (statusByPriority d = active <->
     existsb unreadable (value d) = false
     /\ (exists pv, In (Processed pv) (value d) /\ range_valid pv = true)
     /\ name d <> [] /\ DES d <> []).
Proof.
  intro Hent. unfold statusByPriority.
  destruct (value d) as [|v vs] eqn:Ev.
  - split; [discriminate|]. intros (_ & (pv & [] & _) & _).
  - remember (v :: vs) as l eqn:El. clear El Ev v vs.
    destruct (existsb unreadable l) eqn:Eu.
    + split; [discriminate|]. intros (Hf & _). discriminate.
    + destruct (existsb entry_valid l) eqn:Ex; simpl negb; cbv iota.
      * destruct (name d) as [|c1 n1]; simpl.
        { split; [discriminate|]. intros (_ & _ & Hn & _). congruence. }
        destruct (DES d) as [|c2 n2]; simpl.
        { split; [discriminate|]. intros (_ & _ & _ & Hn). congruence. }
        split; [|reflexivity]. intros _.
        repeat split; try discriminate.
        apply existsb_exists in Ex. destruct Ex as (e & He & Hv).
        destruct (Hent e He) as [Hu|[pv ->]].
        -- assert (existsb unreadable l = true)
             by (apply existsb_exists; eauto).
           congruence.
        -- exists pv. split; [exact He|]. exact Hv.
      * split; [discriminate|].
        intros (_ & (pv & Hin & Hrv) & _).
        assert (existsb entry_valid l = true).
        { apply existsb_exists. exists (Processed pv). split; [exact Hin|]. exact Hrv. }
        congruence.
Qed.




(** *** Legacy text *)

Lemma decodeString_no_escape (s : jsstring) :
  hasEscape s = false -> decodeString s = s.
Proof.
  intro H. unfold decodeString. destruct s; [reflexivity|]. now rewrite H.
Qed.

(** An escape starts with a backslash. *)
Lemma hasEscape_backslash (s : jsstring) : hasEscape s = true -> In 92 s.
Proof.
  induction s as [|c tl IH]; [discriminate|].
  destruct tl as [|x [|h1 [|h2 r]]]; try discriminate.
  intro H. change (isEscape c x h1 h2 || hasEscape (x :: h1 :: h2 :: r) = true) in H.
  apply orb_true_iff in H. destruct H as [H|H].
  - left. unfold isEscape in H.
    repeat (apply andb_true_iff in H; destruct H as [H ?]).
    apply Z.eqb_eq in H. congruence.
  - right. apply IH. exact H.
Qed.

(** C5 (amended): a string with no escape is returned unchanged; decoding
    again changes nothing whenever the first result holds no escape, in
    particular whenever it holds no backslash. *)
Theorem decodeUTF8_stable_without_escape :
  forall s : jsstring,
    (hasEscape s = false -> decodeUTF8 (JStr s) = s)
    /\ (hasEscape (decodeUTF8 (JStr s)) = false ->
        decodeUTF8 (JStr (decodeUTF8 (JStr s))) = decodeUTF8 (JStr s))
    /\ (~ In 92 (decodeUTF8 (JStr s)) ->
        decodeUTF8 (JStr (decodeUTF8 (JStr s))) = decodeUTF8 (JStr s)).
Proof.
  intro s. simpl. repeat split.
  - apply decodeString_no_escape.
  - apply decodeString_no_escape.
  - intro Hn. apply decodeString_no_escape.
    destruct (hasEscape (decodeString s)) eqn:E; [|reflexivity].
    exfalso. apply Hn. now apply hasEscape_backslash.
Qed.

Lemma decodeUTF8_stable_without_escape_witness :
  let s := js "\xe5\xbe\x8c\xe6\xba\xab\xe5\xba\xa6" in
  hasEscape (decodeUTF8 (JStr s)) = false
  /\ decodeUTF8 (JStr s) = js "後溫度"
  /\ decodeUTF8 (JStr (decodeUTF8 (JStr s))) = decodeUTF8 (JStr s).
Proof.
  intro s. split; [reflexivity|]. split; [reflexivity|].
  apply (proj1 (proj2 (decodeUTF8_stable_without_escape s))).
  reflexivity.
Defined.

(** C5 (as stated, refuted): the escaped backslash of [\x5cx41] decodes to
    the text [\x41], which is itself an escape and decodes again to [A]. *)
Lemma decodeUTF8_not_idempotent :
  let s := js "\x5cx41" in
  decodeUTF8 (JStr s) = js "\x41"
  /\ decodeUTF8 (JStr (decodeUTF8 (JStr s))) = js "A"
  /\ decodeUTF8 (JStr (decodeUTF8 (JStr s))) <> decodeUTF8 (JStr s).
Proof.
  intro s. split; [reflexivity|]. split; [reflexivity|]. discriminate.
Qed.

(** *** Type names *)

Lemma sensorTypes_codes :
  sensorTypes =
  [ ([65], js "溫度"); ([66], js "濕度"); ([67], js "二氧化碳");
    ([83], js "負壓"); ([82], js "風速"); ([76], js "飲用水量") ].
Proof. reflexivity. Qed.

Lemma lookup_code (c : Z) :
  lookup [c] sensorTypes =
  if c =? 65 then Some (js "溫度")
  else if c =? 66 then Some (js "濕度")
  else if c =? 67 then Some (js "二氧化碳")
  else if c =? 83 then Some (js "負壓")
  else if c =? 82 then Some (js "風速")
  else if c =? 76 then Some (js "飲用水量")
  else None.
Proof.
  rewrite sensorTypes_codes. unfold lookup, jsstring_eqb.
  rewrite !andb_true_r. reflexivity.
Qed.

(** Every entry of the processor's table is an entry of the catalogue,
    under the same name. *)
Lemma sensorTypes_in_catalogue (c : Z) (t : jsstring) :
  lookup [c] sensorTypes = Some t ->
  exists u, Unit.getUnitByCode (JStr [c]) = Some u /\ Unit.name u = t.
Proof.
  rewrite lookup_code.
  repeat match goal with
         | |- context [c =? ?k] =>
             destruct (Z.eqb_spec c k) as [->|];
             [intro H; injection H as <-; eexists; split; reflexivity|]
         end.
  discriminate.
Qed.

(** C6 (amended): the type of a normalized value with a one-character code
    is the name found under that code in the processor's own table of six
    codes (A, B, C, S, R, L), which the catalogue lists under the same
    names; it is the default name exactly when the code is none of the six. *)
Theorem type_from_sensorTypes :
  forall (valueArray : JsVal) (pv : ProcessedValue) (c : Z),
    In (Processed pv) (processValueArray valueArray) ->
    pv_code pv = JStr [c] ->
    pv_type pv = match lookup [c] sensorTypes with
                 | Some t => t
                 | None => unknownType
                 end
    /\ (pv_type pv = unknownType <-> ~ In c [65; 66; 67; 83; 82; 76])
    /\ (pv_type pv <> unknownType ->
        exists u, Unit.getUnitByCode (JStr [c]) = Some u /\ Unit.name u = pv_type pv).
Proof.
  intros valueArray pv c Hin Hcode.
  destruct (in_processValueArray _ _ Hin) as [v Hv].
  destruct (processValue_ok _ _ Hv) as (id & nm & mx & mn & code & calc & _ & _ & _ & _ & _ & _ & ->).
  simpl in Hcode. subst code. simpl pv_type.
  assert (Ht : typeOf (JStr [c]) =
               match lookup [c] sensorTypes with Some t => t | None => unknownType end).
  { unfold typeOf, tableKey. rewrite lookup_code.
    repeat match goal with
           | |- context [c =? ?k] => destruct (c =? k); [reflexivity|]
           end.
    reflexivity. }
  split; [exact Ht|]. split.
  - rewrite Ht, lookup_code. simpl In.
    repeat match goal with
           | |- context [c =? ?k] =>
               destruct (Z.eqb_spec c k) as [->|];
               [split; [discriminate | intro H; exfalso; apply H; tauto]|]
           end.
    split; [|reflexivity]. intros _ H.
    repeat (destruct H as [H|H]; [congruence|]). exact H.
  - rewrite Ht. intro Hne.
    destruct (lookup [c] sensorTypes) as [t|] eqn:El; [|congruence].
    exact (sensorTypes_in_catalogue c t El).
Qed.

Lemma type_from_sensorTypes_witness :
  exists pv,
    In (Processed pv)
       (processValueArray (JArr [rawValue "A" (JNum (of_Z (-1))) (JNum (of_Z 60))]))
    /\ pv_code pv = JStr [65]
    /\ pv_type pv = js "溫度".
Proof.
  set (arr := JArr [rawValue "A" (JNum (of_Z (-1))) (JNum (of_Z 60))]).
  assert (H : exists pv, In (Processed pv) (processValueArray arr) /\ pv_code pv = JStr [65]).
  { eexists. split; [left; reflexivity | reflexivity]. }
  destruct H as (pv & Hin & Hcode).
  exists pv. split; [exact Hin|]. split; [exact Hcode|].
  exact (proj1 (type_from_sensorTypes arr pv 65 Hin Hcode)).
Defined.

(** C6 (as stated, refuted): the code I is in the catalogue (照度), yet a
    value spec with that code gets the default type name. *)
Lemma catalogue_code_maps_to_unknown :
  exists pv u,
    processValue (rawValue "I" (JNum (of_Z 0)) (JNum (of_Z 100))) = Ok pv
    /\ pv_code pv = JStr (js "I")
    /\ Unit.getUnitByCode (pv_code pv) = Some u
    /\ Unit.name u = js "照度"
    /\ pv_type pv = unknownType.
Proof.
  eexists. eexists. split; [reflexivity|]. split; [reflexivity|].
  split; [reflexivity|]. split; reflexivity.
Qed.

End NormalizerProps.

(** * Properties of the store's retry policy *)

Module StoreProps.
Import Js RedisService.
Local Open Scope string_scope.
Local Open Scope list_scope.
Local Open Scope Z_scope.

(** C9 (amended): the policy stops retrying in exactly three cases. On a
    refused connection, and else once the total retry time is above one
    hour, it returns an Error; else once the attempt count is above 10 it
    returns undefined, with no error of its own; in every other case it
    returns the delay min(attempt * 100, 3000). *)
Theorem retry_strategy_cases :
  forall o : RetryOptions,
    let halt := refused o = true \/ total_retry_time o > 3600000 \/ attempt o > 10 in
    ((exists ms, retry_strategy o = ReturnDelay ms) <-> ~ halt)
    /\ (~ halt -> retry_strategy o = ReturnDelay (Z.min (attempt o * 100) 3000))
    /\ ((exists e, retry_strategy o = ReturnError e) <->
          refused o = true \/ total_retry_time o > 3600000)
    /\ (retry_strategy o = ReturnUndefined <->
          refused o = false /\ total_retry_time o <= 3600000 /\ attempt o > 10).
Proof.
  intros o halt. subst halt. unfold retry_strategy.
  change (1000 * 60 * 60) with 3600000. rewrite !Z.gtb_ltb.
  destruct (refused o);
    destruct (Z.ltb_spec 3600000 (total_retry_time o));
    destruct (Z.ltb_spec 10 (attempt o));
    repeat split; intros;
    repeat match goal with
           | H : exists _, _ |- _ => destruct H
           | H : _ /\ _ |- _ => destruct H
           | H : _ \/ _ |- _ => destruct H
           | H : ~ _ |- False => apply H
           end;
    try discriminate; try lia; eauto; try tauto.
Qed.

Lemma retry_strategy_cases_witness :
  retry_strategy (mkOptions None 1500 3) = ReturnDelay 300.
Proof.
  apply (proj1 (proj2 (retry_strategy_cases (mkOptions None 1500 3)))).
  intros [H | [H | H]]; [discriminate H | simpl in H; lia | simpl in H; lia].
Defined.

(** C9 (as stated, refuted): at the 11th attempt, with no refusal and the
    hour not spent, the policy stops without returning any error. *)
Lemma attempt_limit_returns_no_error :
  retry_strategy (mkOptions None 5000 11) = ReturnUndefined
  /\ forall e, retry_strategy (mkOptions None 5000 11) <> ReturnError e.
Proof.
  split; [reflexivity | intros e H; discriminate H].
Qed.

End StoreProps.

(** * Properties of the bus publisher *)

Module PublisherProps.
Import Js Bus MqttService Frame.
Local Open Scope string_scope.
Local Open Scope list_scope.
Local Open Scope Z_scope.

Lemma publishCalls_app (t1 t2 : Trace) :
  publishCalls (t1 ++ t2) = publishCalls t1 ++ publishCalls t2.
Proof. unfold publishCalls. apply flat_map_app. Qed.

Lemma publishCalls_logged (t : Trace) (l : Level) (text : string) :
  publishCalls (t ++ [Logged l text]) = publishCalls t.
Proof. rewrite publishCalls_app. simpl. apply app_nil_r. Qed.

Lemma publishCalls_published (t : Trace) (call : PublishCall) :
  publishCalls (t ++ [Published call]) = publishCalls t ++ [call].
Proof. rewrite publishCalls_app. reflexivity. Qed.

Lemma deviceNameOf_run (d : SensorProcessor.MqttData) (t : Trace) :
  exists t', deviceNameOf d t = (Ok (nameOf d), t') /\ publishCalls t' = publishCalls t.
Proof.
  unfold deviceNameOf, nameOf.
  destruct d as [f|s].
  - destruct (truthy _); eexists; (split; [reflexivity|]);
      [reflexivity | apply publishCalls_logged].
  - destruct (truthy (SensorProcessor.SN s)); [eexists; split; reflexivity|].
    destruct (truthy (SensorProcessor.ADDRESS s)); eexists; (split; [reflexivity|]);
      [reflexivity | apply publishCalls_logged].
Qed.

(** One reading of a batch: no throw, one publish call when connected and
    none otherwise, and a settled result. *)
Lemma publishOne_run (m : t) (b : Broker) (d : SensorProcessor.MqttData) (t : Trace) :
  exists r t',
    publishOne m b d t = (Ok r, t')
    /\ publishCalls t' =
         publishCalls t ++ (if not_connected m then [] else [sensorCall m b d])
    /\ settles m b r.
Proof.
  unfold publishOne.
  destruct (deviceNameOf_run d t) as (t1 & Hn & Hc).
  unfold Eff.bind at 1. rewrite Hn.
  unfold Eff.try_catch at 1, Eff.bind at 1, publishSensorData.
  unfold Eff.bind at 1, Eff.try_catch at 1, settles.
  destruct (not_connected m) eqn:Enc.
  - simpl. eexists. eexists. split; [reflexivity|]. split.
    + rewrite !publishCalls_logged, app_nil_r. exact Hc.
    + left. split; [reflexivity|]. eexists. reflexivity.
  - unfold publish. simpl.
    fold (sensorCall m b d).
    destruct (answer b (List.length (publishCalls t1)) (sensorCall m b d)) as [e|] eqn:Ea;
      simpl; eexists; eexists; (split; [reflexivity|]); split.
    + rewrite !publishCalls_logged, publishCalls_published, Hc. reflexivity.
    + right. split; [reflexivity|].
      exists (List.length (publishCalls t1)), (sensorCall m b d).
      rewrite Ea. eexists. reflexivity.
    + rewrite !publishCalls_logged, publishCalls_published, Hc. reflexivity.
    + right. split; [reflexivity|].
      exists (List.length (publishCalls t1)), (sensorCall m b d).
      rewrite Ea. reflexivity.
Qed.

Lemma mapM_publishOne (m : t) (b : Broker) (data : list SensorProcessor.MqttData) :
  forall t : Trace,
  exists rs t',
    Eff.mapM (publishOne m b) data t = (Ok rs, t')
    /\ publishCalls t' =
         publishCalls t ++ (if not_connected m then [] else map (sensorCall m b) data)
    /\ List.length rs = List.length data
    /\ Forall (settles m b) rs.
Proof.
  induction data as [|d data IH]; intro t.
  - exists [], t. repeat split.
    + destruct (not_connected m); now rewrite app_nil_r.
    + constructor.
  - destruct (publishOne_run m b d t) as (r & t1 & H1 & Hc1 & Hs1).
    destruct (IH t1) as (rs & t2 & H2 & Hc2 & Hl & Hs2).
    exists (r :: rs), t2. simpl Eff.mapM.
    unfold Eff.bind at 1. rewrite H1.
    unfold Eff.bind at 1. rewrite H2.
    repeat split.
    + rewrite Hc2, Hc1. destruct (not_connected m); simpl.
      * now rewrite !app_nil_r.
      * now rewrite <- app_assoc.
    + simpl. now rewrite Hl.
    + constructor; assumption.
Qed.

(** The batch publish never throws; it issues one call per reading, in
    order, when connected, and settles one result per reading. *)
Lemma publishBatchSensorData_run (m : t) (b : Broker)
    (data : list SensorProcessor.MqttData) (t : Trace) :
  exists rs t',
    publishBatchSensorData m b data t = (Ok rs, t')
    /\ publishCalls t' =
         publishCalls t ++ (if not_connected m then [] else map (sensorCall m b) data)
    /\ List.length rs = List.length data
    /\ Forall (settles m b) rs.
Proof.
  destruct (mapM_publishOne m b data t) as (rs & t1 & H & Hc & Hl & Hs).
  unfold publishBatchSensorData, Eff.bind at 1. rewrite H.
  destruct (0 <? Z.of_nat (List.length (filter is_failed rs)));
    eexists; eexists; (split; [reflexivity|]); (split; [|split; assumption]);
    rewrite publishCalls_logged; exact Hc.
Qed.

Lemma map_carried_sensorCall (m : t) (b : Broker) (data : list SensorProcessor.MqttData) :
  map carried (map (sensorCall m b) data) = map Some data.
Proof. rewrite map_map. reflexivity. Qed.



End PublisherProps.

(** * Properties of the poll cycle *)

Module PipelineProps.
Import Js Bus MqttPushService Frame.
Local Open Scope string_scope.
Local Open Scope list_scope.
Local Open Scope Z_scope.

(** ** Rules for relating the worlds around a computation *)

Section Rules.

Variable Q : t -> t -> Prop.
Hypothesis Qrefl : forall s, Q s s.
Hypothesis Qtrans : forall a b c, Q a b -> Q b c -> Q a c.

Lemma keeps_ret {A} (a : A) : keeps (on_this Q) (Eff.ret a).
Proof. intro w. apply Qrefl. Qed.

Lemma keeps_throw {A} (e : JsError) : keeps (on_this Q) (@Eff.throw World A e).
Proof. intro w. apply Qrefl. Qed.

Lemma keeps_gets {A} (f : World -> A) : keeps (on_this Q) (Eff.gets f).
Proof. intro w. apply Qrefl. Qed.

Lemma keeps_outside {A} (m : Eff.M Trace A) : keeps (on_this Q) (outside m).
Proof.
  intro w. unfold outside, Eff.lift, on_this.
  destruct (m (trace w)). apply Qrefl.
Qed.

Lemma keeps_set_this (f : t -> t) :
  (forall s, Q s (f s)) -> keeps (on_this Q) (set_this f).
Proof. intros H w. apply H. Qed.

Lemma keeps_bind {A B} (m : M A) (k : A -> M B) :
  keeps (on_this Q) m -> (forall a, keeps (on_this Q) (k a)) ->
  keeps (on_this Q) (Eff.bind m k).
Proof.
  intros Hm Hk w. unfold Eff.bind. specialize (Hm w).
  destruct (m w) as [[a|e] w1]; [|exact Hm].
  eapply Qtrans; [exact Hm | apply Hk].
Qed.

Lemma keeps_try_catch {A} (m : M A) (h : JsError -> M A) :
  keeps (on_this Q) m -> (forall e, keeps (on_this Q) (h e)) ->
  keeps (on_this Q) (Eff.try_catch m h).
Proof.
  intros Hm Hh w. unfold Eff.try_catch. specialize (Hm w).
  destruct (m w) as [[a|e] w1]; [exact Hm|].
  eapply Qtrans; [exact Hm | apply Hh].
Qed.

Lemma on_throw_keeps {A} (m : M A) : keeps (on_this Q) m -> on_throw (on_this Q) m.
Proof. intros Hm w e w' H. specialize (Hm w). now rewrite H in Hm. Qed.

Lemma on_throw_no_throw {A} (m : M A) : no_throw m -> on_throw (on_this Q) m.
Proof. intros Hm w e w' H. destruct (Hm w) as (a & w1 & H1). congruence. Qed.

Lemma on_throw_bind {A B} (m : M A) (k : A -> M B) :
  keeps (on_this Q) m -> (forall a, on_throw (on_this Q) (k a)) ->
  on_throw (on_this Q) (Eff.bind m k).
Proof.
  intros Hm Hk w e w'. unfold Eff.bind. specialize (Hm w).
  destruct (m w) as [[a|e1] w1]; intro H.
  - eapply Qtrans; [exact Hm | eapply Hk; exact H].
  - injection H as _ <-. exact Hm.
Qed.

End Rules.

Lemma no_throw_ret {A} (a : A) : no_throw (Eff.ret a : M A).
Proof. intro w. now exists a, w. Qed.

Lemma no_throw_set_this (f : t -> t) : no_throw (set_this f).
Proof. intro w. eexists. eexists. reflexivity. Qed.

Lemma no_throw_log (l : Level) (text : string) : no_throw (outside (log l text)).
Proof. intro w. eexists. eexists. reflexivity. Qed.

Lemma no_throw_bind {A B} (m : M A) (k : A -> M B) :
  no_throw m -> (forall a, no_throw (k a)) -> no_throw (Eff.bind m k).
Proof.
  intros Hm Hk w. unfold Eff.bind.
  destruct (Hm w) as (a & w1 & ->). apply Hk.
Qed.

Lemma no_throw_updateStats (now : SensorProcessor.Time) (n : Z)
    (results : list MqttService.Settled) : no_throw (updateStats now n results).
Proof.
  unfold updateStats. apply no_throw_bind; [apply no_throw_set_this|].
  intros _. destruct (0 <? _); [apply no_throw_set_this | apply no_throw_ret].
Qed.

(** Apply the rules along the structure of a computation. *)
Ltac frame Q Qrefl Qtrans :=
  repeat first
    [ apply (keeps_bind Q Qtrans); [|intro]
    | apply (keeps_try_catch Q Qtrans); [|intro]
    | apply (keeps_ret Q Qrefl)
    | apply (keeps_throw Q Qrefl)
    | apply (keeps_gets Q Qrefl)
    | apply (keeps_outside Q Qrefl)
    | apply (keeps_set_this Q); intro; unfold Q; simpl
    | match goal with
      | |- keeps _ (if ?c then _ else _) => destruct c eqn:?
      | |- keeps _ (match ?x with _ => _ end) => destruct x
      end
    | progress cbv zeta ].

Lemma stats_refl (s : t) : stats_kept s s.
Proof. reflexivity. Qed.

Lemma stats_trans (a b c : t) : stats_kept a b -> stats_kept b c -> stats_kept a c.
Proof. unfold stats_kept. congruence. Qed.

Lemma schedule_refl (s : t) : schedule_kept s s.
Proof. split; reflexivity. Qed.

Lemma schedule_trans (a b c : t) :
  schedule_kept a b -> schedule_kept b c -> schedule_kept a c.
Proof. unfold schedule_kept. intros [? ?] [? ?]. split; congruence. Qed.

Lemma errors_refl (s : t) : errors_not_less s s.
Proof. unfold errors_not_less. lia. Qed.

Lemma errors_trans (a b c : t) :
  errors_not_less a b -> errors_not_less b c -> errors_not_less a c.
Proof. unfold errors_not_less. lia. Qed.

(** The schedule is out of reach of the whole cycle. *)
Lemma processSensorData_schedule (c : Cycle) : keeps same_schedule (processSensorData c).
Proof.
  unfold processSensorData, updateStats, whileWaiting, the_redis, the_mqtt, same_schedule.
  frame schedule_kept schedule_refl schedule_trans; split; reflexivity.
Qed.

Lemma pollTick_schedule (c : Cycle) : keeps same_schedule (pollTick c).
Proof.
  unfold pollTick.
  apply (keeps_try_catch schedule_kept schedule_trans);
    [apply processSensorData_schedule|].
  intro e.
  frame schedule_kept schedule_refl schedule_trans; split; reflexivity.
Qed.

(** The error count never goes down. *)
Lemma pollTick_errors_grow (c : Cycle) : keeps errors_grow (pollTick c).
Proof.
  unfold pollTick, processSensorData, updateStats, whileWaiting, the_redis, the_mqtt,
    errors_grow.
  frame errors_not_less errors_refl errors_trans; lia.
Qed.

(** ** A cycle with the store down *)

(** C7: when the store connection reports not ready, a poll cycle returns
    normally without any publish call and leaves the service object, and
    with it errors, totalPublished and lastPublishTime, as they were; it
    leaves at most one warning in the log. The same holds for the timer's
    tick. *)
Theorem store_not_ready_skips_cycle :
  forall (c : Cycle) (w : World) (redis : RedisService.t),
    redisService (this w) = Some redis ->
    RedisService.isReady redis = false ->
    exists w',
      processSensorData c w = (Ok tt, w')
      /\ pollTick c w = (Ok tt, w')
      /\ publishCalls (trace w') = publishCalls (trace w)
      /\ this w' = this w
      /\ errors (stats (this w')) = errors (stats (this w))
      /\ totalPublished (stats (this w')) = totalPublished (stats (this w))
      /\ lastPublishTime (stats (this w')) = lastPublishTime (stats (this w))
      /\ (trace w' = trace w \/
          trace w' = trace w ++ [Logged warn "Redis未就緒，跳過此次處理"]).
Proof.
  intros c [s tr] redis Hr Hready. simpl in Hr.
  unfold pollTick, processSensorData, the_redis.
  unfold Eff.try_catch, Eff.bind, Eff.gets. simpl.
  destruct (isRunning s); simpl.
  - rewrite Hr. simpl. rewrite Hready. simpl.
    eexists. repeat split.
    + simpl. apply PublisherProps.publishCalls_logged.
    + right. reflexivity.
  - eexists. repeat split. left. reflexivity.
Qed.

Lemma store_not_ready_skips_cycle_witness :
  exists w',
    pollTick (Sample.cycleWith [Sample.reading "S1" 1] Sample.goodBus)
             (Sample.world Sample.downStore) = (Ok tt, w')
    /\ publishCalls (trace w') = []
    /\ stats (this w') = stats (this (Sample.world Sample.downStore)).
Proof.
  destruct (store_not_ready_skips_cycle
              (Sample.cycleWith [Sample.reading "S1" 1] Sample.goodBus)
              (Sample.world Sample.downStore) Sample.downStore eq_refl eq_refl)
    as (w' & _ & Htick & Hcalls & Hthis & _).
  exists w'. split; [exact Htick|]. split; [exact Hcalls|].
  now rewrite Hthis.
Defined.

(** ** Errors inside a cycle *)

Ltac no_throws :=
  repeat first
    [ apply no_throw_updateStats
    | apply no_throw_log
    | apply no_throw_ret
    | apply no_throw_set_this
    | apply no_throw_bind; [|intro] ].

(** Follow a computation up to where it can throw. *)
Ltac thrown :=
  repeat first
    [ apply (on_throw_no_throw stats_kept); solve [no_throws]
    | apply (on_throw_keeps stats_kept);
        solve [frame stats_kept stats_refl stats_trans; reflexivity]
    | apply (on_throw_bind stats_kept stats_trans);
        [solve [frame stats_kept stats_refl stats_trans; reflexivity] | intro]
    | match goal with
      | |- on_throw _ (if ?c then _ else _) => destruct c
      | |- on_throw _ (match ?x with _ => _ end) => destruct x
      end
    | progress cbv zeta ].

(** A cycle that throws has counted its error once and touched nothing
    else of the statistics. *)
Lemma processSensorData_throw (c : Cycle) (w w1 : World) (e : JsError) :
  processSensorData c w = (Throw e, w1) ->
  stats (this w1) = add_errors 1 (stats (this w)).
Proof.
  unfold processSensorData, Eff.try_catch.
  match goal with
  | |- context [match ?body w with _ => _ end] =>
      assert (Hb : on_throw same_stats body)
  end.
  { unfold same_stats, whileWaiting, the_redis, the_mqtt. thrown. }
  match type of Hb with on_throw _ ?body => destruct (body w) as [[a|e0] w0] eqn:Eb end;
    [discriminate|].
  specialize (Hb w e0 w0 Eb). unfold same_stats, on_this, stats_kept in Hb.
  unfold Eff.bind, outside, Eff.lift, set_this, Eff.modify, Eff.throw, log, emit. simpl.
  intro H. injection H as _ <-. simpl. now rewrite Hb.
Qed.

Lemma pollTick_returns (c : Cycle) (w : World) :
  exists w', pollTick c w = (Ok tt, w').
Proof.
  unfold pollTick, Eff.try_catch.
  destruct (processSensorData c w) as [[[]|e] w1]; eexists; reflexivity.
Qed.

Lemma runTimer_returns (cycles : list Cycle) :
  forall w, exists w',
    runTimer cycles w = (Ok tt, w') /\ same_schedule w w' /\ errors_grow w w'.
Proof.
  induction cycles as [|c cs IH]; intro w.
  - exists w. split; [reflexivity|]. split; [apply schedule_refl | apply errors_refl].
  - destruct (pollTick_returns c w) as [w1 H1].
    destruct (IH w1) as (w2 & H2 & Hs & He).
    exists w2. simpl. unfold Eff.bind. rewrite H1. split; [exact H2|].
    pose proof (pollTick_schedule c w) as Hs1.
    pose proof (pollTick_errors_grow c w) as He1.
    rewrite H1 in Hs1, He1. simpl in Hs1, He1.
    split; [eapply schedule_trans | eapply errors_trans]; eassumption.
Qed.

(** C8: the timer's tick always returns normally and leaves the timer
    armed and the running flag as they were; when processSensorData throws,
    the tick catches the error, logs it and adds one to the error count
    that processSensorData had itself already raised by one; so a run of
    the timer over any sequence of cycles, failing or not, completes every
    tick with the timer still armed and an error count that never drops. *)
Theorem poll_tick_survives_errors :
  (forall (c : Cycle) (w : World),
      exists w', pollTick c w = (Ok tt, w') /\ same_schedule w w')
  /\ (forall (c : Cycle) (w w1 : World) (e : JsError),
         processSensorData c w = (Throw e, w1) ->
         exists w',
           pollTick c w = (Ok tt, w')
           /\ trace w' = trace w1 ++ [Logged error "定期輪詢時發生錯誤:"]
           /\ errors (stats (this w')) = errors (stats (this w1)) + 1
           /\ errors (stats (this w')) = errors (stats (this w)) + 2
           /\ totalPublished (stats (this w')) = totalPublished (stats (this w))
           /\ lastPublishTime (stats (this w')) = lastPublishTime (stats (this w)))
  /\ (forall (cycles : list Cycle) (w : World),
         exists w', runTimer cycles w = (Ok tt, w')
                    /\ same_schedule w w' /\ errors_grow w w').
Proof.
  split; [|split].
  - intros c w. destruct (pollTick_returns c w) as [w' H].
    exists w'. split; [exact H|].
    pose proof (pollTick_schedule c w) as Hs. now rewrite H in Hs.
  - intros c w w1 e H.
    pose proof (processSensorData_throw c w w1 e H) as Hst.
    unfold pollTick, Eff.try_catch. rewrite H.
    eexists. split; [reflexivity|]. simpl.
    rewrite Hst. simpl. repeat split; lia.
  - intros cycles w. apply runTimer_returns.
Qed.

Lemma poll_tick_survives_errors_witness :
  exists e w1 w',
    processSensorData (mkCycle Sample.brokenStore [] Sample.goodBus)
                      (Sample.world Sample.readyStore) = (Throw e, w1)
    /\ pollTick (mkCycle Sample.brokenStore [] Sample.goodBus)
                (Sample.world Sample.readyStore) = (Ok tt, w')
    /\ errors (stats (this w')) = 3 + 2.
Proof.
  set (c := mkCycle Sample.brokenStore [] Sample.goodBus).
  set (w := Sample.world Sample.readyStore).
  assert (H : exists e w1, processSensorData c w = (Throw e, w1)).
  { eexists. eexists. reflexivity. }
  destruct H as (e & w1 & H).
  destruct (proj1 (proj2 poll_tick_survives_errors) c w w1 e H)
    as (w' & Htick & _ & _ & Herr & _).
  exists e, w1, w'. split; [exact H|]. split; [exact Htick | exact Herr].
Defined.

(** ** A cycle that publishes *)

Lemma bind_ok {S A B} (m : Eff.M S A) (k : A -> Eff.M S B) (s s1 : S) (a : A) :
  m s = (Ok a, s1) -> Eff.bind m k s = k a s1.
Proof. intro H. unfold Eff.bind. now rewrite H. Qed.

Lemma handle_total (b : MqttService.Broker) (ev : MqttService.ClientEvent)
    (m : MqttService.t) (t : Trace) :
  exists m' t', MqttService.handle b ev m t = (Ok m', t').
Proof.
  unfold MqttService.handle.
  destruct (MqttService.kind ev);
    unfold MqttService.startManualReconnect, MqttService.stopManualReconnect,
      MqttService.publishStatus, MqttService.publish, Eff.bind, log, emit, Eff.modify,
      Eff.ret, Eff.gets; simpl;
    repeat match goal with
           | |- context [if ?c then _ else _] => destruct c; simpl
           | |- context [match MqttService.answer ?b ?n ?c with _ => _ end] =>
               destruct (MqttService.answer b n c); simpl
           end;
    eexists; eexists; reflexivity.
Qed.

Lemma handleAll_total (b : MqttService.Broker) (evs : list MqttService.ClientEvent) :
  forall (m : MqttService.t) (t : Trace),
  exists m' t',
    MqttService.handleAll b evs m t = (Ok m', t') /\ (evs = [] -> m' = m).
Proof.
  induction evs as [|ev evs IH]; intros m t.
  - exists m, t. split; reflexivity.
  - destruct (handle_total b ev m t) as (m1 & t1 & H1).
    destruct (IH m1 t1) as (m2 & t2 & H2 & _).
    exists m2, t2. simpl. rewrite (bind_ok _ _ _ _ _ H1).
    split; [exact H2 | discriminate].
Qed.

Lemma getSensorData_ok (redis : RedisService.t) (st : RedisService.Store)
    (text : jsstring) (raw : JsVal) (t : Trace) :
  RedisService.isReady redis = true ->
  RedisService.get_reply st = Ok (Some text) -> text <> [] ->
  RedisService.JSON_parse st text = Ok raw -> raw <> JNull -> raw <> JUndefined ->
  exists t', RedisService.getSensorData redis st t = (Ok raw, t')
             /\ publishCalls t' = publishCalls t.
Proof.
  intros Hready Hget Htext Hparse Hnull Hundef.
  unfold RedisService.isReady in Hready.
  apply andb_true_iff in Hready. destruct Hready as [Hc Hcl].
  unfold RedisService.getSensorData, Eff.try_catch, Eff.bind, Eff.of_result.
  rewrite Hc. destruct (RedisService.client redis); [|discriminate]. simpl.
  rewrite Hget. destruct text as [|u text]; [congruence|].
  rewrite Hparse.
  destruct raw; try congruence; simpl; eexists;
    (split; [reflexivity | apply PublisherProps.publishCalls_logged]).
Qed.

Lemma processAndFormat_nonempty (now : SensorProcessor.Time) (raw : JsVal) :
  SensorProcessor.processAndFormat now raw <> [] -> nothing_read raw = false.
Proof.
  unfold SensorProcessor.processAndFormat, SensorProcessor.processSensorData.
  destruct raw as [| | | | |items|]; try (intro H; now elim H).
  destruct items; [intro H; now elim H | reflexivity].
Qed.

Lemma filter_length_le {A} (f : A -> bool) (l : list A) :
  (List.length (filter f l) <= List.length l)%nat.
Proof.
  induction l as [|a l IH]; simpl; [lia|]. destruct (f a); simpl; lia.
Qed.

Lemma filter_all {A} (f : A -> bool) (l : list A) :
  Forall (fun a => f a = true) l -> filter f l = l.
Proof.
  induction 1 as [|a l Ha _ IH]; simpl; [reflexivity|]. now rewrite Ha, IH.
Qed.

Lemma filter_none {A} (f : A -> bool) (l : list A) :
  Forall (fun a => f a = false) l -> filter f l = [].
Proof.
  induction 1 as [|a l Ha _ IH]; simpl; [reflexivity|]. now rewrite Ha.
Qed.

(** What updateStats leaves in the statistics. *)
Lemma updateStats_run (now : SensorProcessor.Time) (n : Z)
    (results : list MqttService.Settled) (w : World) :
  exists w',
    updateStats now n results w = (Ok tt, w')
    /\ trace w' = trace w
    /\ totalPublished (stats (this w')) = totalPublished (stats (this w)) + n
    /\ lastPublishTime (stats (this w')) = Some now
    /\ errors (stats (this w')) =
         errors (stats (this w))
         + Z.of_nat (List.length (filter MqttService.is_failed results)).
Proof.
  unfold updateStats, Eff.bind, set_this, Eff.modify, Eff.ret. simpl.
  destruct (0 <? Z.of_nat (List.length (filter MqttService.is_failed results))) eqn:E;
    eexists; (split; [reflexivity|]); simpl; repeat split.
  apply Z.ltb_ge in E. lia.
Qed.





End PipelineProps.

(** * Further properties of the sensor normaliser and the catalogue *)

Module NormalizerMore.
Import Js SensorProcessor Spec Notions.
Local Open Scope string_scope.
Local Open Scope list_scope.
Local Open Scope Z_scope.

Lemma kept_iff (now : Time) (v : JsVal) :
  (kept v = true -> processSingleSensor now v = Some (normalised now v))
  /\ (kept v = false -> processSingleSensor now v = None).
Proof.
  split; intro H.
  - apply NormalizerProps.processSingleSensor_some.
    destruct v; try discriminate. simpl in H.
    apply andb_true_iff in H. destruct H as [H1 H2].
    exists fields. repeat split; assumption.
  - destruct (processSingleSensor now v) as [s|] eqn:E; [|reflexivity].
    apply NormalizerProps.processSingleSensor_some in E.
    destruct E as (fs & -> & H1 & H2 & _). simpl in H.
    rewrite H1, H2 in H. discriminate.
Qed.

Lemma dropNulls_filter_map (now : Time) (items : list JsVal) :
  dropNulls (map (processSingleSensor now) items)
  = map (normalised now) (filter kept items).
Proof.
  induction items as [|v items IH]; [reflexivity|]. simpl.
  destruct (kept v) eqn:E.
  - rewrite (proj1 (kept_iff now v) E). simpl. now rewrite IH.
  - rewrite (proj2 (kept_iff now v) E). exact IH.
Qed.

Lemma processSensorData_eq (now : Time) (v : JsVal) :
  processSensorData now v =
    match v with
    | JArr items => map (normalised now) (filter kept items)
    | _ => []
    end.
Proof. destruct v; try reflexivity. apply dropNulls_filter_map. Qed.

Lemma in_processSensorData (now : Time) (v : JsVal) (s : Sensor) :
  In s (processSensorData now v) ->
  exists x, kept x = true /\ s = normalised now x.
Proof.
  rewrite processSensorData_eq. destruct v; try contradiction.
  intro Hin. apply in_map_iff in Hin. destruct Hin as (x & <- & Hx).
  apply filter_In in Hx. destruct Hx as [_ Hk]. now exists x.
Qed.

Lemma kept_fields (now : Time) (x : JsVal) :
  kept x = true ->
  truthy (SN (normalised now x)) = true /\ truthy (ADDRESS (normalised now x)) = true.
Proof.
  destruct x; try discriminate. simpl.
  intro Hk. apply andb_true_iff in Hk. exact Hk.
Qed.

(** X1: normalising an array keeps, in order, exactly the items that are
    objects with a truthy SN and a truthy ADDRESS, each turned into its
    sensor; anything that is not an array gives the empty list; so the
    result is never longer than the input and every sensor in it carries
    both fields and a status. *)
Theorem processSensorData_keeps_valid_items :
  forall (now : Time) (v : JsVal),
    processSensorData now v =
      match v with
      | JArr items => map (normalised now) (filter kept items)
      | _ => []
      end
    /\ (forall items, v = JArr items ->
          (List.length (processSensorData now v) <= List.length items)%nat)
    /\ (forall s, In s (processSensorData now v) ->
          truthy (SN s) = true /\ truthy (ADDRESS s) = true /\ status s <> None).
Proof.
  intros now v. split; [apply processSensorData_eq|]. split.
  - intros items ->. rewrite processSensorData_eq, length_map.
    apply PipelineProps.filter_length_le.
  - intros s Hin.
    destruct (in_processSensorData now v s Hin) as (x & Hk & ->).
    destruct (kept_fields now x Hk) as [H1 H2].
    repeat split; try assumption. discriminate.
Qed.

(** *** Formatting *)

Lemma formatValue_processed (pv : ProcessedValue) :
  formatValue (Processed pv) =
  Ok {| sv_id := pv_id pv; sv_name := JStr (pv_name pv); sv_type := JStr (pv_type pv);
        sv_code := pv_code pv;
        sv_range := {| r_min := num_val (pv_min pv); r_max := num_val (pv_max pv);
                       r_valid := JBool (range_valid pv) |};
        calculation := pv_calc pv |}.
Proof. reflexivity. Qed.

Lemma formatValue_unreadable (e : ValueEntry) :
  unreadable e = true -> exists err, formatValue e = Throw err.
Proof.
  destruct e as [pv|raw]; [discriminate|].
  destruct raw; try discriminate; intros _; eexists; reflexivity.
Qed.

(** The value list of a normalized reading formats exactly when it holds
    no raw item; the formatted list has one entry per value. *)
Lemma mapM_formatValue (vs : list ValueEntry) :
  (forall e, In e vs -> unreadable e = true \/ exists pv, e = Processed pv) ->
  if existsb unreadable vs
  then exists err, mapM formatValue vs = Throw err
  else exists svs, mapM formatValue vs = Ok svs
                   /\ List.length svs = List.length vs
                   /\ Forall2 (fun e sv => exists pv, e = Processed pv
                                 /\ sv_type sv = JStr (pv_type pv)
                                 /\ r_valid (sv_range sv) = JBool (range_valid pv)
                                 /\ r_min (sv_range sv) = num_val (pv_min pv)
                                 /\ r_max (sv_range sv) = num_val (pv_max pv)
                                 /\ sv_code sv = pv_code pv) vs svs.
Proof.
  induction vs as [|e vs IH]; intro Hent.
  - simpl. exists []. repeat split. constructor.
  - assert (Hrest : forall e', In e' vs ->
                      unreadable e' = true \/ exists pv, e' = Processed pv)
      by (intros e' He'; apply Hent; now right).
    specialize (IH Hrest). simpl existsb.
    destruct (Hent e (or_introl eq_refl)) as [Hu | [pv ->]].
    + rewrite Hu. simpl. destruct (formatValue_unreadable e Hu) as [err Herr].
      exists err. simpl. now rewrite Herr.
    + change (unreadable (Processed pv)) with false. simpl orb.
      change (mapM formatValue (Processed pv :: vs))
        with (rbind (formatValue (Processed pv))
                (fun b => rbind (mapM formatValue vs) (fun bs => Ok (b :: bs)))).
      rewrite formatValue_processed. unfold rbind at 1.
      destruct (existsb unreadable vs).
      * destruct IH as [err ->]. exists err. reflexivity.
      * destruct IH as (svs & -> & Hlen & Hall). simpl.
        eexists. split; [reflexivity|]. split; [simpl; now rewrite Hlen|].
        constructor; [|exact Hall].
        exists pv. repeat split.
Qed.



(** X3: every reading that processAndFormat hands to the publisher is
    published under the truthy serial number of its sensor: the fallbacks
    to the address and to unknown_device are never taken for it. *)
Theorem processAndFormat_named_by_serial :
  forall (now : Time) (raw : JsVal) (d : MqttData),
    In d (processAndFormat now raw) ->
    exists s,
      In s (processSensorData now raw)
      /\ d = formatForMqtt s
      /\ truthy (SN s) = true
      /\ Frame.nameOf d = Bus.Named (SN s).
Proof.
  intros now raw d Hin. unfold processAndFormat in Hin.
  apply in_map_iff in Hin. destruct Hin as (s & <- & Hs).
  destruct (in_processSensorData now raw s Hs) as (x & Hk & Hx).
  assert (Hsn : truthy (SN s) = true)
    by (rewrite Hx; apply (kept_fields now x Hk)).
  exists s. split; [exact Hs|]. split; [reflexivity|]. split; [exact Hsn|].
  unfold formatForMqtt.
  destruct (mapM formatValue (value s)); simpl; now rewrite Hsn.
Qed.

Lemma processAndFormat_named_by_serial_witness :
  exists d s,
    In d (processAndFormat 0
            (JArr [rawReading "S1" 1 [rawValue "A" (JNum (of_Z (-1))) (JNum (of_Z 60))]]))
    /\ d = formatForMqtt s
    /\ Frame.nameOf d = Bus.Named (JStr (js "S1")).
Proof.
  set (raw := JArr [rawReading "S1" 1 [rawValue "A" (JNum (of_Z (-1))) (JNum (of_Z 60))]]).
  assert (H : exists d, In d (processAndFormat 0 raw)
                        /\ Frame.nameOf d = Bus.Named (JStr (js "S1"))).
  { eexists. split; [left; reflexivity | reflexivity]. }
  destruct H as (d & Hin & Hname).
  destruct (processAndFormat_named_by_serial 0 raw d Hin) as (s & _ & Hd & _).
  exists d, s. split; [exact Hin|]. split; [exact Hd | exact Hname].
Defined.

(** *** Escaped text *)

Lemma hexDigit_ok (n : Z) :
  0 <= n < 16 -> isHexDigit (hexDigit n) = true /\ hexValue (hexDigit n) = n.
Proof.
  intro H.
  assert (Hk : exists k : nat, (k < 16)%nat /\ n = Z.of_nat k)
    by (exists (Z.to_nat n); lia).
  destruct Hk as (k & Hk & ->). clear H.
  do 16 (destruct k as [|k]; [split; reflexivity|]).
  lia.
Qed.

Lemma isEscape_escapeByte (b : Z) :
  isByte b ->
  isEscape 92 120 (hexDigit (b / 16)) (hexDigit (b mod 16)) = true
  /\ 16 * hexValue (hexDigit (b / 16)) + hexValue (hexDigit (b mod 16)) = b.
Proof.
  intros [Hlo Hhi].
  assert (H1 : 0 <= b / 16 < 16)
    by (split; [apply Z.div_pos; lia | apply Z.div_lt_upper_bound; lia]).
  assert (H2 : 0 <= b mod 16 < 16) by (apply Z.mod_pos_bound; lia).
  destruct (hexDigit_ok _ H1) as [Hd1 Hv1].
  destruct (hexDigit_ok _ H2) as [Hd2 Hv2].
  split.
  - unfold isEscape. now rewrite Hd1, Hd2.
  - rewrite Hv1, Hv2. symmetry. apply Z.div_mod. lia.
Qed.

Lemma replaceEscapes_escapeBytes (bs : list Z) :
  Forall isByte bs -> replaceEscapes (escapeBytes bs) = bs.
Proof.
  induction 1 as [|b bs Hb _ IH]; [reflexivity|].
  destruct (isEscape_escapeByte b Hb) as [He Hv].
  change (escapeBytes (b :: bs))
    with (92 :: 120 :: hexDigit (b / 16) :: hexDigit (b mod 16) :: escapeBytes bs).
  cbn [replaceEscapes]. rewrite He, Hv. now rewrite IH.
Qed.

Lemma latin1_bytes_id (bs : list Z) :
  Forall isByte bs -> latin1_bytes bs = bs.
Proof.
  induction 1 as [|b bs Hb _ IH]; [reflexivity|].
  simpl. rewrite IH. f_equal.
  change 255 with (Z.ones 8). rewrite Z.land_ones by lia.
  apply Z.mod_small. exact Hb.
Qed.

Lemma utf8_ascii (bs : list Z) :
  Forall (fun b => 0 <= b < 128) bs -> utf8_to_string bs = bs.
Proof.
  unfold utf8_to_string.
  induction 1 as [|b bs Hb _ IH]; [reflexivity|].
  simpl. unfold lead.
  destruct (Z.leb_spec b 127); [|lia]. simpl. now rewrite IH.
Qed.

(** X4: a non-empty sequence of bytes written out as legacy escapes decodes
    to the UTF-8 reading of those bytes; when all the bytes are ASCII, the
    escaped text decodes back to the bytes themselves. *)
Theorem decodeUTF8_of_escaped_bytes :
  forall bs : list Z,
    bs <> [] -> Forall isByte bs ->
    hasEscape (escapeBytes bs) = true
    /\ decodeUTF8 (JStr (escapeBytes bs)) = utf8_to_string bs
    /\ (Forall (fun b => 0 <= b < 128) bs -> decodeUTF8 (JStr (escapeBytes bs)) = bs).
Proof.
  intros bs Hne Hbytes.
  assert (Hesc : hasEscape (escapeBytes bs) = true).
  { destruct bs as [|b bs]; [congruence|].
    inversion Hbytes as [|? ? Hb _]; subst.
    destruct (isEscape_escapeByte b Hb) as [He _].
    change (escapeBytes (b :: bs))
      with (92 :: 120 :: hexDigit (b / 16) :: hexDigit (b mod 16) :: escapeBytes bs).
    cbn [hasEscape]. now rewrite He. }
  assert (Hdec : decodeUTF8 (JStr (escapeBytes bs)) = utf8_to_string bs).
  { simpl. unfold decodeString.
    destruct (escapeBytes bs) eqn:E; [discriminate|].
    rewrite Hesc. simpl negb. cbv iota. rewrite <- E.
    now rewrite replaceEscapes_escapeBytes, latin1_bytes_id. }
  split; [exact Hesc|]. split; [exact Hdec|].
  intro Hascii. rewrite Hdec. now apply utf8_ascii.
Qed.

Lemma decodeUTF8_of_escaped_bytes_witness :
  escapeBytes [229; 190; 140; 230; 186; 171; 229; 186; 166]
    = js "\xe5\xbe\x8c\xe6\xba\xab\xe5\xba\xa6"
  /\ decodeUTF8 (JStr (escapeBytes [229; 190; 140; 230; 186; 171; 229; 186; 166]))
     = js "後溫度".
Proof.
  split; [reflexivity|].
  assert (Hne : [229; 190; 140; 230; 186; 171; 229; 186; 166] <> []) by discriminate.
  assert (Hb : Forall isByte [229; 190; 140; 230; 186; 171; 229; 186; 166])
    by (repeat constructor; unfold isByte; lia).
  exact (proj1 (proj2 (decodeUTF8_of_escaped_bytes _ Hne Hb))).
Defined.

(** *** The catalogue *)

Lemma find_some_first {A} (f : A -> bool) (l : list A) (a : A) :
  find f l = Some a -> f a = true /\ In a l.
Proof. intro H. apply find_some in H. tauto. Qed.

(** X8: a lookup in the unit catalogue by code or by name returns an entry
    with that code or name, and every entry of the catalogue is the one
    found under its own code and under its own name: no entry is shadowed
    by an earlier one. *)
Theorem unit_lookup_round_trip :
  (forall c u, Unit.getUnitByCode c = Some u -> c = JStr (Unit.code u) /\ In u Unit.unit)
  /\ (forall n u, UnitNames.getUnitByName n = Some u ->
                  n = JStr (Unit.name u) /\ In u Unit.unit)
  /\ (forall u, In u Unit.unit ->
                Unit.getUnitByCode (JStr (Unit.code u)) = Some u
                /\ UnitNames.getUnitByName (JStr (Unit.name u)) = Some u).
Proof.
  assert (Heqb : forall a b, jsstring_eqb a b = true -> a = b).
  { induction a as [|x a IH]; destruct b as [|y b]; simpl; try discriminate;
      [reflexivity|].
    intro H. apply andb_true_iff in H. destruct H as [Hxy Hab].
    apply Z.eqb_eq in Hxy. f_equal; [exact Hxy | now apply IH]. }
  split; [|split].
  - intros c u H. apply find_some_first in H. destruct H as [Hc Hin].
    split; [|exact Hin]. destruct c; try discriminate.
    simpl in Hc. f_equal. symmetry. now apply Heqb.
  - intros n u H. apply find_some_first in H. destruct H as [Hn Hin].
    split; [|exact Hin]. destruct n; try discriminate.
    simpl in Hn. f_equal. symmetry. now apply Heqb.
  - intros u Hin.
    assert (Hall : Forall (fun u => Unit.getUnitByCode (JStr (Unit.code u)) = Some u
                                    /\ UnitNames.getUnitByName (JStr (Unit.name u)) = Some u)
                          Unit.unit).
    { repeat constructor. }
    rewrite Forall_forall in Hall. now apply Hall.
Qed.

End NormalizerMore.

(** * Further properties of the retry policy and the publisher *)

Module PublisherMore.
Import Js Bus MqttService Frame Notions.
Local Open Scope string_scope.
Local Open Scope list_scope.
Local Open Scope Z_scope.

(** X5: whenever the retry policy returns a delay, the delay is exactly
    100 ms per attempt and at most 1000 ms, so the cap of 3000 ms never
    binds; the delay does not decrease from one attempt to a later one. *)
Theorem retry_delay_is_linear :
  forall (o : RedisService.RetryOptions) (ms : Z),
    RedisService.retry_strategy o = RedisService.ReturnDelay ms ->
    ms = RedisService.attempt o * 100
    /\ ms <= 1000
    /\ RedisService.attempt o <= 10
    /\ (forall o' ms',
          RedisService.retry_strategy o' = RedisService.ReturnDelay ms' ->
          RedisService.attempt o <= RedisService.attempt o' -> ms <= ms').
Proof.
  assert (Hlin : forall o ms,
             RedisService.retry_strategy o = RedisService.ReturnDelay ms ->
             ms = RedisService.attempt o * 100 /\ RedisService.attempt o <= 10).
  { intros o ms. unfold RedisService.retry_strategy.
    destruct (RedisService.refused o); [discriminate|].
    destruct (_ >? _); [discriminate|].
    rewrite Z.gtb_ltb.
    destruct (Z.ltb_spec 10 (RedisService.attempt o)) as [Hgt|Hle]; [discriminate|].
    intro E. injection E as <-. lia. }
  intros o ms H. destruct (Hlin o ms H) as [-> Hle].
  repeat split; try lia.
  intros o' ms' H' Hatt. destruct (Hlin o' ms' H') as [-> _]. lia.
Qed.

Lemma retry_delay_is_linear_witness :
  RedisService.retry_strategy (RedisService.mkOptions None 60000 10)
    = RedisService.ReturnDelay 1000
  /\ 1000 = 10 * 100.
Proof.
  split; [reflexivity|].
  exact (proj1 (retry_delay_is_linear (RedisService.mkOptions None 60000 10) 1000 eq_refl)).
Defined.

(** *** A batch, result by result *)

Lemma publishOne_connected (m : t) (b : Broker) (d : SensorProcessor.MqttData) (t : Trace) :
  not_connected m = false ->
  exists t',
    publishOne m b d t = (Ok (settledAs m b (List.length (publishCalls t)) d), t')
    /\ publishCalls t' = publishCalls t ++ [sensorCall m b d].
Proof.
  intro Hc. unfold publishOne.
  destruct (PublisherProps.deviceNameOf_run d t) as (t1 & Hn & Hcalls).
  unfold Eff.bind at 1. rewrite Hn.
  unfold Eff.try_catch at 1, Eff.bind at 1, publishSensorData.
  unfold Eff.bind at 1, Eff.try_catch at 1. rewrite Hc.
  unfold publish, settledAs. simpl. fold (sensorCall m b d). rewrite Hcalls.
  destruct (answer b (List.length (publishCalls t)) (sensorCall m b d)) as [e|];
    simpl; eexists; (split; [reflexivity|]);
    rewrite !PublisherProps.publishCalls_logged, PublisherProps.publishCalls_published;
    now rewrite Hcalls.
Qed.

Lemma publishOne_refused (m : t) (b : Broker) (d : SensorProcessor.MqttData) (t : Trace) :
  not_connected m = true ->
  exists t',
    publishOne m b d t = (Ok (refusedAs d), t') /\ publishCalls t' = publishCalls t.
Proof.
  intro Hc. unfold publishOne.
  destruct (PublisherProps.deviceNameOf_run d t) as (t1 & Hn & Hcalls).
  unfold Eff.bind at 1. rewrite Hn.
  unfold Eff.try_catch at 1, Eff.bind at 1, publishSensorData.
  unfold Eff.bind at 1, Eff.try_catch at 1. rewrite Hc. simpl.
  eexists. split; [reflexivity|].
  now rewrite !PublisherProps.publishCalls_logged.
Qed.

Lemma mapM_connected (m : t) (b : Broker) (data : list SensorProcessor.MqttData) :
  not_connected m = false ->
  forall t : Trace,
  exists t',
    Eff.mapM (publishOne m b) data t
      = (Ok (settledFrom m b (List.length (publishCalls t)) data), t')
    /\ publishCalls t' = publishCalls t ++ map (sensorCall m b) data.
Proof.
  intro Hc. induction data as [|d data IH]; intro t.
  - exists t. split; [reflexivity | now rewrite app_nil_r].
  - destruct (publishOne_connected m b d t Hc) as (t1 & H1 & Hc1).
    destruct (IH t1) as (t2 & H2 & Hc2).
    exists t2. simpl Eff.mapM.
    rewrite (PipelineProps.bind_ok _ _ _ _ _ H1).
    rewrite (PipelineProps.bind_ok _ _ _ _ _ H2).
    rewrite Hc1, length_app, Nat.add_1_r. split; [reflexivity|].
    rewrite Hc2, Hc1, <- app_assoc. reflexivity.
Qed.

Lemma mapM_refused (m : t) (b : Broker) (data : list SensorProcessor.MqttData) :
  not_connected m = true ->
  forall t : Trace,
  exists t',
    Eff.mapM (publishOne m b) data t = (Ok (map refusedAs data), t')
    /\ publishCalls t' = publishCalls t.
Proof.
  intro Hc. induction data as [|d data IH]; intro t.
  - exists t. split; reflexivity.
  - destruct (publishOne_refused m b d t Hc) as (t1 & H1 & Hc1).
    destruct (IH t1) as (t2 & H2 & Hc2).
    exists t2. simpl Eff.mapM.
    rewrite (PipelineProps.bind_ok _ _ _ _ _ H1).
    rewrite (PipelineProps.bind_ok _ _ _ _ _ H2).
    split; [reflexivity | congruence].
Qed.

Lemma batch_after_mapM (m : t) (b : Broker) (data : list SensorProcessor.MqttData)
    (t t1 : Trace) (rs : list Settled) :
  Eff.mapM (publishOne m b) data t = (Ok rs, t1) ->
  exists t', publishBatchSensorData m b data t = (Ok rs, t')
             /\ publishCalls t' = publishCalls t1.
Proof.
  intro H. unfold publishBatchSensorData.
  rewrite (PipelineProps.bind_ok _ _ _ _ _ H).
  destruct (0 <? _); eexists; (split; [reflexivity|]);
    apply PublisherProps.publishCalls_logged.
Qed.





End PublisherMore.

(** * Further properties of the client events and the poll cycle *)

Module PipelineMore.
Import Js Bus MqttPushService Frame Notions.
Local Open Scope string_scope.
Local Open Scope list_scope.
Local Open Scope Z_scope.

Lemma readingsSent_app (t1 t2 : Trace) :
  readingsSent (t1 ++ t2) = readingsSent t1 ++ readingsSent t2.
Proof.
  unfold readingsSent. rewrite PublisherProps.publishCalls_app. apply flat_map_app.
Qed.

Lemma readingsSent_calls (t t' : Trace) :
  publishCalls t' = publishCalls t -> readingsSent t' = readingsSent t.
Proof. unfold readingsSent. now intros ->. Qed.

Lemma readingsSent_sensorCalls (m : MqttService.t) (b : MqttService.Broker)
    (data : list SensorProcessor.MqttData) :
  flat_map (fun call => match carried call with Some d => [d] | None => [] end)
           (map (sensorCall m b) data) = data.
Proof. induction data as [|d data IH]; [reflexivity|]. simpl. now rewrite IH. Qed.

(** ** The client's events *)

(** What one handler does to the service and to the outside. *)
Lemma handle_facts (b : MqttService.Broker) (ev : MqttService.ClientEvent)
    (m m' : MqttService.t) (t t' : Trace) :
  MqttService.handle b ev m t = (Ok m', t') ->
  readingsSent t' = readingsSent t
  /\ MqttService.config m' = MqttService.config m
  /\ MqttService.reconnectInterval m' = MqttService.reconnectInterval m
  /\ (watchdog_ok m -> watchdog_ok m')
  /\ (drops (MqttService.kind ev) = true ->
        MqttService.isConnected m' = false
        /\ MqttService.isReady m' = false
        /\ publishCalls t' = publishCalls t
        /\ (watchdog_ok m ->
            MqttService.reconnectTimer m'
              = Some (MqttService.Interval (MqttService.reconnectInterval m))
            /\ MqttService.manualReconnectEnabled m' = true))
  /\ (MqttService.kind ev = MqttService.on_connect ->
        MqttService.isConnected m' = true
        /\ MqttService.reconnectAttempts m' = 0
        /\ MqttService.reconnectTimer m' = None
        /\ MqttService.manualReconnectEnabled m' = false
        /\ match MqttService.client m with
           | Some _ =>
               MqttService.isReady m' = MqttService.connected_now ev
               /\ publishCalls t' = publishCalls t ++ [statusCall m b (js "online")]
           | None => publishCalls t' = publishCalls t
           end)
  /\ (MqttService.kind ev = MqttService.on_reconnect ->
        MqttService.reconnectAttempts m' = MqttService.reconnectAttempts m + 1
        /\ MqttService.isConnected m' = MqttService.isConnected m
        /\ MqttService.reconnectTimer m' = MqttService.reconnectTimer m
        /\ publishCalls t' = publishCalls t).
Proof.
  unfold MqttService.handle, watchdog_ok.
  destruct m as [cfg cl conn att timer interval enabled].
  destruct ev as [k cn].
  destruct k, cl as [c|], enabled, timer as [[p]|];
    unfold MqttService.startManualReconnect, MqttService.stopManualReconnect,
      MqttService.publishStatus, MqttService.publish, Eff.bind, log, emit, Eff.modify,
      Eff.ret, Eff.gets, MqttService.isReady; simpl;
    repeat match goal with
           | |- context [match MqttService.answer ?b ?n ?c with _ => _ end] =>
               destruct (MqttService.answer b n c); simpl
           end;
    intro H; injection H as <- <-; simpl;
    unfold readingsSent, statusCall;
    rewrite ?PublisherProps.publishCalls_logged,
      ?PublisherProps.publishCalls_published,
      ?PublisherProps.publishCalls_logged; simpl;
    rewrite ?flat_map_app, ?app_nil_r; simpl; rewrite ?app_nil_r;
    repeat split; intros;
    repeat match goal with
           | H : _ /\ _ |- _ => destruct H
           | H : _ <-> _ |- _ => destruct H
           end;
    try discriminate; try congruence; try reflexivity; try tauto;
    try (exfalso; auto; fail);
    try match goal with
        | H : Some _ <> None -> false = true |- _ =>
            exfalso; assert (false = true) by (apply H; discriminate); discriminate
        | H : forall q, _ -> q = _ |- _ = _ :> Z => apply H; assumption
        | H : forall q, _ -> q = _ |- Some _ = Some _ =>
            rewrite (H _ eq_refl); reflexivity
        end.
Qed.

Lemma handle_client (b : MqttService.Broker) (ev : MqttService.ClientEvent)
    (m m' : MqttService.t) (t t' : Trace) :
  MqttService.handle b ev m t = (Ok m', t') ->
  MqttService.has_client m' = MqttService.has_client m.
Proof.
  unfold MqttService.handle.
  destruct m as [cfg cl conn att timer interval enabled].
  destruct ev as [k cn].
  destruct k, cl as [c|], enabled, timer as [[p]|];
    unfold MqttService.startManualReconnect, MqttService.stopManualReconnect,
      MqttService.publishStatus, MqttService.publish, Eff.bind, log, emit, Eff.modify,
      Eff.ret, Eff.gets; simpl;
    repeat match goal with
           | |- context [match MqttService.answer ?b ?n ?c with _ => _ end] =>
               destruct (MqttService.answer b n c); simpl
           end;
    intro H; injection H as <- <-; reflexivity.
Qed.

Lemma handleAll_facts (b : MqttService.Broker) (evs : list MqttService.ClientEvent) :
  forall (m m' : MqttService.t) (t t' : Trace),
    MqttService.handleAll b evs m t = (Ok m', t') ->
    readingsSent t' = readingsSent t
    /\ MqttService.config m' = MqttService.config m
    /\ MqttService.reconnectInterval m' = MqttService.reconnectInterval m
    /\ MqttService.has_client m' = MqttService.has_client m
    /\ (watchdog_ok m -> watchdog_ok m')
    /\ (evs = [] -> m' = m /\ t' = t).
Proof.
  induction evs as [|ev evs IH]; intros m m' t t' H.
  - injection H as <- <-. repeat (split; [reflexivity|]).
    split; [tauto | intros _; split; reflexivity].
  - simpl in H. unfold Eff.bind in H.
    destruct (MqttService.handle b ev m t) as [[m1|e] t1] eqn:E; [|discriminate].
    destruct (handle_facts _ _ _ _ _ _ E) as (Hr & Hc & Hi & Hw & _).
    pose proof (handle_client _ _ _ _ _ _ E) as Hcl.
    destruct (IH _ _ _ _ H) as (Hr' & Hc' & Hi' & Hcl' & Hw' & _).
    split; [congruence|]. split; [congruence|]. split; [congruence|].
    split; [congruence|]. split; [auto | discriminate].
Qed.

(** X9: from its construction on, whatever events the client raises, the
    publisher keeps its watchdog consistent: the timer is armed exactly
    while manual reconnection is enabled, with the configured period of
    20 s, and never while the service holds itself connected; the handlers
    never throw, never change the configuration and never send a reading. *)
Theorem watchdog_stays_consistent :
  forall (b : MqttService.Broker) (evs : list MqttService.ClientEvent)
         (cfg : MqttService.Config) (cl : option MqttService.Client) (t : Trace),
  exists m' t',
    MqttService.handleAll b evs (MqttService.set_client cl (newMqttService cfg)) t
      = (Ok m', t')
    /\ watchdog_ok m'
    /\ MqttService.config m' = cfg
    /\ MqttService.reconnectInterval m' = 20000
    /\ readingsSent t' = readingsSent t.
Proof.
  intros b evs cfg cl t.
  destruct (PipelineProps.handleAll_total b evs
              (MqttService.set_client cl (newMqttService cfg)) t) as (m' & t' & H & _).
  destruct (handleAll_facts _ _ _ _ _ _ H) as (Hr & Hc & Hi & _ & Hw & _).
  exists m', t'. split; [exact H|].
  split; [|split; [exact Hc | split; [exact Hi | exact Hr]]].
  apply Hw. unfold watchdog_ok. simpl.
  split; [split; [discriminate | intro Hn; now elim Hn]|].
  split; [discriminate | reflexivity].
Qed.

(** ** Skipped cycles *)

Lemma skip_when_bus_down (c : Cycle) (w : World)
    (redis : RedisService.t) (m : MqttService.t) :
  redisService (this w) = Some redis -> RedisService.isReady redis = true ->
  mqttService (this w) = Some m -> MqttService.isReady m = false ->
  exists w',
    processSensorData c w = (Ok tt, w')
    /\ this w' = this w
    /\ (trace w' = trace w \/
        trace w' = trace w ++ [Logged warn "MQTT未就緒，跳過此次處理"]).
Proof.
  intros Hr Hrr Hm Hmr. destruct w as [s tr]. simpl in Hr, Hm.
  unfold processSensorData, the_redis, the_mqtt.
  unfold Eff.try_catch, Eff.bind, Eff.gets. simpl.
  destruct (isRunning s); simpl.
  - rewrite Hr. simpl. rewrite Hrr. simpl. rewrite Hm. simpl. rewrite Hmr. simpl.
    eexists. split; [reflexivity|]. split; [reflexivity | right; reflexivity].
  - eexists. split; [reflexivity|]. split; [reflexivity | left; reflexivity].
Qed.

(** X10: when the bus connection reports not ready, a poll cycle, and so
    the timer's tick, returns normally without reading the store and
    without any publish call; the service object, its statistics included,
    stays as it was, and at most one warning is logged. *)
Theorem bus_not_ready_skips_cycle :
  forall (c : Cycle) (w : World) (redis : RedisService.t) (m : MqttService.t),
    redisService (this w) = Some redis -> RedisService.isReady redis = true ->
    mqttService (this w) = Some m -> MqttService.isReady m = false ->
    exists w',
      processSensorData c w = (Ok tt, w')
      /\ pollTick c w = (Ok tt, w')
      /\ this w' = this w
      /\ publishCalls (trace w') = publishCalls (trace w)
      /\ (trace w' = trace w \/
          trace w' = trace w ++ [Logged warn "MQTT未就緒，跳過此次處理"]).
Proof.
  intros c w redis m Hr Hrr Hm Hmr.
  destruct (skip_when_bus_down c w redis m Hr Hrr Hm Hmr) as (w' & H & Hthis & Htr).
  exists w'. split; [exact H|]. split.
  - unfold pollTick, Eff.try_catch. now rewrite H.
  - split; [exact Hthis|]. split; [|exact Htr].
    destruct Htr as [-> | ->]; [reflexivity|].
    apply PublisherProps.publishCalls_logged.
Qed.

Lemma bus_not_ready_skips_cycle_witness :
  exists w',
    pollTick (Sample.cycleWith [Sample.reading "S1" 1] Sample.goodBus)
      {| this := with_mqtt (MqttService.set_isConnected false Sample.connectedBus)
                   (Sample.service Sample.readyStore);
         trace := [] |} = (Ok tt, w')
    /\ publishCalls (trace w') = [].
Proof.
  destruct (bus_not_ready_skips_cycle
              (Sample.cycleWith [Sample.reading "S1" 1] Sample.goodBus)
              {| this := with_mqtt (MqttService.set_isConnected false Sample.connectedBus)
                           (Sample.service Sample.readyStore);
                 trace := [] |}
              Sample.readyStore (MqttService.set_isConnected false Sample.connectedBus)
              eq_refl eq_refl eq_refl eq_refl)
    as (w' & _ & Htick & _ & Hcalls & _).
  exists w'. split; [exact Htick | exact Hcalls].
Defined.

(** X11: an error, offline or close event makes the publisher not ready at
    once and, on a consistent watchdog, leaves the watchdog armed with the
    configured period; it sends nothing; and a poll cycle that meets the
    publisher in that state is skipped, leaving the service object as it
    was. A connect event on an existing client makes the publisher hold
    itself connected, resets the attempt count, disarms the watchdog and
    sends one retained online presence message; the publisher is then ready
    as soon as the client reports itself connected. *)
Theorem bus_drop_pauses_polling :
  forall (b : MqttService.Broker) (ev : MqttService.ClientEvent)
         (m m' : MqttService.t) (t t' : Trace),
    watchdog_ok m ->
    MqttService.handle b ev m t = (Ok m', t') ->
    (drops (MqttService.kind ev) = true ->
       MqttService.isReady m' = false
       /\ MqttService.reconnectTimer m'
          = Some (MqttService.Interval (MqttService.reconnectInterval m))
       /\ MqttService.manualReconnectEnabled m' = true
       /\ publishCalls t' = publishCalls t
       /\ forall (c : Cycle) (w : World) (redis : RedisService.t),
            mqttService (this w) = Some m' ->
            redisService (this w) = Some redis -> RedisService.isReady redis = true ->
            exists w', processSensorData c w = (Ok tt, w')
                       /\ this w' = this w
                       /\ publishCalls (trace w') = publishCalls (trace w))
    /\ (MqttService.kind ev = MqttService.on_connect ->
        MqttService.has_client m = true ->
        MqttService.isConnected m' = true
        /\ MqttService.reconnectAttempts m' = 0
        /\ MqttService.reconnectTimer m' = None
        /\ MqttService.manualReconnectEnabled m' = false
        /\ MqttService.isReady m' = MqttService.connected_now ev
        /\ publishCalls t' = publishCalls t ++ [statusCall m b (js "online")]).
Proof.
  intros b ev m m' t t' Hw H.
  destruct (handle_facts _ _ _ _ _ _ H) as (_ & _ & _ & _ & Hdrop & Hconn & _).
  split.
  - intro Hd. destruct (Hdrop Hd) as (_ & Hnr & Hcalls & Harm).
    destruct (Harm Hw) as [Htimer Hen].
    repeat split; try assumption.
    intros c w redis Hm Hr Hrr.
    destruct (skip_when_bus_down c w redis m' Hr Hrr Hm Hnr) as (w' & Hrun & Hthis & Htr).
    exists w'. split; [exact Hrun|]. split; [exact Hthis|].
    destruct Htr as [-> | ->]; [reflexivity|].
    apply PublisherProps.publishCalls_logged.
  - intros Hk Hcl. destruct (Hconn Hk) as (H1 & H2 & H3 & H4 & H5).
    unfold MqttService.has_client in Hcl.
    destruct (MqttService.client m); [|discriminate].
    destruct H5 as [H5 H6]. repeat split; assumption.
Qed.

Lemma bus_drop_pauses_polling_witness :
  exists m' t',
    MqttService.handle Sample.goodBus
      (MqttService.mkEvent MqttService.on_close false) Sample.connectedBus []
    = (Ok m', t')
    /\ MqttService.isReady m' = false
    /\ MqttService.reconnectTimer m' = Some (MqttService.Interval 20000).
Proof.
  assert (Hw : watchdog_ok Sample.connectedBus).
  { unfold watchdog_ok. simpl.
    split; [split; [discriminate | intro Hn; now elim Hn]|].
    split; [discriminate | reflexivity]. }
  assert (H : exists m' t',
             MqttService.handle Sample.goodBus
               (MqttService.mkEvent MqttService.on_close false) Sample.connectedBus []
             = (Ok m', t')).
  { eexists. eexists. reflexivity. }
  destruct H as (m' & t' & H).
  destruct (proj1 (bus_drop_pauses_polling _ _ _ _ _ _ Hw H) eq_refl)
    as (Hnr & Htimer & _).
  exists m', t'. split; [exact H|]. split; [exact Hnr | exact Htimer].
Defined.

(** ** Cycles that pass both checks *)

Lemma bind_ext {S A B} (m : Eff.M S A) (k k' : A -> Eff.M S B) (s : S) :
  (forall a s', k a s' = k' a s') -> Eff.bind m k s = Eff.bind m k' s.
Proof.
  intro H. unfold Eff.bind. destruct (m s) as [[a|e] s']; [apply H | reflexivity].
Qed.

(** Past the two readiness checks, a cycle is the read followed by
    [afterRead], under the catch branch, in the world the client's events
    have left. *)
Lemma cycle_unfold (c : Cycle) (w : World) (redis : RedisService.t) (mqtt : MqttService.t) :
  isRunning (this w) = true ->
  redisService (this w) = Some redis -> RedisService.isReady redis = true ->
  mqttService (this w) = Some mqtt -> MqttService.isReady mqtt = true ->
  exists m' t1,
    readingsSent t1 = readingsSent (trace w)
    /\ (busEvents c = [] -> m' = mqtt /\ t1 = trace w)
    /\ processSensorData c w =
         Eff.try_catch
           (Eff.bind (outside (RedisService.getSensorData redis (store c))) (afterRead c))
           cycleFailed
           {| this := with_mqtt m' (this w); trace := t1 |}.
Proof.
  intros Hrun Hr Hrr Hm Hmr.
  assert (S1 : Eff.gets (fun w => isRunning (this w)) w = (Ok true, w))
    by (unfold Eff.gets; now rewrite Hrun).
  assert (S2 : the_redis w = (Ok redis, w))
    by (unfold the_redis, Eff.bind, Eff.gets; now rewrite Hr).
  assert (S3 : the_mqtt w = (Ok mqtt, w))
    by (unfold the_mqtt, Eff.bind, Eff.gets; now rewrite Hm).
  destruct (PipelineProps.handleAll_total (broker c) (busEvents c) mqtt (trace w))
    as (m' & t1 & Hev & _).
  destruct (handleAll_facts _ _ _ _ _ _ Hev) as (Hsent & _ & _ & _ & _ & Hnone).
  assert (S4 : whileWaiting c w = (Ok tt, {| this := with_mqtt m' (this w); trace := t1 |})).
  { unfold whileWaiting, Eff.bind, Eff.gets, outside, Eff.lift. rewrite Hm, Hev.
    reflexivity. }
  exists m', t1. split; [exact Hsent|]. split; [exact Hnone|].
  unfold processSensorData, Eff.try_catch.
  rewrite (PipelineProps.bind_ok _ _ _ _ _ S1). change (negb true) with false. cbv iota.
  rewrite (PipelineProps.bind_ok _ _ _ _ _ S2). rewrite Hrr.
  change (negb true) with false. cbv iota.
  rewrite (PipelineProps.bind_ok _ _ _ _ _ S3). rewrite Hmr.
  change (negb true) with false. cbv iota.
  rewrite (PipelineProps.bind_ok _ _ _ _ _ S4).
  erewrite (bind_ext _ _ (afterRead c)); [reflexivity|].
  intros raw w2. unfold afterRead. destruct (nothing_read raw); [reflexivity|].
  cbv zeta.
  destruct (SensorProcessor.processAndFormat (MqttService.now (broker c)) raw);
    reflexivity.
Qed.

Lemma getSensorData_absent (redis : RedisService.t) (st : RedisService.Store) (t : Trace) :
  RedisService.isReady redis = true ->
  RedisService.get_reply st = Ok None \/ RedisService.get_reply st = Ok (Some []) ->
  RedisService.getSensorData redis st t
  = (Ok (JArr []), t ++ [Logged warn "Redis中未找到鍵: ${key}"]).
Proof.
  intros Hready Hget.
  unfold RedisService.isReady in Hready.
  apply andb_true_iff in Hready. destruct Hready as [Hc Hcl].
  unfold RedisService.getSensorData, Eff.try_catch, Eff.bind, Eff.of_result.
  rewrite Hc. destruct (RedisService.client redis); [|discriminate]. simpl.
  destruct Hget as [-> | ->]; reflexivity.
Qed.

Lemma getSensorData_fails (redis : RedisService.t) (st : RedisService.Store)
    (e : JsError) (t : Trace) :
  RedisService.isReady redis = true ->
  RedisService.get_reply st = Throw e
  \/ (exists text, RedisService.get_reply st = Ok (Some text) /\ text <> []
                   /\ RedisService.JSON_parse st text = Throw e) ->
  RedisService.getSensorData redis st t
  = (Throw e, t ++ [Logged error "讀取感測器資料失敗:"]).
Proof.
  intros Hready Hget.
  unfold RedisService.isReady in Hready.
  apply andb_true_iff in Hready. destruct Hready as [Hc Hcl].
  unfold RedisService.getSensorData, Eff.try_catch, Eff.bind, Eff.of_result.
  rewrite Hc. destruct (RedisService.client redis); [|discriminate]. simpl.
  destruct Hget as [-> | (text & -> & Htext & Hparse)]; [reflexivity|].
  destruct text; [congruence|]. now rewrite Hparse.
Qed.

Lemma outside_run {A} (m : Eff.M Trace A) (s : MqttPushService.t) (t t' : Trace)
    (r : result A) :
  m t = (r, t') ->
  outside m {| this := s; trace := t |} = (r, {| this := s; trace := t' |}).
Proof. intro H. unfold outside, Eff.lift. simpl. now rewrite H. Qed.



(** X13: a cycle that passes both checks and whose read fails (the store
    rejects the read, or the text under the key is not JSON) throws that
    very error, after logging it, counting it once in errors and leaving
    the other statistics as they were; it sends no reading. *)
Theorem failed_read_is_counted_and_rethrown :
  forall (c : Cycle) (w : World) (redis : RedisService.t) (mqtt : MqttService.t)
         (e : JsError),
    isRunning (this w) = true ->
    redisService (this w) = Some redis -> RedisService.isReady redis = true ->
    mqttService (this w) = Some mqtt -> MqttService.isReady mqtt = true ->
    RedisService.get_reply (store c) = Throw e
    \/ (exists text, RedisService.get_reply (store c) = Ok (Some text) /\ text <> []
                     /\ RedisService.JSON_parse (store c) text = Throw e) ->
    exists w1 t2,
      processSensorData c w = (Throw e, w1)
      /\ stats (this w1) = add_errors 1 (stats (this w))
      /\ readingsSent (trace w1) = readingsSent (trace w)
      /\ trace w1 = t2 ++ [Logged error "讀取感測器資料失敗:";
                           Logged error "處理感測器資料時發生錯誤:"].
Proof.
  intros c w redis mqtt e Hrun Hr Hrr Hm Hmr Hfail.
  destruct (cycle_unfold c w redis mqtt Hrun Hr Hrr Hm Hmr)
    as (m' & t1 & Hsent & _ & ->).
  pose proof (getSensorData_fails redis (store c) e t1 Hrr Hfail) as Hread.
  unfold Eff.try_catch, Eff.bind at 1.
  rewrite (outside_run _ _ _ _ _ Hread).
  eexists. exists t1. split; [reflexivity|]. simpl.
  split; [reflexivity|]. split.
  - rewrite <- Hsent. apply readingsSent_calls.
    now rewrite !PublisherProps.publishCalls_logged.
  - now rewrite <- app_assoc.
Qed.

Lemma failed_read_is_counted_and_rethrown_witness :
  exists w1,
    processSensorData (mkCycle Sample.brokenStore [] Sample.goodBus)
      (Sample.world Sample.readyStore) = (Throw (Error "Connection is closed"), w1)
    /\ errors (stats (this w1)) = 3 + 1
    /\ totalPublished (stats (this w1)) = 7.
Proof.
  destruct (failed_read_is_counted_and_rethrown
              (mkCycle Sample.brokenStore [] Sample.goodBus)
              (Sample.world Sample.readyStore) Sample.readyStore Sample.connectedBus
              (Error "Connection is closed")
              eq_refl eq_refl eq_refl eq_refl eq_refl (or_introl eq_refl))
    as (w1 & t2 & H & Hst & _).
  exists w1. split; [exact H|]. rewrite Hst. split; reflexivity.
Defined.

Lemma updateStats_mqtt (now : SensorProcessor.Time) (n : Z)
    (results : list MqttService.Settled) (w w' : World) :
  updateStats now n results w = (Ok tt, w') ->
  mqttService (this w') = mqttService (this w).
Proof.
  unfold updateStats, Eff.bind, set_this, Eff.modify, Eff.ret. simpl.
  destruct (0 <? _); intro H; injection H as <-; reflexivity.
Qed.

Lemma ready_is_connected (m : MqttService.t) :
  MqttService.isReady m = true -> MqttService.not_connected m = false.
Proof.
  unfold MqttService.isReady, MqttService.not_connected, MqttService.has_client.
  intro H. apply andb_true_iff in H. destruct H as [-> Hcl].
  destruct (MqttService.client m); [reflexivity | discriminate].
Qed.



(** ** The timer over many cycles *)

Lemma forward_refl (s : t) : moves_forward s s.
Proof. unfold moves_forward. repeat split; try reflexivity; try lia. tauto. Qed.

Lemma forward_trans (a b c : t) :
  moves_forward a b -> moves_forward b c -> moves_forward a c.
Proof.
  unfold moves_forward.
  intros (H1 & H2 & H3 & H4 & H5 & H6) (K1 & K2 & K3 & K4 & K5 & K6).
  repeat split; try congruence; try lia. auto.
Qed.

Lemma pollTick_forward (c : Cycle) : keeps (on_this moves_forward) (pollTick c).
Proof.
  unfold pollTick, processSensorData, updateStats, whileWaiting, the_redis, the_mqtt.
  PipelineProps.frame moves_forward forward_refl forward_trans;
    repeat split; try reflexivity; try lia; try tauto; discriminate.
Qed.


End PipelineMore.

(** * Properties of the shutdown *)

Module ShutdownProps.
Import Js Bus MqttPushService Frame Notions ServiceShutdown.
Local Open Scope string_scope.
Local Open Scope list_scope.
Local Open Scope Z_scope.

(** What disconnect does to the publisher and to the outside. *)
Lemma disconnect_run (m : MqttService.t) (b : MqttService.Broker) (t : Trace) :
  exists m1 t1,
    MqttShutdown.disconnect m b t = (Ok m1, t1)
    /\ MqttService.reconnectTimer m1 = None
    /\ MqttService.manualReconnectEnabled m1 = false
    /\ MqttService.isConnected m1 = MqttService.isConnected m
    /\ MqttService.client m1 = MqttService.client m
    /\ MqttService.config m1 = MqttService.config m
    /\ MqttService.reconnectInterval m1 = MqttService.reconnectInterval m
    /\ publishCalls t1 =
         publishCalls t ++
         (if MqttService.has_client m then [statusCall m b (js "offline")] else []).
Proof.
  unfold MqttShutdown.disconnect, MqttService.stopManualReconnect,
    MqttService.publishStatus, MqttService.publish, MqttService.has_client.
  destruct (MqttService.client m) as [cl|] eqn:Ecl.
  - unfold Eff.bind, Eff.gets, Eff.ret, log, emit, Eff.modify. simpl.
    match goal with
    | |- context [MqttService.answer b ?n ?call] =>
        destruct (MqttService.answer b n call)
    end;
      eexists; eexists; (split; [reflexivity|]); simpl;
      repeat (split; [reflexivity|]);
      rewrite !PublisherProps.publishCalls_app; simpl;
      rewrite !app_nil_r; reflexivity.
  - unfold Eff.bind, Eff.gets, Eff.ret, log, emit, Eff.modify. simpl.
    eexists; eexists; (split; [reflexivity|]); simpl.
    repeat (split; [reflexivity|]).
    rewrite !PublisherProps.publishCalls_app. simpl. now rewrite !app_nil_r.
Qed.

(** X16: disconnect never throws; it disarms the watchdog and, when there
    is a client, sends one retained offline presence message, but it does
    not mark the publisher disconnected; and a close, error or offline
    event handled after it (disconnect itself schedules the forced end of
    the client) marks the publisher disconnected, sends nothing, and arms
    the watchdog again with the configured period. *)
Theorem disconnect_then_close_rearms_watchdog :
  forall (m : MqttService.t) (b : MqttService.Broker) (t : Trace),
  exists m1 t1,
    MqttShutdown.disconnect m b t = (Ok m1, t1)
    /\ MqttService.reconnectTimer m1 = None
    /\ MqttService.manualReconnectEnabled m1 = false
    /\ MqttService.isConnected m1 = MqttService.isConnected m
    /\ publishCalls t1 =
         publishCalls t ++
         (if MqttService.has_client m then [statusCall m b (js "offline")] else [])
    /\ (forall ev m2 t2,
          drops (MqttService.kind ev) = true ->
          MqttService.handle b ev m1 t1 = (Ok m2, t2) ->
          MqttService.reconnectTimer m2
            = Some (MqttService.Interval (MqttService.reconnectInterval m))
          /\ MqttService.manualReconnectEnabled m2 = true
          /\ MqttService.isConnected m2 = false
          /\ publishCalls t2 = publishCalls t1).
Proof.
  intros m b t.
  destruct (disconnect_run m b t) as (m1 & t1 & H & Ht & He & Hc & _ & _ & Hi & Hp).
  exists m1, t1. split; [exact H|]. split; [exact Ht|]. split; [exact He|].
  split; [exact Hc|]. split; [exact Hp|].
  intros ev m2 t2 Hd Hev.
  assert (Hw : watchdog_ok m1).
  { unfold watchdog_ok. rewrite Ht, He.
    split; [split; [discriminate | intro Hn; now elim Hn]|].
    split; [discriminate | reflexivity]. }
  destruct (PipelineMore.handle_facts _ _ _ _ _ _ Hev) as (_ & _ & _ & _ & Hdrop & _).
  destruct (Hdrop Hd) as (Hconn & _ & Hcalls & Harm).
  destruct (Harm Hw) as [Htimer Hen].
  rewrite Hi in Htimer. repeat split; assumption.
Qed.

(** ** Stopping the service *)

Lemma closing_refl (w : World) : closing_keeps w w.
Proof. unfold closing_keeps. repeat split; reflexivity. Qed.

Lemma closing_trans (a b c : World) :
  closing_keeps a b -> closing_keeps b c -> closing_keeps a c.
Proof.
  unfold closing_keeps.
  intros (H1 & H2 & H3 & H4 & H5) (K1 & K2 & K3 & K4 & K5).
  repeat split; congruence.
Qed.

Lemma store_refl (s : t) : same_store s s.
Proof. unfold same_store. destruct (redisService s); tauto. Qed.

Lemma store_trans (a b c : t) : same_store a b -> same_store b c -> same_store a c.
Proof.
  unfold same_store.
  destruct (redisService a), (redisService b), (redisService c); tauto.
Qed.

Lemma closing_log (l : Level) (text : string) (w : World) :
  exists w', outside (log l text) w = (Ok tt, w')
             /\ closing_keeps w w' /\ redisService (this w') = redisService (this w).
Proof.
  eexists. split; [reflexivity|]. unfold closing_keeps. simpl.
  repeat split. apply PipelineMore.readingsSent_calls, PublisherProps.publishCalls_logged.
Qed.

(** Closing the bus connection. *)
Lemma closing_bus (sd : Shutdown) (mqtt : option MqttService.t) (w : World) :
  exists w',
    match mqtt with
    | Some m =>
        Eff.bind (outside (MqttShutdown.disconnect m (bus sd)))
                 (fun m' => set_this (with_mqtt m'))
    | None => Eff.ret tt
    end w = (Ok tt, w')
    /\ closing_keeps w w' /\ redisService (this w') = redisService (this w).
Proof.
  destruct mqtt as [m|];
    [|exists w; split; [reflexivity | split; [apply closing_refl | reflexivity]]].
  destruct w as [s t].
  destruct (disconnect_run m (bus sd) t) as (m1 & t1 & H & _ & _ & _ & _ & _ & _ & Hp).
  eexists. split.
  - rewrite (PipelineProps.bind_ok _ _ _ _ _ (PipelineMore.outside_run _ _ _ _ _ H)).
    reflexivity.
  - split; [|reflexivity]. unfold closing_keeps. simpl. repeat split.
    unfold readingsSent. rewrite Hp, flat_map_app.
    destruct (MqttService.has_client m); simpl; now rewrite app_nil_r.
Qed.

(** What a handler of the store client does. *)
Lemma store_handle_run (ev : RedisShutdown.ClientEvent) (r : RedisService.t) (t : Trace) :
  exists r' t',
    RedisShutdown.handle ev r t = (Ok r', t')
    /\ publishCalls t' = publishCalls t
    /\ (RedisService.client r = None <-> RedisService.client r' = None)
    /\ (RedisShutdown.kind ev = RedisShutdown.on_end ->
        RedisService.isConnected r' = false).
Proof.
  unfold RedisShutdown.handle.
  destruct (RedisShutdown.kind ev), (RedisService.client r) eqn:Ecl;
    (eexists; eexists; split; [reflexivity|]); simpl;
    rewrite ?Ecl;
    (split; [apply PublisherProps.publishCalls_logged|]);
    (split; [split; intro H; (discriminate H || reflexivity || exact H)|]);
    (reflexivity || discriminate).
Qed.

(** One arriving event. *)
Lemma arrive_run (sd : Shutdown) (a : Arrival) (w : World) :
  exists w', arrive sd a w = (Ok tt, w')
             /\ closing_keeps w w' /\ same_store (this w) (this w').
Proof.
  destruct w as [s t]. destruct a as [ev|ev]; unfold arrive, Eff.bind at 1, Eff.gets;
    cbn [this].
  - destruct (mqttService s) as [m|] eqn:Em;
      [|eexists; split; [reflexivity | split; [apply closing_refl | apply store_refl]]].
    destruct (PipelineProps.handle_total (bus sd) ev m t) as (m' & t' & H).
    destruct (PipelineMore.handle_facts _ _ _ _ _ _ H) as (Hsent & _).
    eexists. split.
    + rewrite (PipelineProps.bind_ok _ _ _ _ _ (PipelineMore.outside_run _ _ _ _ _ H)).
      reflexivity.
    + split; [unfold closing_keeps; simpl; repeat split; exact Hsent|].
      unfold same_store. simpl. destruct (redisService s); tauto.
  - destruct (redisService s) as [r|] eqn:Er;
      [|eexists; split; [reflexivity | split; [apply closing_refl | apply store_refl]]].
    destruct (store_handle_run ev r t) as (r' & t' & H & Hc & Hcl & _).
    eexists. split.
    + rewrite (PipelineProps.bind_ok _ _ _ _ _ (PipelineMore.outside_run _ _ _ _ _ H)).
      reflexivity.
    + split.
      * unfold closing_keeps. simpl. repeat split.
        now apply PipelineMore.readingsSent_calls.
      * unfold same_store. simpl. rewrite Er. exact Hcl.
Qed.

Lemma arriveAll_run (sd : Shutdown) (l : list Arrival) :
  forall w, exists w', arriveAll sd l w = (Ok tt, w')
                       /\ closing_keeps w w' /\ same_store (this w) (this w').
Proof.
  induction l as [|a l IH]; intro w.
  - exists w. split; [reflexivity|]. split; [apply closing_refl | apply store_refl].
  - destruct (arrive_run sd a w) as (w1 & H1 & K1 & S1).
    destruct (IH w1) as (w2 & H2 & K2 & S2).
    exists w2. split.
    + simpl. now rewrite (PipelineProps.bind_ok _ _ _ _ _ H1).
    + split; [eapply closing_trans | eapply store_trans]; eassumption.
Qed.

(** What the store's disconnect does to the store service. *)
Lemma store_disconnect_run (r : RedisService.t) (reply : result unit) (t : Trace) :
  exists r' t',
    RedisShutdown.disconnect r reply t = (Ok r', t')
    /\ publishCalls t' = publishCalls t
    /\ (RedisService.client r = None <-> RedisService.client r' = None)
    /\ (RedisService.client r = None -> r' = r)
    /\ (RedisService.client r <> None -> reply = Ok tt ->
        RedisService.isConnected r' = false /\ RedisService.isReady r' = false)
    /\ (forall e, reply = Throw e -> r' = r).
Proof.
  unfold RedisShutdown.disconnect, RedisShutdown.quit, RedisShutdown.handle,
    Eff.try_catch, Eff.bind, Eff.throw, Eff.ret, log, emit, Eff.modify.
  destruct (RedisService.client r) eqn:Ecl; [destruct reply as [[]|e]|]; simpl;
    (eexists; eexists; split; [reflexivity|]);
    (split; [rewrite ?PublisherProps.publishCalls_app; simpl;
             now rewrite ?app_nil_r|]);
    simpl; rewrite ?Ecl.
  - split; [split; discriminate|]. split; [discriminate|].
    split; [intros _ _; split; reflexivity|]. discriminate.
  - split; [tauto|]. split; [discriminate|].
    split; [discriminate|]. reflexivity.
  - split; [tauto|]. split; [reflexivity|].
    split; [intro H; now elim H|]. reflexivity.
Qed.

(** Closing the store connection, with the events met meanwhile. *)
Lemma closing_store (sd : Shutdown) (w : World) :
  exists w',
    match redisService (this w) with
    | Some r0 =>
        Eff.bind (whileQuitting sd r0)
          (fun _ => Eff.bind (Eff.gets (fun w => redisService (this w)))
          (fun r => match r with
                    | Some r =>
                        Eff.bind (outside (RedisShutdown.disconnect r (quit_reply sd)))
                                 (fun r' => set_this (with_redis r'))
                    | None => Eff.ret tt
                    end))
    | None => Eff.ret tt
    end w = (Ok tt, w')
    /\ closing_keeps w w'
    /\ same_store (this w) (this w')
    /\ (forall r0, redisService (this w) = Some r0 ->
        exists r', redisService (this w') = Some r'
          /\ (RedisService.client r0 = None -> r' = r0)
          /\ (RedisService.client r0 <> None -> quit_reply sd = Ok tt ->
              RedisService.isConnected r' = false /\ RedisService.isReady r' = false)).
Proof.
  destruct (redisService (this w)) as [r0|] eqn:Er0.
  2:{ exists w. split; [reflexivity|]. split; [apply closing_refl|].
      split; [apply store_refl | discriminate]. }
  assert (Hq : exists w1, whileQuitting sd r0 w = (Ok tt, w1)
                          /\ closing_keeps w w1 /\ same_store (this w) (this w1)
                          /\ (RedisService.client r0 = None -> w1 = w)).
  { unfold whileQuitting. destruct (RedisService.client r0).
    - destruct (arriveAll_run sd (eventsDuringQuit sd) w) as (w1 & H & K & S).
      exists w1. split; [exact H|]. split; [exact K|]. split; [exact S | discriminate].
    - exists w. split; [reflexivity|]. split; [apply closing_refl|].
      split; [apply store_refl | reflexivity]. }
  destruct Hq as (w1 & Hq & K1 & S1 & Hsame).
  assert (Hr1 : exists r1, redisService (this w1) = Some r1
                  /\ (RedisService.client r0 = None <-> RedisService.client r1 = None)).
  { unfold same_store in S1. rewrite Er0 in S1.
    destruct (redisService (this w1)) as [r1|]; [|contradiction]. now exists r1. }
  destruct Hr1 as (r1 & Er1 & Hcl1).
  destruct w1 as [s1 t1]. cbn [this] in Er1.
  destruct (store_disconnect_run r1 (quit_reply sd) t1)
    as (r' & t' & Hd & Hc & Hcl & Hnone & Hok & _).
  eexists. split.
  - rewrite (PipelineProps.bind_ok _ _ _ _ _ Hq).
    unfold Eff.bind at 1, Eff.gets. cbn [this]. rewrite Er1.
    rewrite (PipelineProps.bind_ok _ _ _ _ _ (PipelineMore.outside_run _ _ _ _ _ Hd)).
    reflexivity.
  - split.
    + eapply closing_trans; [exact K1|]. unfold closing_keeps. simpl.
      repeat split. now apply PipelineMore.readingsSent_calls.
    + split.
      * unfold same_store. simpl. rewrite Er0. tauto.
      * intros r Hr. injection Hr as <-. exists r'. split; [reflexivity|]. split.
        -- intro Hn. rewrite <- (Hsame Hn) in Er0. cbn [this] in Er0.
           rewrite Er0 in Er1. injection Er1 as <-. now apply Hnone.
        -- intros Hn Hreply. apply Hok; [tauto | exact Hreply].
Qed.

(** A service that is not running does nothing in a cycle. *)
Lemma cycle_when_stopped (c : Cycle) (w : World) :
  isRunning (this w) = false ->
  processSensorData c w = (Ok tt, w) /\ pollTick c w = (Ok tt, w).
Proof.
  intro H.
  assert (E : processSensorData c w = (Ok tt, w)).
  { unfold processSensorData, Eff.try_catch, Eff.bind, Eff.gets. now rewrite H. }
  split; [exact E|]. unfold pollTick, Eff.try_catch. now rewrite E.
Qed.

(** X17: stop never throws, whatever the store answers to quit and
    whatever the two clients raise meanwhile. Afterwards the service is not
    running and its poll timer is cleared; its statistics and configuration
    are as before; no reading has been sent; the store service is still
    there, untouched when it has no client, and marked disconnected, hence
    not ready, when its client's quit was fulfilled; and every later cycle
    or tick, a run of ticks included, returns at once and changes
    nothing. *)
Theorem stop_is_final :
  forall (sd : Shutdown) (w : World),
  exists w',
    stop sd w = (Ok tt, w')
    /\ isRunning (this w') = false
    /\ pollTimer (this w') = None
    /\ stats (this w') = stats (this w)
    /\ config (this w') = config (this w)
    /\ readingsSent (trace w') = readingsSent (trace w)
    /\ (redisService (this w) = None -> redisService (this w') = None)
    /\ (forall r, redisService (this w) = Some r ->
        exists r', redisService (this w') = Some r'
          /\ (RedisService.client r = None -> r' = r)
          /\ (RedisService.client r <> None -> quit_reply sd = Ok tt ->
              RedisService.isConnected r' = false /\ RedisService.isReady r' = false))
    /\ (forall c, processSensorData c w' = (Ok tt, w') /\ pollTick c w' = (Ok tt, w'))
    /\ (forall cycles, runTimer cycles w' = (Ok tt, w')).
Proof.
  intros sd w.
  set (w1 := {| this := with_pollTimer None (with_isRunning false (this w));
                trace := trace w ++ [Logged info "正在停止MQTT推送服務..."] |}).
  set (w1' := {| this := with_isRunning false (this w);
                 trace := trace w ++ [Logged info "正在停止MQTT推送服務..."] |}).
  assert (Hstart : exists w0, (w0 = w1 \/ (w0 = w1' /\ pollTimer (this w) = None))
             /\ forall k : M unit,
                  Eff.bind (outside (log info "正在停止MQTT推送服務..."))
                    (fun _ => Eff.bind (set_this (with_isRunning false))
                    (fun _ => Eff.bind (Eff.gets (fun w => pollTimer (this w)))
                    (fun timer => Eff.bind
                       match timer with
                       | Some _ => set_this (with_pollTimer None)
                       | None => Eff.ret tt
                       end (fun _ => k)))) w = k w0).
  { destruct (pollTimer (this w)) as [p|] eqn:Ep.
    - exists w1. split; [left; reflexivity|]. intro k.
      unfold Eff.bind, Eff.gets, outside, Eff.lift, set_this, Eff.modify, log, emit.
      simpl. now rewrite Ep.
    - exists w1'. split; [right; split; reflexivity|]. intro k.
      unfold Eff.bind, Eff.gets, outside, Eff.lift, set_this, Eff.modify, log, emit.
      simpl. now rewrite Ep. }
  destruct Hstart as (w0 & Hw0 & Hstart).
  assert (H0 : isRunning (this w0) = false /\ pollTimer (this w0) = None
               /\ stats (this w0) = stats (this w) /\ config (this w0) = config (this w)
               /\ redisService (this w0) = redisService (this w)
               /\ readingsSent (trace w0) = readingsSent (trace w)).
  { assert (Hl : readingsSent (trace w ++ [Logged info "正在停止MQTT推送服務..."])
                 = readingsSent (trace w))
      by apply PipelineMore.readingsSent_calls, PublisherProps.publishCalls_logged.
    destruct Hw0 as [-> | [-> Hp]]; simpl; repeat split; assumption. }
  destruct (closing_bus sd (mqttService (this w0)) w0) as (w2 & S2 & K2 & R2).
  destruct (closing_store sd w2) as (w3 & S3 & K3 & St3 & R3).
  destruct (closing_log info "MQTT推送服務已停止" w3) as (w4 & S4 & K4 & R4).
  pose proof (closing_trans _ _ _ (closing_trans _ _ _ K2 K3) K4) as K.
  destruct K as (K_run & K_timer & K_stats & K_cfg & K_sent).
  destruct H0 as (H_run & H_timer & H_stats & H_cfg & H_redis & H_sent).
  assert (Hstopped : isRunning (this w4) = false) by congruence.
  exists w4. split.
  - unfold stop, Eff.try_catch. rewrite Hstart.
    unfold Eff.bind at 1, Eff.gets.
    rewrite (PipelineProps.bind_ok _ _ _ _ _ S2).
    unfold Eff.bind at 1, Eff.gets.
    rewrite (PipelineProps.bind_ok _ _ _ _ _ S3).
    now rewrite S4.
  - repeat (split; [congruence|]).
    split; [|split; [|split]].
    + intro Hn. rewrite R4. unfold same_store in St3.
      rewrite R2, H_redis, Hn in St3.
      destruct (redisService (this w3)); [contradiction | reflexivity].
    + intros r Hr. rewrite R4. apply R3. congruence.
    + intro c. now apply cycle_when_stopped.
    + induction cycles as [|c cs IH]; [reflexivity|].
      simpl. unfold Eff.bind.
      now rewrite (proj2 (cycle_when_stopped c w4 Hstopped)).
Qed.

End ShutdownProps.

(** * Properties of the configuration *)

Module ConfigProps.
Import Js Config.
Local Open Scope string_scope.
Local Open Scope list_scope.
Local Open Scope Z_scope.

Lemma jsstring_eqb_eq (a b : jsstring) : jsstring_eqb a b = true <-> a = b.
Proof.
  revert b. induction a as [|x a IH]; intros [|y b]; simpl; split; intro H;
    try reflexivity; try discriminate.
  - apply andb_true_iff in H. destruct H as [Hx Hr].
    apply Z.eqb_eq in Hx. apply IH in Hr. congruence.
  - injection H as -> ->. rewrite Z.eqb_refl. simpl. now apply IH.
Qed.

Lemma jsstring_eqb_refl (a : jsstring) : jsstring_eqb a a = true.
Proof. now apply jsstring_eqb_eq. Qed.

Lemma own_put_same (k : jsstring) (v : JsVal) (o : Obj) : own k (put k v o) = Some v.
Proof.
  induction o as [|[k' v'] o IH]; simpl.
  - now rewrite jsstring_eqb_refl.
  - destruct (jsstring_eqb k k') eqn:E; simpl.
    + now rewrite jsstring_eqb_refl.
    + now rewrite E.
Qed.

Lemma own_put_other (k k' : jsstring) (v : JsVal) (o : Obj) :
  k' <> k -> own k' (put k v o) = own k' o.
Proof.
  intro Hne. induction o as [|[k0 v0] o IH]; simpl.
  - destruct (jsstring_eqb k' k) eqn:E; [|reflexivity].
    apply jsstring_eqb_eq in E. contradiction.
  - destruct (jsstring_eqb k k0) eqn:E; simpl.
    + apply jsstring_eqb_eq in E. subst k0.
      destruct (jsstring_eqb k' k) eqn:E'; [|reflexivity].
      apply jsstring_eqb_eq in E'. contradiction.
    + now rewrite IH.
Qed.

(** A value that is set is not replaced by a later source. *)
Lemma set_stays_set (k k' : jsstring) (v v' : JsVal) (o : Obj) :
  own k' o = Some v' -> v' <> JUndefined ->
  is_undefined k o = true -> own k' (put k v o) = Some v'.
Proof.
  intros Hown Hdef Hund.
  rewrite own_put_other; [exact Hown|].
  intros ->. unfold is_undefined in Hund. rewrite Hown in Hund.
  destruct v'; congruence.
Qed.

Lemma config_line_keeps (k : jsstring) (v : JsVal) (line : jsstring) (o : Obj) :
  own k o = Some v -> v <> JUndefined -> own k (config_line o line) = Some v.
Proof.
  intros Hown Hdef. unfold config_line.
  destruct (_ && _); [|exact Hown].
  destruct (split 61 (trim line)) as [|key parts]; [exact Hown|].
  destruct (_ && _); [|exact Hown].
  destruct (is_undefined key o) eqn:Hu; [|exact Hown].
  destruct (SensorProcessor.nonEmpty _); [|exact Hown]. simpl.
  destruct (all_digits _); now apply set_stays_set.
Qed.

Lemma config_line_defined (line : jsstring) (o : Obj) :
  (forall k v, own k o = Some v -> v <> JUndefined) ->
  forall k v, own k (config_line o line) = Some v -> v <> JUndefined.
Proof.
  intros Hall k v. unfold config_line.
  destruct (_ && _); [|apply Hall].
  destruct (split 61 (trim line)) as [|key parts]; [apply Hall|].
  destruct (_ && _); [|apply Hall].
  destruct (_ && _); [|apply Hall].
  assert (Hput : forall x, x <> JUndefined -> own k (put key x o) = Some v ->
                           v <> JUndefined).
  { intros x Hx H. destruct (jsstring_eqb k key) eqn:E.
    - apply jsstring_eqb_eq in E. subst key. rewrite own_put_same in H. congruence.
    - rewrite own_put_other in H; [now apply (Hall k)|].
      intros ->. now rewrite jsstring_eqb_refl in E. }
  destruct (all_digits _); apply Hput; discriminate.
Qed.

Lemma loadConfigFile_keeps (h : Host) (o : Obj) :
  (forall k v, own k o = Some v -> v <> JUndefined) ->
  (forall k v, own k o = Some v -> own k (loadConfigFile h o) = Some v)
  /\ (forall k v, own k (loadConfigFile h o) = Some v -> v <> JUndefined).
Proof.
  unfold loadConfigFile.
  destruct (configFile h) as [[content|e]|]; try (intro H; split; [auto | exact H]).
  generalize (split 10 content) as lines. intro lines. revert o.
  induction lines as [|l lines IH]; intros o Hall; simpl.
  - split; [auto | exact Hall].
  - destruct (IH (config_line o l) (config_line_defined l o Hall)) as [Hk Hd].
    split; [|exact Hd].
    intros k v Hown. apply Hk. apply config_line_keeps; [exact Hown|].
    now apply (Hall k).
Qed.


Lemma set_default_keeps (k : jsstring) (v : JsVal) (entry : jsstring * JsVal) (o : Obj) :
  own k o = Some v -> v <> JUndefined -> own k (set_default o entry) = Some v.
Proof.
  intros Hown Hdef. unfold set_default.
  destruct (is_undefined (fst entry) o) eqn:Hu; [|exact Hown].
  now apply set_stays_set.
Qed.

Lemma fold_defaults_keeps (k : jsstring) (v : JsVal) (l : Obj) :
  v <> JUndefined ->
  forall o, own k o = Some v -> own k (fold_left set_default l o) = Some v.
Proof.
  intro Hdef. induction l as [|e l IH]; intros o Hown; simpl; [exact Hown|].
  apply IH. now apply set_default_keeps.
Qed.

(** A default lands where nothing is set yet. *)
Lemma fold_defaults_sets (k : jsstring) (v : JsVal) (l : Obj) :
  NoDup (map fst l) -> In (k, v) l -> v <> JUndefined -> inherited k = false ->
  forall o, own k o = None -> own k (fold_left set_default l o) = Some v.
Proof.
  intros Hnd Hin Hdef Hinh. induction l as [|[k0 v0] l IH]; intros o Hown;
    [contradiction|].
  simpl in Hnd. inversion Hnd as [|? ? Hnotin Hnd']. subst.
  destruct Hin as [Heq | Hin].
  - injection Heq as -> ->. simpl. apply fold_defaults_keeps; [exact Hdef|].
    unfold set_default, is_undefined. simpl. rewrite Hown, Hinh. simpl.
    apply own_put_same.
  - simpl. apply (IH Hnd' Hin).
    unfold set_default. simpl.
    destruct (is_undefined k0 o); [|exact Hown].
    rewrite own_put_other; [exact Hown|].
    intros ->. apply Hnotin. apply in_map_iff. now exists (k0, v).
Qed.

Lemma copy_defined_keeps_others (k : jsstring) (entry : jsstring * JsVal) (o : Obj) :
  k <> fst entry -> own k (copy_defined o entry) = own k o.
Proof.
  intro Hne. unfold copy_defined.
  destruct (snd entry); try reflexivity; now apply own_put_other.
Qed.

Lemma fold_copy_skips (k : jsstring) (l : Obj) :
  ~ In k (map fst l) ->
  forall o, own k (fold_left copy_defined l o) = own k o.
Proof.
  induction l as [|e l IH]; intros Hnotin o; simpl; [reflexivity|].
  rewrite IH; [|intro H; apply Hnotin; now right].
  apply copy_defined_keeps_others. intros ->. apply Hnotin. now left.
Qed.

(** Every defined entry of the environment lands in the object. *)
Lemma fold_copy_sets (k : jsstring) (v : JsVal) (l : Obj) :
  NoDup (map fst l) -> In (k, v) l -> v <> JUndefined ->
  forall o, own k (fold_left copy_defined l o) = Some v.
Proof.
  intros Hnd Hin Hdef. induction l as [|[k0 v0] l IH]; intro o; [contradiction|].
  simpl in Hnd. inversion Hnd as [|? ? Hnotin Hnd']. subst.
  destruct Hin as [Heq | Hin].
  - injection Heq as -> ->. simpl. rewrite (fold_copy_skips k l Hnotin).
    unfold copy_defined. simpl. destruct v; try congruence; apply own_put_same.
  - simpl. now apply IH.
Qed.

Lemma copy_defined_defined (entry : jsstring * JsVal) (o : Obj) :
  (forall k v, own k o = Some v -> v <> JUndefined) ->
  forall k v, own k (copy_defined o entry) = Some v -> v <> JUndefined.
Proof.
  intros Hall k v. unfold copy_defined.
  assert (Hput : forall x, x <> JUndefined -> own k (put (fst entry) x o) = Some v ->
                           v <> JUndefined).
  { intros x Hx H. destruct (jsstring_eqb k (fst entry)) eqn:E.
    - apply jsstring_eqb_eq in E. rewrite E, own_put_same in H. congruence.
    - rewrite own_put_other in H; [now apply (Hall k)|].
      intros ->. now rewrite jsstring_eqb_refl in E. }
  destruct (snd entry); try (apply Hput; discriminate). apply Hall.
Qed.

Lemma fold_copy_defined (l : Obj) :
  forall o, (forall k v, own k o = Some v -> v <> JUndefined) ->
  forall k v, own k (fold_left copy_defined l o) = Some v -> v <> JUndefined.
Proof.
  induction l as [|e l IH]; intros o Hall; simpl; [exact Hall|].
  apply IH. now apply copy_defined_defined.
Qed.

Lemma envConfig_keys (h : Host) :
  map fst (envConfig h) =
  map js ["REDIS_HOST"; "REDIS_PORT"; "REDIS_PASSWORD"; "REDIS_DB"; "MQTT_BROKER_URL";
          "MQTT_CLIENT_ID"; "MQTT_USERNAME"; "MQTT_PASSWORD"; "POLL_INTERVAL";
          "LOG_LEVEL"; "SENSOR_DATA_KEY"; "DEVICE_TOPIC_PREFIX";
          "DEVICE_REGISTRATION_TOPIC"; "DEVICE_SN_KEY"; "DEVICE_IP_KEY";
          "AUTO_REGISTER_ON_START"].
Proof. reflexivity. Qed.

Ltac distinct_keys :=
  repeat (apply NoDup_cons;
          [ let H := fresh in
            intro H; vm_compute in H;
            repeat (destruct H as [H|H]; [discriminate H|]); exact H
          | ]);
  apply NoDup_nil.

Lemma envConfig_distinct (h : Host) : NoDup (map fst (envConfig h)).
Proof. rewrite envConfig_keys. cbn [map]. distinct_keys. Qed.

Lemma defaults_distinct (h : Host) : NoDup (map fst (defaults h)).
Proof. unfold defaults. cbn [map fst]. distinct_keys. Qed.

Lemma defaults_plain (h : Host) (k : jsstring) (v : JsVal) :
  In (k, v) (defaults h) -> v <> JUndefined /\ inherited k = false.
Proof.
  unfold defaults. cbn [In]. intro H.
  repeat (destruct H as [H|H];
          [injection H as <- <-; split; [discriminate | vm_compute; reflexivity]|]).
  contradiction.
Qed.


(** What the environment defines is in the object the sources leave. *)
Lemma env_wins (h : Host) (k : jsstring) (v : JsVal) :
  In (k, v) (envConfig h) -> v <> JUndefined -> own k (sources h) = Some v.
Proof.
  intros Hin Hdef.
  assert (He : own k (loadEnvironmentVariables h []) = Some v)
    by (apply fold_copy_sets; [apply envConfig_distinct | exact Hin | exact Hdef]).
  assert (Hall : forall k v, own k (loadEnvironmentVariables h []) = Some v ->
                             v <> JUndefined)
    by (apply fold_copy_defined; intros ? ? H; discriminate H).
  destruct (loadConfigFile_keeps h _ Hall) as [Hk _].
  unfold sources, setDefaults. apply fold_defaults_keeps; [exact Hdef|].
  now apply Hk.
Qed.

(** X18: the three sources take precedence in the order environment,
    config.env, defaults: a value the environment defines (an empty string
    included) is the one in the loaded configuration; a value taken from
    the file is not replaced by a default; and a default is used for a key
    that neither has set. AUTO_REGISTER_ON_START is always defined by the
    environment step, as whether the variable is exactly the text true, so
    neither the file nor the default of true ever decides it. *)
Theorem config_sources_precedence :
  forall (h : Host),
    let e := loadEnvironmentVariables h [] in
    let f := loadConfigFile h e in
    (forall k v, In (k, v) (envConfig h) -> v <> JUndefined ->
                 own k (sources h) = Some v)
    /\ (forall k v, own k f = Some v -> own k (sources h) = Some v)
    /\ (forall k v, In (k, v) (defaults h) -> own k f = None ->
                    own k (sources h) = Some v)
    /\ own (js "AUTO_REGISTER_ON_START") (sources h)
       = Some (JBool (match env h "AUTO_REGISTER_ON_START" with
                      | Some s => jsstring_eqb s (js "true")
                      | None => false
                      end)).
Proof.
  intros h e f.
  assert (Hall : forall k v, own k e = Some v -> v <> JUndefined)
    by (apply fold_copy_defined; intros ? ? H; discriminate H).
  destruct (loadConfigFile_keeps h e Hall) as [_ Hdef].
  split; [apply env_wins|]. split; [|split].
  - intros k v Hown. unfold sources, setDefaults.
    apply fold_defaults_keeps; [now apply (Hdef k) | exact Hown].
  - intros k v Hin Hnone. destruct (defaults_plain h k v Hin) as [Hv Hk].
    unfold sources, setDefaults.
    apply fold_defaults_sets; auto using defaults_distinct.
  - apply env_wins; [|discriminate].
    unfold envConfig, env_is_true. cbn [In]. do 15 right. left. reflexivity.
Qed.

Lemma sensitive_distinct : js "REDIS_PASSWORD" <> js "MQTT_PASSWORD".
Proof. intro H. vm_compute in H. discriminate H. Qed.

Lemma getv_put_same (k : jsstring) (v : JsVal) (o : Obj) : getv k (put k v o) = v.
Proof. unfold getv. now rewrite own_put_same. Qed.

Lemma getv_put_other (k k' : jsstring) (v : JsVal) (o : Obj) :
  k' <> k -> getv k' (put k v o) = getv k' o.
Proof. intro H. unfold getv. now rewrite own_put_other. Qed.

(** X19: the safe view of the configuration shows neither password: each
    of REDIS_PASSWORD and MQTT_PASSWORD that is set to a non-empty value
    reads as three asterisks, and every other key, an unset or empty
    password included, reads as in the configuration itself. *)
Theorem getSafeConfig_hides_passwords :
  forall (cfg : Obj) (k : jsstring),
    own k (getSafeConfig cfg) =
      if existsb (jsstring_eqb k) sensitiveKeys && truthy (getv k cfg)
      then Some (JStr (js "***"))
      else own k cfg.
Proof.
  intros cfg k. unfold getSafeConfig, sensitiveKeys. cbn [fold_left existsb].
  pose proof sensitive_distinct as Hne.
  set (K1 := js "REDIS_PASSWORD") in *. set (K2 := js "MQTT_PASSWORD") in *.
  assert (H1 : forall o, getv K2 (mask o K1) = getv K2 o).
  { intro o. unfold mask. destruct (truthy (getv K1 o)); [|reflexivity].
    apply getv_put_other. congruence. }
  assert (Hm : forall o K, own k (mask o K) =
                 if jsstring_eqb k K && truthy (getv K o) then Some (JStr (js "***"))
                 else own k o).
  { intros o K. unfold mask. destruct (jsstring_eqb k K) eqn:E.
    - apply jsstring_eqb_eq in E. subst K.
      destruct (truthy (getv k o)); [apply own_put_same | reflexivity].
    - simpl. destruct (truthy (getv K o)); [|reflexivity].
      apply own_put_other. intros ->. now rewrite jsstring_eqb_refl in E. }
  rewrite Hm, H1, Hm.
  destruct (jsstring_eqb k K2) eqn:E2.
  - apply jsstring_eqb_eq in E2. subst k.
    destruct (jsstring_eqb K2 K1) eqn:E1.
    + apply jsstring_eqb_eq in E1. congruence.
    + simpl. reflexivity.
  - rewrite orb_false_r. simpl.
    destruct (jsstring_eqb k K1) eqn:E1; [|reflexivity].
    apply jsstring_eqb_eq in E1. now subst k.
Qed.

Lemma error_texts_differ (a b : string) :
  jsstring_eqb (js a) (js b) = false -> @Throw unit (Error a) <> Throw (Error b).
Proof.
  intros H E. injection E as E. rewrite E, jsstring_eqb_refl in H. discriminate.
Qed.

(** X20: a REDIS_PORT of the environment that does not start with a number
    is stored as NaN, and validation never rejects it as out of range: both
    comparisons with the bounds are false for NaN. With the required keys
    present and the broker URL valid, the configuration loads. *)
Theorem unparsable_port_passes_validation :
  forall (h : Host) (s : jsstring),
    env h "REDIS_PORT" = Some s -> s <> [] -> parseInt s = NaN ->
    own (js "REDIS_PORT") (sources h) = Some (JNum NaN)
    /\ validateConfig h (sources h) <> Throw (Error "Redis端口號必須在1-65535範圍內")
    /\ (filter (is_missing (sources h)) required = [] ->
        isValidUrl h (getv (js "MQTT_BROKER_URL") (sources h)) = true ->
        loadConfig h = Ok (sources h)).
Proof.
  intros h s Henv Hs Hnan.
  assert (Hport : own (js "REDIS_PORT") (sources h) = Some (JNum NaN)).
  { apply env_wins; [|discriminate].
    unfold envConfig, env_int. rewrite Henv.
    destruct s as [|c s]; [congruence|]. rewrite Hnan.
    cbn [In]. right. left. reflexivity. }
  assert (Hv : validateConfig h (sources h)
               = if (0 <? Z.of_nat (List.length (filter (is_missing (sources h)) required)))
                 then Throw (Error "缺少必要配置: ${missing.join(', ')}")
                 else if negb (isValidUrl h (getv (js "MQTT_BROKER_URL") (sources h)))
                 then Throw (Error "MQTT代理URL格式無效")
                 else Ok tt).
  { assert (Hg : getv (js "REDIS_PORT") (sources h) = JNum NaN)
      by (unfold getv; now rewrite Hport).
    unfold validateConfig. cbv zeta. rewrite Hg. reflexivity. }
  split; [exact Hport|]. split.
  - rewrite Hv. destruct (0 <? _).
    + apply error_texts_differ. vm_compute. reflexivity.
    + destruct (negb _); [|discriminate].
      apply error_texts_differ. vm_compute. reflexivity.
  - intros Hm Hu. unfold loadConfig. rewrite Hv, Hm, Hu. reflexivity.
Qed.

Lemma unparsable_port_passes_validation_witness :
  loadConfig
    (mkHost (fun name => if String.eqb name "REDIS_PORT" then Some (js "abc") else None)
            None (js "mqtt-push-service-0") (fun _ => true) (fun _ => NaN))
  = Ok (sources
          (mkHost (fun name => if String.eqb name "REDIS_PORT" then Some (js "abc") else None)
                  None (js "mqtt-push-service-0") (fun _ => true) (fun _ => NaN)))
  /\ own (js "REDIS_PORT")
       (sources
          (mkHost (fun name => if String.eqb name "REDIS_PORT" then Some (js "abc") else None)
                  None (js "mqtt-push-service-0") (fun _ => true) (fun _ => NaN)))
     = Some (JNum NaN).
Proof.
  assert (Hs : js "abc" <> []) by discriminate.
  destruct (unparsable_port_passes_validation
              (mkHost (fun name => if String.eqb name "REDIS_PORT" then Some (js "abc")
                                   else None)
                      None (js "mqtt-push-service-0") (fun _ => true) (fun _ => NaN))
              (js "abc") eq_refl Hs eq_refl) as (Hport & _ & Hload).
  split; [|exact Hport].
  apply Hload; vm_compute; reflexivity.
Defined.

(** *** The lines of config.env *)

Lemma split_on_first (sep : Z) (key rest : jsstring) :
  ~ In sep key ->
  forall cur, split_on sep (key ++ sep :: rest) cur
              = (rev cur ++ key) :: split_on sep rest [].
Proof.
  intro Hno. induction key as [|c key IH]; intro cur; simpl.
  - rewrite Z.eqb_refl. now rewrite app_nil_r.
  - destruct (Z.eqb_spec c sep) as [->|Hne]; [exfalso; apply Hno; now left|].
    rewrite IH; [|intro H; apply Hno; now right].
    simpl. now rewrite <- app_assoc.
Qed.

(** Joining what split gave back restores the text. *)
Lemma join_split_on (sep : Z) (s : jsstring) :
  forall cur, join sep (split_on sep s cur) = rev cur ++ s.
Proof.
  induction s as [|c s IH]; intro cur; simpl.
  - now rewrite app_nil_r.
  - destruct (Z.eqb_spec c sep) as [->|Hne].
    + specialize (IH []). simpl in IH.
      destruct (split_on sep s []) as [|p ps] eqn:E.
      * destruct s; simpl in E; [discriminate | destruct (_ =? _); discriminate].
      * change (join sep (rev cur :: p :: ps)) with (rev cur ++ sep :: join sep (p :: ps)).
        now rewrite IH.
    + rewrite IH. simpl. now rewrite <- app_assoc.
Qed.

(** X21: a line of config.env is read as the key before its first equals
    sign and the whole trimmed text after it, further equals signs
    included: when the key is not yet defined and that text is not empty,
    the line sets the key to the text, or to its number when the text is
    all digits, and leaves every other key as it was. *)
Theorem config_line_sets_key :
  forall (cfg : Obj) (line key rest : jsstring),
    trim line = key ++ 61 :: rest ->
    key <> [] -> hd 0 key <> 35 -> ~ In 61 key ->
    is_undefined key cfg = true ->
    trim rest <> [] ->
    own key (config_line cfg line)
      = Some (if all_digits (trim rest) then JNum (parseInt (trim rest))
              else JStr (trim rest))
    /\ (forall k, k <> key -> own k (config_line cfg line) = own k cfg).
Proof.
  intros cfg line key rest Hline Hkey Hhash Hno Hund Hval.
  assert (Hsplit : split 61 (key ++ 61 :: rest) = key :: split 61 rest)
    by (unfold split; now rewrite split_on_first).
  assert (Hjoin : join 61 (split 61 rest) = rest)
    by (unfold split; now rewrite join_split_on).
  assert (Hparts : (0 <? Z.of_nat (List.length (split 61 rest))) = true).
  { unfold split. destruct rest as [|c r]; [reflexivity|]. simpl split_on.
    destruct (c =? 61); [reflexivity|].
    destruct (split_on 61 r [c]) as [|p ps] eqn:E; [|reflexivity].
    exfalso. revert E. generalize [c]. clear.
    induction r as [|x r IH]; intro cur; simpl; [discriminate|].
    destruct (x =? 61); [discriminate | apply IH]. }
  assert (Hcl : config_line cfg line
                = put key (if all_digits (trim rest) then JNum (parseInt (trim rest))
                           else JStr (trim rest)) cfg).
  { unfold config_line. rewrite Hline, Hsplit, Hjoin, Hparts, Hund.
    destruct key as [|c key']; [congruence|]. simpl in Hhash.
    assert (Hc : (c =? 35) = false) by now apply Z.eqb_neq.
    cbn [app SensorProcessor.nonEmpty]. rewrite Hc. cbn [negb andb].
    destruct (trim rest) as [|v vs] eqn:Ev; [congruence|].
    cbn [SensorProcessor.nonEmpty andb].
    destruct (all_digits (v :: vs)); reflexivity. }
  rewrite Hcl. split; [apply own_put_same|].
  intros k Hk. now apply own_put_other.
Qed.

Lemma config_line_sets_key_witness :
  own (js "MQTT_PASSWORD") (config_line [] (js " MQTT_PASSWORD= a=b= "))
  = Some (JStr (js "a=b=")).
Proof.
  assert (Hk : js "MQTT_PASSWORD" <> []) by discriminate.
  assert (Hh : hd 0 (js "MQTT_PASSWORD") <> 35) by (vm_compute; discriminate).
  assert (Hn : ~ In 61 (js "MQTT_PASSWORD")).
  { vm_compute. intro H. repeat (destruct H as [H|H]; [discriminate H|]). exact H. }
  assert (Hv : trim (js " a=b=") <> []) by (vm_compute; discriminate).
  exact (proj1 (config_line_sets_key [] (js " MQTT_PASSWORD= a=b= ")
                  (js "MQTT_PASSWORD") (js " a=b=") eq_refl Hk Hh Hn eq_refl Hv)).
Defined.

End ConfigProps.
